(** * StockUtils: the feature-derivation pipeline of [src/procs/Procs.py]

    A shallow embedding of the transforms of [Procs.py] and of the
    properties the specification states about them.

    Conventions of the embedding:
    - a pandas float cell is NaN (the missing value), a finite rational
      or one of the two IEEE infinities.  Arithmetic on finite numbers is
      exact (results are kept in lowest terms): binary64 rounding and
      overflow are not represented, and neither is the sign of zero (a
      zero divisor counts as +0.0);
    - a table is an ordered list of named columns, rows are addressed by
      position (the pandas index is not represented);
    - every table and every Python list lives in a store and is passed by
      reference, so in-place updates and aliasing are those of the source;
    - a transform is a computation in a state-and-exception monad over
      that store. *)

From Stdlib Require Import ZArith QArith Qreduction Qround Qabs Lia Lqa.
From Stdlib Require Import String List Sorting.Sorted Sorting.Permutation.
From Stdlib Require Qcanon.
From stdpp Require Import base list strings pretty.

Local Open Scope string_scope.
Local Open Scope list_scope.

(** ** Floats *)

Module Float.

(** A cell that is not NaN: a finite number or an infinity. *)
Inductive num :=
| Fin (q : Q)
| Inf (negative : bool).

Abbreviation float := (option num).

Definition NaN : float := None.
Definition fin (q : Q) : float := Some (Fin q).
Definition neg_inf : float := Some (Inf true).
Definition of_Z (z : Z) : float := Some (Fin (inject_Z z)).

Definition Qlt_bool (x y : Q) : bool := negb (Qle_bool y x).

(** The arithmetic of IEEE 754 on numbers and infinities: [inf - inf],
    [0 * inf], [0 / 0] and [inf / inf] are NaN, a nonzero number over
    zero is an infinity of the sign of the number. *)
Definition add_num (x y : num) : float :=
  match x, y with
  | Fin a, Fin b => Some (Fin (Qred (a + b)))
  | Inf s, Fin _ => Some (Inf s)
  | Fin _, Inf s => Some (Inf s)
  | Inf s, Inf t => if Bool.eqb s t then Some (Inf s) else None
  end.

Definition sub_num (x y : num) : float :=
  match x, y with
  | Fin a, Fin b => Some (Fin (Qred (a - b)))
  | Inf s, Fin _ => Some (Inf s)
  | Fin _, Inf s => Some (Inf (negb s))
  | Inf s, Inf t => if Bool.eqb s t then None else Some (Inf s)
  end.

Definition mul_num (x y : num) : float :=
  match x, y with
  | Fin a, Fin b => Some (Fin (Qred (a * b)))
  | Inf s, Fin b => if Qeq_bool b 0 then None else Some (Inf (xorb s (Qlt_bool b 0)))
  | Fin a, Inf s => if Qeq_bool a 0 then None else Some (Inf (xorb s (Qlt_bool a 0)))
  | Inf s, Inf t => Some (Inf (xorb s t))
  end.

Definition div_num (x y : num) : float :=
  match x, y with
  | Fin a, Fin b =>
      if Qeq_bool b 0
      then (if Qeq_bool a 0 then None else Some (Inf (Qlt_bool a 0)))
      else Some (Fin (Qred (a / b)))
  | Fin _, Inf _ => Some (Fin 0)
  | Inf s, Fin b => Some (Inf (xorb s (Qlt_bool b 0)))
  | Inf _, Inf _ => None
  end.

(** NaN on either side gives NaN. *)
Definition lift2 (f : num -> num -> float) (a b : float) : float :=
  match a, b with
  | Some x, Some y => f x y
  | _, _ => None
  end.

Definition add : float -> float -> float := lift2 add_num.
Definition sub : float -> float -> float := lift2 sub_num.
Definition mul : float -> float -> float := lift2 mul_num.
Definition div : float -> float -> float := lift2 div_num.

Definition abs (a : float) : float :=
  match a with
  | Some (Fin x) => Some (Fin (Qred (Qabs x)))
  | Some (Inf _) => Some (Inf false)
  | None => None
  end.

Definition lt_num (x y : num) : bool :=
  match x, y with
  | Fin a, Fin b => Qlt_bool a b
  | Inf true, Fin _ => true
  | Inf true, Inf false => true
  | Fin _, Inf false => true
  | _, _ => false
  end.

Definition le_num (x y : num) : bool :=
  match x, y with
  | Fin a, Fin b => Qle_bool a b
  | Inf true, _ => true
  | _, Inf false => true
  | _, _ => false
  end.

Definition eqb_num (x y : num) : bool :=
  match x, y with
  | Fin a, Fin b => Qeq_bool a b
  | Inf s, Inf t => Bool.eqb s t
  | _, _ => false
  end.

(** Comparisons with NaN on either side are false, as in IEEE 754. *)
Definition lt (a b : float) : bool :=
  match a, b with
  | Some x, Some y => lt_num x y
  | _, _ => false
  end.

Definition gt (a b : float) : bool := lt b a.

Definition le (a b : float) : bool :=
  match a, b with
  | Some x, Some y => le_num x y
  | _, _ => false
  end.

(** A cell that holds a finite number. *)
Definition is_finite (a : float) : bool :=
  match a with
  | Some (Fin _) => true
  | _ => false
  end.

(** A cell that holds no infinity: a finite number or NaN. *)
Definition no_inf (a : float) : bool :=
  match a with
  | Some (Inf _) => false
  | _ => true
  end.

(** Square root to ten decimal places ([math.sqrt] rounds to the nearest
    binary64 instead); NaN for a negative argument. *)
Definition sqrt (a : float) : float :=
  match a with
  | Some (Fin x) =>
      if Qlt_bool x 0 then None
      else Some (Fin (Qred (Z.sqrt (Qfloor (x * inject_Z (10 ^ 20))) # 10 ^ 10)))
  | Some (Inf false) => Some (Inf false)
  | Some (Inf true) => None
  | None => None
  end.

End Float.

Import Float.

(** ** OnlineVariance *)

Module OnlineVariance.

(** Modelled from the spec: the class [OnlineVariance] of
    [src/procs/OnlineVariance.py] is not among the sources.  The spec
    (section 4.1) gives Welford's method: the estimator keeps [count],
    [mean] and [sumSquaredDeltas]; [include x] does [count += 1],
    [delta = x - mean], [mean += delta / count], [delta2 = x - mean],
    [sumSquaredDeltas += delta * delta2]; the variance is
    [sumSquaredDeltas / (count - 1)] when [count > 1] and 0 otherwise; the
    standard deviation is its square root. *)
Record t := mk {
  count : Z;
  mean : float;
  sumSquaredDeltas : float
}.

Definition init : t :=
  {| count := 0; mean := of_Z 0; sumSquaredDeltas := of_Z 0 |}.

Definition include (ov : t) (x : float) : t :=
  let count' := (count ov + 1)%Z in
  let delta := sub x (mean ov) in
  let mean' := add (mean ov) (div delta (of_Z count')) in
  let delta2 := sub x mean' in
  {| count := count';
     mean := mean';
     sumSquaredDeltas := add (sumSquaredDeltas ov) (mul delta delta2) |}.

Definition variance (ov : t) : float :=
  if (1 <? count ov)%Z
  then div (sumSquaredDeltas ov) (of_Z (count ov - 1))
  else of_Z 0.

Definition std (ov : t) : float := sqrt (variance ov).

Definition include_all (ov : t) (xs : list float) : t :=
  fold_left include xs ov.

(** The estimator while it is fed one value [x] only: the mean is [x]
    (once something was included) and no squared delta has been
    accumulated. *)
Definition settled (x : Q) (ov : t) : Prop :=
  exists m, mean ov = fin m
    /\ sumSquaredDeltas ov = fin 0
    /\ (0 <= count ov)%Z
    /\ (count ov = 0%Z \/ (m == x)%Q).

End OnlineVariance.

(** ** Exceptions *)

Inductive exn :=
| KeyError (key : string)
| ValueError (what : string)
| TypeError (what : string)
| IndexError (what : string)
| CacheError (what : string).

Definition result (A : Type) : Type := exn + A.

(** ** Series: the columns of a table *)

Module Series.

(** A column is a float64 series or a datetime64 series.  Dates are day
    numbers; every row of a datetime column holds a date (the tables of
    the pipeline have one row per trading date). *)
Inductive column :=
| Floats (xs : list float)
| Dates (ds : list Z).

Definition size (c : column) : nat :=
  match c with
  | Floats xs => length xs
  | Dates ds => length ds
  end.

(** The numeric view of a column: a date counts as its day number. *)
Definition values (c : column) : list float :=
  match c with
  | Floats xs => xs
  | Dates ds => map of_Z ds
  end.

(** [Series.fillna(0)]. *)
Definition fillna0 (c : column) : column :=
  match c with
  | Floats xs => Floats (map (fun x => match x with None => of_Z 0 | Some _ => x end) xs)
  | Dates ds => Dates ds
  end.

(** [Series.shift(n)]: values move [n] rows down (up when [n] is
    negative), the vacated rows are NaN. *)
Definition shift (n : Z) (xs : list float) : list float :=
  if (0 <=? n)%Z
  then take (length xs) (replicate (Z.to_nat n) NaN ++ xs)
  else drop (Z.to_nat (- n)) xs
       ++ replicate (Nat.min (Z.to_nat (- n)) (length xs)) NaN.

(** [Series.fillna(method='pad')]: a NaN takes the last value that was
    not NaN; the NaN before the first such value stay. *)
Fixpoint pad_from (last : float) (xs : list float) : list float :=
  match xs with
  | [] => []
  | x :: r =>
      let y := match x with None => last | Some _ => x end in
      y :: pad_from y r
  end.

Definition pad (xs : list float) : list float := pad_from NaN xs.

(** [Series.pct_change()] with the defaults of pandas ([periods=1],
    [fill_method='pad']): the series is padded first, then
    [data / data.shift(1) - 1], so the first row is NaN. *)
Definition pct_change (xs : list float) : list float :=
  let data := pad xs in
  zip_with (fun x p => sub (div x p) (of_Z 1)) data (shift 1 data).

(** [Series.min()] and [Series.max()] skip NaN; NaN when nothing is left. *)
Definition fmin2 (a b : float) : float :=
  match a, b with
  | Some x, Some y => if le_num x y then a else b
  | Some _, None => a
  | None, _ => b
  end.

Definition fmax2 (a b : float) : float :=
  match a, b with
  | Some x, Some y => if le_num x y then b else a
  | Some _, None => a
  | None, _ => b
  end.

Definition min (xs : list float) : float := fold_right fmin2 NaN xs.
Definition max (xs : list float) : float := fold_right fmax2 NaN xs.

(** The values that are not NaN, and the finite ones among them. *)
Definition dropna (xs : list float) : list num := omap id xs.

Definition finite_values (l : list num) : option (list Q) :=
  mapM (fun x => match x with Fin q => Some q | Inf _ => None end) l.

(** Insertion sort, ascending: of finite values, and of values with
    infinities among them. *)
Fixpoint insert_sorted (x : Q) (l : list Q) : list Q :=
  match l with
  | [] => [x]
  | y :: r => if Qle_bool x y then x :: l else y :: insert_sorted x r
  end.

Definition sort (l : list Q) : list Q := fold_right insert_sorted [] l.

Fixpoint insert_num (x : num) (l : list num) : list num :=
  match l with
  | [] => [x]
  | y :: r => if le_num x y then x :: l else y :: insert_num x r
  end.

Definition sort_num (l : list num) : list num := fold_right insert_num [] l.

(** [Series.quantile(q)] with pandas' default linear interpolation: NaN
    is skipped, the values are sorted, the position is [(n - 1) * q] and
    the result interpolates between its two neighbours.  NaN for an empty
    series; a [q] outside [0, 1] is a ValueError. *)
Definition at_position (sorted : list Q) (x0 : Q) (h : Q) : Q :=
  let i := Z.to_nat (Qfloor h) in
  let lo := nth i sorted x0 in
  let hi := nth (S i) sorted lo in
  (lo + (hi - lo) * (h - inject_Z (Qfloor h)))%Q.

Definition interpolate (sorted : list Q) (q : Q) : float :=
  match sorted with
  | [] => NaN
  | x0 :: _ =>
      let h := ((inject_Z (Z.of_nat (length sorted)) - 1) * q)%Q in
      Some (Fin (Qred (at_position sorted x0 h)))
  end.

(** The same interpolation when an infinity is among the values, in
    float arithmetic as numpy does it: [a + (b - a) * g], and
    [b - (b - a) * (1 - g)] when [g >= 0.5], where [b] is the next value
    or [a] itself at the end of the series. *)
Definition interpolate_num (sorted : list num) (q : Q) : float :=
  match sorted with
  | [] => NaN
  | x0 :: _ =>
      let h := ((inject_Z (Z.of_nat (length sorted)) - 1) * q)%Q in
      let i := Z.to_nat (Qfloor h) in
      let g := (h - inject_Z (Qfloor h))%Q in
      let a := nth i sorted x0 in
      let b := nth (S i) sorted a in
      let d := sub (Some b) (Some a) in
      if Qle_bool (1 # 2) g
      then sub (Some b) (mul d (Some (Fin (1 - g))))
      else add (Some a) (mul d (Some (Fin g)))
  end.

Definition quantile (xs : list float) (q : Q) : result float :=
  if Qle_bool 0 q && Qle_bool q 1
  then inr (match finite_values (dropna xs) with
            | Some qs => interpolate (sort qs) q
            | None => interpolate_num (sort_num (dropna xs)) q
            end)
  else inl (ValueError "percentiles should all be in the interval [0, 1]").

(** Element-wise comparison of a series with a scalar. *)
Definition lt_scalar (xs : list float) (t : float) : list bool :=
  map (fun x => lt x t) xs.
Definition gt_scalar (xs : list float) (t : float) : list bool :=
  map (fun x => gt x t) xs.

(** The rows of a series selected by a boolean mask. *)
Fixpoint select (mask : list bool) (xs : list float) : list float :=
  match mask, xs with
  | true :: m, x :: r => x :: select m r
  | false :: m, _ :: r => select m r
  | _, _ => []
  end.

(** Rows [idx] of a column, in that order. *)
Definition take_rows (idx : list nat) (c : column) : column :=
  match c with
  | Floats xs => Floats (map (fun i => default NaN (xs !! i)) idx)
  | Dates ds => Dates (map (fun i => default 0%Z (ds !! i)) idx)
  end.

End Series.

Import Series.

(** ** Tables *)

Module Frame.

Abbreviation DataFrame := (list (string * column)).

(** [df.columns.values.tolist()] *)
Definition columns (df : DataFrame) : list string := map fst df.

Definition has_column (df : DataFrame) (name : string) : bool :=
  existsb (String.eqb name) (columns df).

Definition nrows (df : DataFrame) : nat :=
  match df with
  | [] => 0
  | (_, c) :: _ => size c
  end.

(** Every column has as many rows as the table: what pandas keeps true of
    a DataFrame. *)
Definition rectangular (df : DataFrame) : bool :=
  forallb (fun nc => Nat.eqb (size (snd nc)) (nrows df)) df.

Fixpoint get (df : DataFrame) (name : string) : option column :=
  match df with
  | [] => None
  | (n, c) :: r => if String.eqb n name then Some c else get r name
  end.

(** [df[name]], a KeyError when the column is missing. *)
Definition getitem (df : DataFrame) (name : string) : result column :=
  match get df name with
  | Some c => inr c
  | None => inl (KeyError name)
  end.

(** [df[name]] read as numbers; arithmetic on a datetime column is a
    TypeError. *)
Definition floats (df : DataFrame) (name : string) : result (list float) :=
  match get df name with
  | Some (Floats xs) => inr xs
  | Some (Dates _) => inl (TypeError name)
  | None => inl (KeyError name)
  end.

(** [df[name] = c]: replaces the column in place, or adds it last. *)
Fixpoint setitem (df : DataFrame) (name : string) (c : column) : DataFrame :=
  match df with
  | [] => [(name, c)]
  | (n, c0) :: r =>
      if String.eqb n name then (n, c) :: r else (n, c0) :: setitem r name c
  end.

(** What [df.loc[mask, name] = v] writes: rows outside the mask keep
    their value; a column that did not exist starts as all NaN. *)
Definition loc_set (df : DataFrame) (mask : list bool) (name : string)
    (v : float) : DataFrame :=
  let old := match get df name with
             | Some c => values c
             | None => replicate (length mask) NaN
             end in
  setitem df name (Floats (zip_with (fun (m : bool) o => if m then v else o) mask old)).

(** [df.loc[mask, name] = v] with a scalar [v]: pandas refuses to add a
    column this way to a table of no rows. *)
Definition loc_setitem (df : DataFrame) (mask : list bool) (name : string)
    (v : float) : result DataFrame :=
  if Nat.eqb (nrows df) 0 && negb (has_column df name)
  then inl (ValueError "cannot set a frame with no defined index and a scalar")
  else inr (loc_set df mask name v).


(** [df.drop(columns=names)]: a KeyError when one of them is missing. *)
Definition drop (df : DataFrame) (names : list string) : result DataFrame :=
  match List.find (fun n => negb (has_column df n)) names with
  | Some n => inl (KeyError n)
  | None =>
      inr (List.filter (fun nc => negb (existsb (String.eqb (fst nc)) names)) df)
  end.

(** [df.rename(columns={old: new})]; nothing happens when [old] is absent. *)
Definition rename (df : DataFrame) (old new : string) : DataFrame :=
  map (fun nc => (if String.eqb (fst nc) old then new else fst nc, snd nc)) df.

(** [df.fillna(0)] *)
Definition fillna0 (df : DataFrame) : DataFrame :=
  map (fun nc => (fst nc, Series.fillna0 (snd nc))) df.


(** [pd.to_datetime] on a column.  Parsing date strings is outside the
    pipeline (spec, section 1): a date column already holds day numbers,
    and a numeric column is not converted. *)
Definition to_datetime (c : column) : result column :=
  match c with
  | Dates ds => inr (Dates ds)
  | Floats _ => inl (TypeError "to_datetime")
  end.

(** *** Inner join *)

Definition float_eqb (a b : float) : bool :=
  match a, b with
  | Some x, Some y => eqb_num x y
  | None, None => true
  | _, _ => false
  end.

(** Positions in [r], counted from [j], of the keys equal to [a]. *)
Fixpoint matches {A} (eqb : A -> A -> bool) (a : A) (r : list A) (j : nat) : list nat :=
  match r with
  | [] => []
  | b :: r' =>
      if eqb a b then j :: matches eqb a r' (S j) else matches eqb a r' (S j)
  end.

(** Pairs (left row, right row) with equal keys, in the order of the left
    keys, and of the right keys among equal ones. *)
Fixpoint join_pairs {A} (eqb : A -> A -> bool) (l r : list A) (i : nat)
    : list (nat * nat) :=
  match l with
  | [] => []
  | a :: l' => map (pair i) (matches eqb a r 0) ++ join_pairs eqb l' r (S i)
  end.

Definition key_pairs (kl kr : column) : result (list (nat * nat)) :=
  match kl, kr with
  | Dates a, Dates b => inr (join_pairs Z.eqb a b 0)
  | Floats a, Floats b => inr (join_pairs float_eqb a b 0)
  | _, _ => inl (ValueError "merge")
  end.

(** [pd.merge(left, right, on=on)], an inner join: the key column comes
    once, the other columns of [left] then those of [right]; a name the
    two tables share (other than the key) gets the suffix [_x] on the
    left and [_y] on the right. *)
Definition merge (left right : DataFrame) (on : string) : result DataFrame :=
  match get left on, get right on with
  | Some kl, Some kr =>
      match key_pairs kl kr with
      | inl e => inl e
      | inr ps =>
          let lcols :=
            map (fun nc =>
                   (if negb (String.eqb (fst nc) on) && has_column right (fst nc)
                    then fst nc +:+ "_x" else fst nc,
                    take_rows (map fst ps) (snd nc))) left in
          let rcols :=
            map (fun nc =>
                   (if has_column left (fst nc)
                    then fst nc +:+ "_y" else fst nc,
                    take_rows (map snd ps) (snd nc)))
                (List.filter (fun nc => negb (String.eqb (fst nc) on)) right) in
          inr (lcols ++ rcols)
      end
  | _, _ => inl (KeyError on)
  end.

End Frame.

Import Frame.



(** ** The store and the monad of transforms *)

(** Modelled from the spec: the enumeration [TECHIND] of [src/enum] is not
    among the sources; the spec (section 6) lists its kinds. *)
Inductive TECHIND := SMA | EMA | WMA | ADX | OBV | MOM | RSI | MACD | BBANDS.

(** Modelled from the spec: [Ticker] of [src/enum] is an opaque
    identifier of an instrument (section 3). *)
Abbreviation Ticker := string (only parsing).

(** A reference to a table, and to a Python list of names. *)
Abbreviation df_ref := nat (only parsing).
Abbreviation list_ref := nat (only parsing).

(** The store: the tables and the lists allocated so far, and the
    indicator cache, the external collaborator behind
    [TechInd.get_cached_tech_indicator]: for an indicator, a ticker and an
    optional time period it holds a table or fails. *)
Record store := Store {
  frames : list DataFrame;
  lists : list (list string);
  cache : TECHIND -> Ticker -> option Z -> result DataFrame
}.

Inductive outcome (A : Type) :=
| Return (a : A) (s : store)
| Raise (e : exn) (s : store).
Arguments Return {A} a s.
Arguments Raise {A} e s.

Definition M (A : Type) : Type := store -> outcome A.

Definition ret {A} (a : A) : M A := fun s => Return a s.

Definition bind {A B} (m : M A) (k : A -> M B) : M B :=
  fun s =>
    match m s with
    | Return a s' => k a s'
    | Raise e s' => Raise e s'
    end.

Definition raise {A} (e : exn) : M A := fun s => Raise e s.

Definition lift {A} (r : result A) : M A :=
  match r with
  | inl e => raise e
  | inr a => ret a
  end.

Declare Scope py_scope.
Delimit Scope py_scope with py.
Notation "'let*' x ':=' m 'in' k" := (bind m (fun x => k))
  (at level 10, x name, m at level 100, k at level 200) : py_scope.
Notation "m ;;; k" := (bind m (fun _ => k))
  (at level 100, k at level 200, right associativity) : py_scope.
Local Open Scope py_scope.

Definition final {A} (o : outcome A) : store :=
  match o with
  | Return _ s => s
  | Raise _ s => s
  end.

(** The object behind a reference.  References handed to a transform are
    live; a dangling one reads as an empty object. *)
Definition frame_of (r : df_ref) : M DataFrame :=
  fun s => Return (default [] (frames s !! r)) s.

Definition new_frame (f : DataFrame) : M df_ref :=
  fun s => Return (length (frames s))
             (Store (frames s ++ [f]) (lists s) (cache s)).

Definition put_frame (r : df_ref) (f : DataFrame) : M unit :=
  fun s => Return tt (Store (<[r := f]> (frames s)) (lists s) (cache s)).

Definition list_of (l : list_ref) : M (list string) :=
  fun s => Return (default [] (lists s !! l)) s.

Definition new_list (xs : list string) : M list_ref :=
  fun s => Return (length (lists s))
             (Store (frames s) (lists s ++ [xs]) (cache s)).

Definition put_list (l : list_ref) (xs : list string) : M unit :=
  fun s => Return tt (Store (frames s) (<[l := xs]> (lists s)) (cache s)).

(** [for x in xs: body(x)] *)
Fixpoint for_each {A} (xs : list A) (body : A -> M unit) : M unit :=
  match xs with
  | [] => ret tt
  | x :: r => body x ;;; for_each r body
  end.

(** [range(a, b)] *)
Definition range (a b : Z) : list Z :=
  map (fun k => (a + Z.of_nat k)%Z) (seq 0 (Z.to_nat (b - a))).

(** *** Python lists *)

(** [l.append(x)] *)
Definition append (l : list_ref) (x : string) : M unit :=
  let* xs := list_of l in put_list l (xs ++ [x]).

Fixpoint remove_first (x : string) (xs : list string) : option (list string) :=
  match xs with
  | [] => None
  | y :: r =>
      if String.eqb y x then Some r
      else match remove_first x r with
           | Some r' => Some (y :: r')
           | None => None
           end
  end.

(** [xs.remove(x)] on a list held in a local variable. *)
Definition removed (xs : list string) (x : string) : result (list string) :=
  match remove_first x xs with
  | Some r => inr r
  | None => inl (ValueError "list.remove(x): x not in list")
  end.

(** [l.remove(x)] *)
Definition remove (l : list_ref) (x : string) : M unit :=
  let* xs := list_of l in let* xs' := lift (removed xs x) in put_list l xs'.

(** [x in l] *)
Definition contains (xs : list string) (x : string) : bool :=
  existsb (String.eqb x) xs.

Fixpoint index_from (x : string) (xs : list string) (i : Z) : option Z :=
  match xs with
  | [] => None
  | y :: r => if String.eqb y x then Some i else index_from x r (i + 1)%Z
  end.

(** [xs.index(x)] *)
Definition index (xs : list string) (x : string) : result Z :=
  match index_from x xs 0%Z with
  | Some i => inr i
  | None => inl (ValueError "is not in list")
  end.

(** [xs[i]] for a non-negative [i]. *)
Definition item (xs : list string) (i : Z) : result string :=
  match (if (0 <=? i)%Z then xs !! Z.to_nat i else None) with
  | Some x => inr x
  | None => inl (IndexError "list index out of range")
  end.

(** [str(n)] and [s.upper()]; of [upper], the ASCII letters only: a
    name with letters outside ASCII is not in the domain of the model. *)
Definition str (n : Z) : string := pretty n.

Definition upper_ascii (c : Ascii.ascii) : Ascii.ascii :=
  let n := Ascii.nat_of_ascii c in
  if (97 <=? n)%nat && (n <=? 122)%nat then Ascii.ascii_of_nat (n - 32) else c.

Fixpoint upper (s : string) : string :=
  match s with
  | EmptyString => EmptyString
  | String c r => String (upper_ascii c) (upper r)
  end.

(** *** Tables in the store *)

(** [df[name]] as a numeric series. *)
Definition series (df : df_ref) (name : string) : M (list float) :=
  let* f := frame_of df in lift (floats f name).

(** [df[name] = xs], in place. *)
Definition assign (df : df_ref) (name : string) (xs : list float) : M unit :=
  let* f := frame_of df in put_frame df (setitem f name (Floats xs)).

(** [df.loc[mask, name] = v], in place. *)
Definition assign_where (df : df_ref) (mask : list bool) (name : string)
    (v : Z) : M unit :=
  let* f := frame_of df in
  let* f' := lift (loc_setitem f mask name (of_Z v)) in
  put_frame df f'.

(** [df.columns.values.tolist()] *)
Definition columns_of (df : df_ref) : M (list string) :=
  let* f := frame_of df in ret (columns f).

(** [pd.merge(left, right, on=on)]: a new table. *)
Definition pd_merge (left right : df_ref) (on : string) : M df_ref :=
  let* l := frame_of left in
  let* r := frame_of right in
  let* m := lift (merge l r on) in
  new_frame m.

(** [t.get_cached_tech_indicator(indicator, stock, time_period)]: the
    table the cache holds, as a new object, or the cache's failure. *)
Definition get_cached_tech_indicator (indicator : TECHIND) (stock : Ticker)
    (time_period : option Z) : M df_ref :=
  fun s =>
    match cache s indicator stock time_period with
    | inl e => Raise e s
    | inr f => new_frame f s
    end.

(** ** The transforms of [Procs.py] *)

Definition DBG : bool := false.

(** [df.fillna(0)] gives a new table; [df] itself is left as it is. *)
Definition fillna (df : df_ref) : M df_ref :=
  let* f := frame_of df in new_frame (fillna0 f).

Definition proc_fill_nan (df : df_ref) : M df_ref := fillna df.


Definition proc_close_only (df : df_ref) (cont_vars : list_ref) : M df_ref :=
  let features := ["Open"; "High"; "Low"; "Volume"] in
  append cont_vars "Close" ;;;
  let* f := frame_of df in
  let* f' := lift (Frame.drop f features) in
  new_frame f'.

Definition proc_add_datepart (df : df_ref) (cont_vars cat_vars : list_ref)
    (date_col_name : string) : M unit :=
  append cont_vars "Elapsed" ;;;
  let* column_names := columns_of df in
  let* start := lift (index column_names "Year") in
  let* stop := lift (index column_names "Is_year_end") in
  for_each (range start stop)
    (fun i => let* name := lift (item column_names i) in append cat_vars name).

Definition proc_add_next_y (df : df_ref) (y_column : string) (number : Z)
    (cont_vars : list_ref) : M df_ref :=
  let c_name := "y" in
  let* ys := series df y_column in
  assign df c_name (shift (- number) ys) ;;;
  append cont_vars c_name ;;;
  ret df.

Definition proc_add_previous_values (df : df_ref) (column_name : string)
    (number : Z) (cont_vars : list_ref) : M df_ref :=
  for_each (range 1 (number + 1))
    (fun n =>
       let* xs := series df column_name in
       assign df (column_name +:+ "-" +:+ str n) (shift n xs) ;;;
       append cont_vars (column_name +:+ "-" +:+ str n)) ;;;
  ret df.

Definition proc_add_percent_change (df : df_ref) (column_name : string)
    (cont_vars : list_ref) : M df_ref :=
  let name := "-pct" in
  let* xs := series df column_name in
  assign df (column_name +:+ name) (pct_change xs) ;;;
  append cont_vars (column_name +:+ name) ;;;
  ret df.

Definition proc_add_abs_percent_change (df : df_ref) (column_name : string)
    (cont_vars : list_ref) : M df_ref :=
  let name := "-abs-pct" in
  let* xs := series df column_name in
  let* prev := series df column_name in
  assign df (column_name +:+ name)
    (zip_with (fun x p => mul (abs (sub (div x p) (of_Z 1))) (of_Z 100))
       xs (shift 1 prev)) ;;;
  append cont_vars (column_name +:+ name) ;;;
  ret df.

(** [df[target].quantile(q)] *)
Definition quantile_of (df : df_ref) (target : string) (q : Q) : M float :=
  let* xs := series df target in lift (quantile xs q).

(** [df[target] < t] and [df[target] > t] *)
Definition below (df : df_ref) (target : string) (t : float) : M (list bool) :=
  let* xs := series df target in ret (lt_scalar xs t).
Definition above (df : df_ref) (target : string) (t : float) : M (list bool) :=
  let* xs := series df target in ret (gt_scalar xs t).

(** [a & b] on boolean series *)
Definition band (a b : list bool) : list bool := zip_with andb a b.

Definition proc_add_direction (df : df_ref) (column_name : string)
    (cat_vars cont_vars : list_ref) (noise_threshold : Q) : M df_ref :=
  let name := "-direction" in
  let target := column_name +:+ "-pct" in
  let* cols := columns_of df in
  let* df :=
    (if negb (contains cols target)
     then proc_add_percent_change df column_name cont_vars
     else ret df) in
  let* lowest_ten_quantile := quantile_of df target (10 # 100) in
  let* bottom_quantile := quantile_of df target (25 # 100) in
  let* top_quantile := quantile_of df target (75 # 100) in
  let* top_fifteen_quantile := quantile_of df target (85 # 100) in
  let* top_five_quantile := quantile_of df target (95 # 100) in
  let SKYFALL := (-7)%Z in
  let STRONG_DOWN := (-3)%Z in
  let DOWN := (-1)%Z in
  let ZERO := 0%Z in
  let UP := 1%Z in
  let MORE_UP := 3%Z in
  let STRONG_UP := 5%Z in
  let SKY_UP := 7%Z in
  let* min_positive_pct :=
    (let* xs := series df target in
     let* m := above df target (of_Z 0) in
     lift (quantile (select m xs) noise_threshold)) in
  let* min_negative_pct :=
    (let* xs := series df target in
     let* m := below df target (of_Z 0) in
     lift (quantile (select m xs) (1 - noise_threshold))) in
  (let* m := below df target lowest_ten_quantile in
   assign_where df m (column_name +:+ name) SKYFALL) ;;;
  (let* a := below df target bottom_quantile in
   let* b := above df target lowest_ten_quantile in
   assign_where df (band a b) (column_name +:+ name) STRONG_DOWN) ;;;
  (let* a := below df target min_negative_pct in
   let* b := above df target bottom_quantile in
   assign_where df (band a b) (column_name +:+ name) DOWN) ;;;
  (let* a := above df target min_negative_pct in
   let* b := below df target min_positive_pct in
   assign_where df (band a b) (column_name +:+ name) ZERO) ;;;
  (let* a := above df target min_positive_pct in
   let* b := below df target top_quantile in
   assign_where df (band a b) (column_name +:+ name) UP) ;;;
  (let* a := above df target top_quantile in
   let* b := below df target top_fifteen_quantile in
   assign_where df (band a b) (column_name +:+ name) MORE_UP) ;;;
  (let* a := above df target top_fifteen_quantile in
   let* b := below df target top_five_quantile in
   assign_where df (band a b) (column_name +:+ name) STRONG_UP) ;;;
  (let* m := above df target top_five_quantile in
   assign_where df m (column_name +:+ name) SKY_UP) ;;;
  append cat_vars (column_name +:+ name) ;;;
  ret df.

(** [for x in xs: acc = body(x, acc)], for a loop that updates a local
    object. *)
Fixpoint fold_each {A S} (xs : list A) (body : A -> S -> M S) (acc : S) : M S :=
  match xs with
  | [] => ret acc
  | x :: r => let* acc' := body x acc in fold_each r body acc'
  end.

(** Modelled from the spec: how [OnlineVariance.include] takes a whole
    column is not among the sources; the spec (4.1) has the estimator fed
    every row's value of the shifted column, and the one resulting
    standard deviation written into every row. *)
Definition proc_add_volatility (df : df_ref) (column_name : string)
    (cont_vars : list_ref) (nr_days : Z) : M df_ref :=
  let name := column_name +:+ "-volatility" in
  let* ov :=
    fold_each (range 0 nr_days)
      (fun n ov =>
         let* xs := series df column_name in
         ret (OnlineVariance.include_all ov (shift n xs)))
      OnlineVariance.init in
  let* f := frame_of df in
  assign df name (replicate (nrows f) (OnlineVariance.std ov)) ;;;
  append cont_vars name ;;;
  ret df.

Definition __rename_column (df : df_ref) (old_name new_name : string) : M df_ref :=
  let* f := frame_of df in new_frame (rename f old_name new_name).

(** [df[date_col_name] = pd.to_datetime(df[date_col_name])], in place. *)
Definition convert_date (df : df_ref) (date_col_name : string) : M df_ref :=
  let* f := frame_of df in
  let* c := lift (getitem f date_col_name) in
  let* d := lift (to_datetime c) in
  put_frame df (setitem f date_col_name d) ;;;
  ret df.

(** The [if]/[elif] chain of [__load_moving_avg]: an unrecognised kind is
    a simple moving average. *)
Definition moving_average_kind (mov_avg : string) : TECHIND :=
  if String.eqb mov_avg "sma" then SMA
  else if String.eqb mov_avg "ema" then EMA
  else if String.eqb mov_avg "wma" then WMA
  else SMA.

Definition __load_moving_avg (stock : Ticker) (mov_avg : string)
    (time_period : Z) : M df_ref :=
  let ind := moving_average_kind mov_avg in
  let* ma_data := get_cached_tech_indicator ind stock (Some time_period) in
  let date_col_name := "date" in
  let* f := frame_of ma_data in
  let* c := lift (getitem f date_col_name) in
  let* d := lift (to_datetime c) in
  put_frame ma_data (setitem f date_col_name d) ;;;
  ret ma_data.

Definition len (l : list_ref) : M Z :=
  let* xs := list_of l in ret (Z.of_nat (length xs)).

Definition __update_meta_data (var column_names : list_ref) : M list_ref :=
  let* names := list_of column_names in
  if contains names "Date"
  then remove column_names "Date" ;;; ret var
  else
    (let* n := len column_names in
     for_each (range 0 n)
       (fun i =>
          let* names := list_of column_names in
          let* x := lift (item names i) in
          append var x)) ;;;
    ret var.

(** The shape shared by [proc_add_adx], [proc_add_obv] and
    [proc_add_rsi]: fetch, rename, convert, register, merge, optional
    change column, and a fill whose result is dropped. *)
Definition proc_add_adx (df : df_ref) (cont_vars : list_ref) (stock : Ticker)
    (change : bool) : M df_ref :=
  let* adx_data := get_cached_tech_indicator ADX stock None in
  let* adx_data := __rename_column adx_data "date" "Date" in
  convert_date adx_data "Date" ;;;
  append cont_vars "ADX" ;;;
  let* df_merge := pd_merge df adx_data "Date" in
  (if change then
     let col_name := "ADX_CHANGE" in
     let* xs := series df_merge "ADX" in
     assign df_merge col_name (pct_change xs) ;;;
     append cont_vars col_name
   else ret tt) ;;;
  fillna df_merge ;;;
  ret df_merge.

Definition proc_add_obv (df : df_ref) (cont_vars : list_ref) (stock : Ticker)
    (change : bool) : M df_ref :=
  let* obv_data := get_cached_tech_indicator OBV stock None in
  let* obv_data := __rename_column obv_data "date" "Date" in
  convert_date obv_data "Date" ;;;
  append cont_vars "OBV" ;;;
  let* df_merge := pd_merge df obv_data "Date" in
  (if change then
     let col_name := "OBV_CHANGE" in
     let* xs := series df_merge "OBV" in
     assign df_merge col_name (pct_change xs) ;;;
     append cont_vars col_name
   else ret tt) ;;;
  fillna df_merge ;;;
  ret df_merge.

Definition proc_add_mom (df : df_ref) (stock : Ticker) (cont_vars : list_ref)
    (change : bool) : M df_ref :=
  let* mom_data := get_cached_tech_indicator MOM stock None in
  let* mom_data := __rename_column mom_data "date" "Date" in
  convert_date mom_data "Date" ;;;
  let* df_merge := pd_merge df mom_data "Date" in
  append cont_vars "MOM" ;;;
  (if change then
     let col_name := "MOM-pct" in
     let* xs := series df_merge "MOM" in
     assign df_merge col_name (pct_change xs) ;;;
     append cont_vars col_name
   else ret tt) ;;;
  fillna df_merge ;;;
  ret df_merge.

Definition proc_add_rsi (df : df_ref) (cont_vars : list_ref) (stock : Ticker)
    (change : bool) : M df_ref :=
  let* rsi_data := get_cached_tech_indicator RSI stock None in
  let* rsi_data := __rename_column rsi_data "date" "Date" in
  convert_date rsi_data "Date" ;;;
  append cont_vars "RSI" ;;;
  let* df_merge := pd_merge df rsi_data "Date" in
  (if change then
     let col_name := "RSI_CHANGE" in
     let* xs := series df_merge "RSI" in
     assign df_merge col_name (pct_change xs) ;;;
     append cont_vars col_name
   else ret tt) ;;;
  fillna df_merge ;;;
  ret df_merge.

(** [df[a] - df[b]] *)
Definition difference (df : df_ref) (a b : string) : M (list float) :=
  let* xs := series df a in
  let* ys := series df b in
  ret (zip_with sub xs ys).

Definition ohcl : list string := ["Open"; "High"; "Low"; "Close"].

Definition proc_add_ohlc_avg (df : df_ref) (cont_vars : list_ref)
    (add_diff : bool) (diff_col : string) (add_ohlc_diff : bool) : M df_ref :=
  let col_name := "ohlc_avg" in
  let* o := series df "Open" in
  let* h := series df "High" in
  let* l := series df "Low" in
  let* c := series df "Close" in
  assign df col_name
    (map (fun x => div x (of_Z 4))
       (zip_with add (zip_with add (zip_with add o h) l) c)) ;;;
  append cont_vars col_name ;;;
  if add_diff then
    (let* d := difference df diff_col col_name in
     assign df (diff_col +:+ "_" +:+ col_name +:+ "_Diff") d) ;;;
    append cont_vars (diff_col +:+ "_" +:+ col_name +:+ "_Diff") ;;;
    ret df
  else if add_ohlc_diff then
    for_each ohcl
      (fun c_name =>
         (let* d := difference df c_name col_name in
          assign df (c_name +:+ "_" +:+ col_name +:+ "_Diff") d) ;;;
         append cont_vars (c_name +:+ "_" +:+ col_name +:+ "_Diff")) ;;;
    ret df
  else ret df.

(** [df.columns.values.tolist()] as a new list object. *)
Definition tolist (df : df_ref) : M list_ref :=
  let* cols := columns_of df in new_list cols.

Definition proc_add_bband (df : df_ref) (cont_vars : list_ref) (stock : Ticker)
    (merge_on : string) (add_diff_to_bb : bool) (diff_col : string)
    (add_ohlc_diff : bool) : M df_ref :=
  let* bb_data := get_cached_tech_indicator BBANDS stock None in
  let* bb_data := __rename_column bb_data "Real Upper Band" "BB_UP" in
  let* bb_data := __rename_column bb_data "Real Middle Band" "BB_MID" in
  let* bb_data := __rename_column bb_data "Real Lower Band" "BB_LOW" in
  let* bb_data := __rename_column bb_data "date" "Date" in
  convert_date bb_data "Date" ;;;
  let* names := tolist bb_data in
  let* cont_vars := __update_meta_data cont_vars names in
  (if DBG then pd_merge df bb_data "Date" ;;; ret tt else ret tt) ;;;
  if add_diff_to_bb then
    let* df_merge := pd_merge df bb_data merge_on in
    (let* d := difference df_merge diff_col "BB_UP" in
     assign df_merge "Close_BB_UP_Diff" d) ;;;
    append cont_vars "Close_BB_UP_Diff" ;;;
    (let* d := difference df_merge diff_col "BB_MID" in
     assign df_merge "Close_BB_MID_Diff" d) ;;;
    append cont_vars "Close_BB_MID_Diff" ;;;
    (let* d := difference df_merge diff_col "BB_LOW" in
     assign df_merge "Close_BB_LOW_Diff" d) ;;;
    append cont_vars "Close_BB_LOW_Diff" ;;;
    ret df_merge
  else if add_ohlc_diff then
    let* df_merge := pd_merge df bb_data merge_on in
    let* band_columns := columns_of bb_data in
    let* band_columns := lift (removed band_columns "Date") in
    for_each band_columns
      (fun b_name =>
         let col_name := b_name in
         for_each ohcl
           (fun c_name =>
              (let* d := difference df_merge c_name col_name in
               assign df_merge (c_name +:+ "_" +:+ col_name +:+ "_Diff") d) ;;;
              append cont_vars (c_name +:+ "_" +:+ col_name +:+ "_Diff"))) ;;;
    ret df_merge
  else pd_merge df bb_data merge_on.

Definition proc_add_macd (df : df_ref) (cont_vars : list_ref) (stock : Ticker)
    : M df_ref :=
  let* macd_data := get_cached_tech_indicator MACD stock None in
  let* macd_data := __rename_column macd_data "date" "Date" in
  convert_date macd_data "Date" ;;;
  let macd := "MACD" in
  let macd_sign := "MACD_Signal" in
  let macd_hist := "MACD_Hist" in
  append cont_vars macd ;;;
  append cont_vars macd_sign ;;;
  append cont_vars macd_hist ;;;
  let* df_merge := pd_merge df macd_data "Date" in
  let col_name := "MACD_SIGN_DIFF" in
  (let* d := difference df_merge macd macd_sign in
   assign df_merge col_name d) ;;;
  append cont_vars col_name ;;;
  let* macd_columns := columns_of macd_data in
  let* macd_columns := lift (removed macd_columns "Date") in
  for_each macd_columns
    (fun col =>
       let c_name := col +:+ "_Change" in
       let* xs := series df_merge col in
       assign df_merge c_name (pct_change xs) ;;;
       append cont_vars c_name) ;;;
  ret df_merge.

Definition proc_add_mov_avg (df : df_ref) (cont_vars : list_ref) (stock : Ticker)
    (mov_avg : string) (time_period : Z) (merge_on : string) (add_diff : bool)
    (diff_col : string) (add_ohlc_diff : bool) : M df_ref :=
  let* ma_data := __load_moving_avg stock mov_avg time_period in
  let* ma_data := __rename_column ma_data "date" "Date" in
  let col_name := upper mov_avg +:+ "_" +:+ str time_period in
  let* ma_data := __rename_column ma_data (upper mov_avg) col_name in
  append cont_vars col_name ;;;
  let chg_name := col_name +:+ "_CHANGE" in
  (let* xs := series ma_data col_name in
   assign ma_data chg_name (pct_change xs)) ;;;
  append cont_vars chg_name ;;;
  fillna ma_data ;;;
  if add_diff then
    let* df_merge := pd_merge df ma_data merge_on in
    (let* d := difference df_merge diff_col col_name in
     assign df_merge (diff_col +:+ "_" +:+ col_name +:+ "_Diff") d) ;;;
    append cont_vars (diff_col +:+ "_" +:+ col_name +:+ "_Diff") ;;;
    ret df_merge
  else if add_ohlc_diff then
    let* df_merge := pd_merge df ma_data merge_on in
    let col_name := upper mov_avg +:+ "_" +:+ str time_period in
    for_each ohcl
      (fun c_name =>
         (let* d := difference df_merge c_name col_name in
          assign df_merge (c_name +:+ "_" +:+ col_name +:+ "_Diff") d) ;;;
         append cont_vars (c_name +:+ "_" +:+ col_name +:+ "_Diff")) ;;;
    ret df_merge
  else pd_merge df ma_data merge_on.

Definition proc_add_wma60 (df : df_ref) (cont_vars : list_ref) (stock : Ticker)
    (add_diff : bool) (diff_col : string) (add_ohlc_diff : bool) : M df_ref :=
  proc_add_mov_avg df cont_vars stock "wma" 60 "Date" add_diff diff_col add_ohlc_diff.

Definition proc_add_wma5 (df : df_ref) (cont_vars : list_ref) (stock : Ticker)
    (add_diff : bool) (diff_col : string) (add_ohlc_diff : bool) : M df_ref :=
  proc_add_mov_avg df cont_vars stock "wma" 5 "Date" add_diff diff_col add_ohlc_diff.

Definition proc_add_wma20 (df : df_ref) (cont_vars : list_ref) (stock : Ticker)
    (add_diff : bool) (diff_col : string) (add_ohlc_diff : bool) : M df_ref :=
  proc_add_mov_avg df cont_vars stock "wma" 20 "Date" add_diff diff_col add_ohlc_diff.

Definition proc_add_ema30 (df : df_ref) (cont_vars : list_ref) (stock : Ticker)
    (add_diff : bool) (diff_col : string) (add_ohlc_diff : bool) : M df_ref :=
  proc_add_mov_avg df cont_vars stock "ema" 30 "Date" add_diff diff_col add_ohlc_diff.

Definition proc_add_ema10 (df : df_ref) (cont_vars : list_ref) (stock : Ticker)
    (add_diff : bool) (diff_col : string) (add_ohlc_diff : bool) : M df_ref :=
  proc_add_mov_avg df cont_vars stock "ema" 10 "Date" add_diff diff_col add_ohlc_diff.

Definition proc_add_sma20 (df : df_ref) (cont_vars : list_ref) (stock : Ticker)
    (add_diff : bool) (diff_col : string) (add_ohlc_diff : bool) : M df_ref :=
  proc_add_mov_avg df cont_vars stock "sma" 20 "Date" add_diff diff_col add_ohlc_diff.

Definition proc_add_sma200 (df : df_ref) (cont_vars : list_ref) (stock : Ticker)
    (add_diff : bool) (diff_col : string) (add_ohlc_diff : bool) : M df_ref :=
  proc_add_mov_avg df cont_vars stock "sma" 200 "Date" add_diff diff_col add_ohlc_diff.

(** The shape shared by the composite difference transforms: each of the
    two averages is built only when its column is missing from the columns
    read at entry, then [df[res_name] = df[a] - df[b]] is registered. *)
Definition proc_add_wma5_wma_20_diff (df : df_ref) (cont_vars : list_ref)
    (stock : Ticker) (add_diff add_ohlc_diff : bool) : M df_ref :=
  let wma5 := "WMA_5" in
  let wma20 := "WMA_20" in
  let res_name := "WMA_5_EMA_20_Diff" in
  let* columns := columns_of df in
  let* df :=
    (if negb (contains columns wma5)
     then proc_add_wma5 df cont_vars stock add_diff "Close" add_ohlc_diff
     else ret df) in
  let* df :=
    (if negb (contains columns wma20)
     then proc_add_wma20 df cont_vars stock add_diff "Close" add_ohlc_diff
     else ret df) in
  (let* d := difference df wma5 wma20 in assign df res_name d) ;;;
  append cont_vars res_name ;;;
  ret df.

Definition proc_add_wma20_wma_60_diff (df : df_ref) (cont_vars : list_ref)
    (stock : Ticker) (add_diff add_ohlc_diff : bool) : M df_ref :=
  let wma20 := "WMA_20" in
  let wma60 := "WMA_60" in
  let res_name := "WMA_20_EMA_60_Diff" in
  let* columns := columns_of df in
  let* df :=
    (if negb (contains columns wma20)
     then proc_add_wma20 df cont_vars stock add_diff "Close" add_ohlc_diff
     else ret df) in
  let* df :=
    (if negb (contains columns wma60)
     then proc_add_wma60 df cont_vars stock add_diff "Close" add_ohlc_diff
     else ret df) in
  (let* d := difference df wma20 wma60 in assign df res_name d) ;;;
  append cont_vars res_name ;;;
  ret df.

Definition proc_add_ema10_ema_30_diff (df : df_ref) (cont_vars : list_ref)
    (stock : Ticker) (add_diff add_ohlc_diff : bool) : M df_ref :=
  let ema10 := "EMA_10" in
  let ema30 := "EMA_30" in
  let res_name := "EMA_10_EMA_30_Diff" in
  let* columns := columns_of df in
  let* df :=
    (if negb (contains columns ema10)
     then proc_add_ema10 df cont_vars stock add_diff "Close" add_ohlc_diff
     else ret df) in
  let* df :=
    (if negb (contains columns ema30)
     then proc_add_ema30 df cont_vars stock add_diff "Close" add_ohlc_diff
     else ret df) in
  (let* d := difference df ema10 ema30 in assign df res_name d) ;;;
  append cont_vars res_name ;;;
  ret df.

Definition proc_add_sma20_sma_200_diff (df : df_ref) (cont_vars : list_ref)
    (stock : Ticker) (add_ohlc_diff : bool) : M df_ref :=
  let sma20 := "SMA_20" in
  let sma200 := "SMA_200" in
  let res_name := "SMA_200_SMA_20_Diff" in
  let* columns := columns_of df in
  let* df :=
    (if negb (contains columns sma20)
     then proc_add_sma20 df cont_vars stock false "Close" add_ohlc_diff
     else ret df) in
  let* df :=
    (if negb (contains columns sma200)
     then proc_add_sma200 df cont_vars stock false "Close" add_ohlc_diff
     else ret df) in
  (let* d := difference df sma20 sma200 in assign df res_name d) ;;;
  append cont_vars res_name ;;;
  ret df.

(** ** The pipeline: a call of one of its transforms *)

Module Pipeline.

Inductive call :=
| close_only (df : df_ref) (cont_vars : list_ref)
| add_datepart (df : df_ref) (cont_vars cat_vars : list_ref) (date_col_name : string)
| add_next_y (df : df_ref) (y_column : string) (number : Z) (cont_vars : list_ref)
| add_previous_values (df : df_ref) (column_name : string) (number : Z)
    (cont_vars : list_ref)
| add_percent_change (df : df_ref) (column_name : string) (cont_vars : list_ref)
| add_abs_percent_change (df : df_ref) (column_name : string) (cont_vars : list_ref)
| add_direction (df : df_ref) (column_name : string) (cat_vars cont_vars : list_ref)
    (noise_threshold : Q)
| add_volatility (df : df_ref) (column_name : string) (cont_vars : list_ref)
    (nr_days : Z)
| add_adx (df : df_ref) (cont_vars : list_ref) (stock : Ticker) (change : bool)
| add_obv (df : df_ref) (cont_vars : list_ref) (stock : Ticker) (change : bool)
| add_mom (df : df_ref) (stock : Ticker) (cont_vars : list_ref) (change : bool)
| add_rsi (df : df_ref) (cont_vars : list_ref) (stock : Ticker) (change : bool)
| add_ohlc_avg (df : df_ref) (cont_vars : list_ref) (add_diff : bool)
    (diff_col : string) (add_ohlc_diff : bool)
| add_bband (df : df_ref) (cont_vars : list_ref) (stock : Ticker)
    (merge_on : string) (add_diff_to_bb : bool) (diff_col : string)
    (add_ohlc_diff : bool)
| add_macd (df : df_ref) (cont_vars : list_ref) (stock : Ticker)
| add_wma5_wma_20_diff (df : df_ref) (cont_vars : list_ref) (stock : Ticker)
    (add_diff add_ohlc_diff : bool)
| add_wma20_wma_60_diff (df : df_ref) (cont_vars : list_ref) (stock : Ticker)
    (add_diff add_ohlc_diff : bool)
| add_wma60 (df : df_ref) (cont_vars : list_ref) (stock : Ticker)
    (add_diff : bool) (diff_col : string) (add_ohlc_diff : bool)
| add_wma5 (df : df_ref) (cont_vars : list_ref) (stock : Ticker)
    (add_diff : bool) (diff_col : string) (add_ohlc_diff : bool)
| add_wma20 (df : df_ref) (cont_vars : list_ref) (stock : Ticker)
    (add_diff : bool) (diff_col : string) (add_ohlc_diff : bool)
| add_ema10_ema_30_diff (df : df_ref) (cont_vars : list_ref) (stock : Ticker)
    (add_diff add_ohlc_diff : bool)
| add_ema30 (df : df_ref) (cont_vars : list_ref) (stock : Ticker)
    (add_diff : bool) (diff_col : string) (add_ohlc_diff : bool)
| add_ema10 (df : df_ref) (cont_vars : list_ref) (stock : Ticker)
    (add_diff : bool) (diff_col : string) (add_ohlc_diff : bool)
| add_sma20_sma_200_diff (df : df_ref) (cont_vars : list_ref) (stock : Ticker)
    (add_ohlc_diff : bool)
| add_sma20 (df : df_ref) (cont_vars : list_ref) (stock : Ticker)
    (add_diff : bool) (diff_col : string) (add_ohlc_diff : bool)
| add_sma200 (df : df_ref) (cont_vars : list_ref) (stock : Ticker)
    (add_diff : bool) (diff_col : string) (add_ohlc_diff : bool)
| add_mov_avg (df : df_ref) (cont_vars : list_ref) (stock : Ticker)
    (mov_avg : string) (time_period : Z) (merge_on : string) (add_diff : bool)
    (diff_col : string) (add_ohlc_diff : bool).

(** The value a call returns, when it returns a table. *)
Definition returning (m : M df_ref) : M (option df_ref) :=
  let* r := m in ret (Some r).

Definition run (c : call) : M (option df_ref) :=
  match c with
  | close_only df cv => returning (proc_close_only df cv)
  | add_datepart df cv cat d => proc_add_datepart df cv cat d ;;; ret None
  | add_next_y df y n cv => returning (proc_add_next_y df y n cv)
  | add_previous_values df c n cv => returning (proc_add_previous_values df c n cv)
  | add_percent_change df c cv => returning (proc_add_percent_change df c cv)
  | add_abs_percent_change df c cv => returning (proc_add_abs_percent_change df c cv)
  | add_direction df c cat cv nt => returning (proc_add_direction df c cat cv nt)
  | add_volatility df c cv n => returning (proc_add_volatility df c cv n)
  | add_adx df cv st ch => returning (proc_add_adx df cv st ch)
  | add_obv df cv st ch => returning (proc_add_obv df cv st ch)
  | add_mom df st cv ch => returning (proc_add_mom df st cv ch)
  | add_rsi df cv st ch => returning (proc_add_rsi df cv st ch)
  | add_ohlc_avg df cv a d o => returning (proc_add_ohlc_avg df cv a d o)
  | add_bband df cv st m a d o => returning (proc_add_bband df cv st m a d o)
  | add_macd df cv st => returning (proc_add_macd df cv st)
  | add_wma5_wma_20_diff df cv st a o =>
      returning (proc_add_wma5_wma_20_diff df cv st a o)
  | add_wma20_wma_60_diff df cv st a o =>
      returning (proc_add_wma20_wma_60_diff df cv st a o)
  | add_wma60 df cv st a d o => returning (proc_add_wma60 df cv st a d o)
  | add_wma5 df cv st a d o => returning (proc_add_wma5 df cv st a d o)
  | add_wma20 df cv st a d o => returning (proc_add_wma20 df cv st a d o)
  | add_ema10_ema_30_diff df cv st a o =>
      returning (proc_add_ema10_ema_30_diff df cv st a o)
  | add_ema30 df cv st a d o => returning (proc_add_ema30 df cv st a d o)
  | add_ema10 df cv st a d o => returning (proc_add_ema10 df cv st a d o)
  | add_sma20_sma_200_diff df cv st o =>
      returning (proc_add_sma20_sma_200_diff df cv st o)
  | add_sma20 df cv st a d o => returning (proc_add_sma20 df cv st a d o)
  | add_sma200 df cv st a d o => returning (proc_add_sma200 df cv st a d o)
  | add_mov_avg df cv st ma tp m a d o =>
      returning (proc_add_mov_avg df cv st ma tp m a d o)
  end.

(** The request a transform that fetches indicator data opens with. *)
Definition fetch_of (c : call) : option (TECHIND * Ticker * option Z) :=
  match c with
  | add_adx _ _ st _ => Some (ADX, st, None)
  | add_obv _ _ st _ => Some (OBV, st, None)
  | add_mom _ st _ _ => Some (MOM, st, None)
  | add_rsi _ _ st _ => Some (RSI, st, None)
  | add_bband _ _ st _ _ _ _ => Some (BBANDS, st, None)
  | add_macd _ _ st => Some (MACD, st, None)
  | add_mov_avg _ _ st ma tp _ _ _ _ => Some (moving_average_kind ma, st, Some tp)
  | _ => None
  end.

End Pipeline.

(** A cache that holds nothing. *)
Definition empty_cache (i : TECHIND) (t : Ticker) (p : option Z) : result DataFrame :=
  inl (CacheError "no data").

(** ** [proc_add_direction] row by row *)

(** The thresholds [proc_add_direction] computes from the percentage
    changes, in the order of the source. *)
Record thresholds := Thresholds {
  lowest_ten_quantile : float;
  bottom_quantile : float;
  top_quantile : float;
  top_fifteen_quantile : float;
  top_five_quantile : float;
  min_positive_pct : float;
  min_negative_pct : float
}.

Definition thresholds_of (pct : list float) (noise_threshold : Q) : result thresholds :=
  match quantile pct (10 # 100), quantile pct (25 # 100), quantile pct (75 # 100),
        quantile pct (85 # 100), quantile pct (95 # 100) with
  | inr p10, inr p25, inr p75, inr p85, inr p95 =>
      match quantile (select (gt_scalar pct (of_Z 0)) pct) noise_threshold with
      | inl e => inl e
      | inr pos =>
          match quantile (select (lt_scalar pct (of_Z 0)) pct) (1 - noise_threshold) with
          | inl e => inl e
          | inr neg => inr (Thresholds p10 p25 p75 p85 p95 pos neg)
          end
      end
  | _, _, _, _, _ => inl (ValueError "quantile")
  end.

(** The eight range assignments, in the written order: the condition on
    the row's percentage change and the label it assigns. *)
Definition rules (t : thresholds) : list ((float -> bool) * Z) :=
  [ (fun v => lt v (lowest_ten_quantile t), (-7)%Z);
    (fun v => lt v (bottom_quantile t) && gt v (lowest_ten_quantile t), (-3)%Z);
    (fun v => lt v (min_negative_pct t) && gt v (bottom_quantile t), (-1)%Z);
    (fun v => gt v (min_negative_pct t) && lt v (min_positive_pct t), 0%Z);
    (fun v => gt v (min_positive_pct t) && lt v (top_quantile t), 1%Z);
    (fun v => gt v (top_quantile t) && lt v (top_fifteen_quantile t), 3%Z);
    (fun v => gt v (top_fifteen_quantile t) && lt v (top_five_quantile t), 5%Z);
    (fun v => gt v (top_five_quantile t), 7%Z) ].

(** The label of a row after the eight assignments: each assignment that
    matches overwrites what was there. *)
Definition relabel (t : thresholds) (v : float) (old : float) : float :=
  fold_left (fun acc (r : (float -> bool) * Z) => if fst r v then of_Z (snd r) else acc)
    (rules t) old.

(** The table after the eight assignments. *)
Definition label_frame (f : DataFrame) (pct : list float) (t : thresholds)
    (name : string) : DataFrame :=
  fold_left (fun g (r : (float -> bool) * Z) =>
               loc_set g (map (fst r) pct) name (of_Z (snd r)))
    (rules t) f.

(** The direction column before the assignments: the one the table has,
    or NaN in every row. *)
Definition labels_before (f : DataFrame) (name : string) (n : nat) : list float :=
  match get f name with
  | Some c => values c
  | None => replicate n NaN
  end.

(** ** Example tables *)

Definition finite (zs : list Z) : list float := map of_Z zs.



(** Three losses and eight gains. *)
Definition mixed_pct : list float :=
  finite [-3; -2; -1; 1; 2; 3; 4; 5; 6; 7; 8]%Z.

(** A store with one table, holding the given percentage changes of
    "Close", and two empty metadata lists: [cont_vars] at 0 and
    [cat_vars] at 1. *)
Definition pct_store (pct : list float) : store :=
  Store [[("Close-pct", Floats pct)]] [[]; []] empty_cache.

(** ** The inner join on dates *)

(** The two tables share no column name but the key, so the join adds no
    [_x]/[_y] suffix. *)
Definition shares_only_key (left right : DataFrame) (on : string) : bool :=
  forallb (fun n => String.eqb n on || negb (has_column right n)) (columns left).

(** The dates of [dl] that occur in [dr], in the order of [dl]. *)
Definition common_dates (dl dr : list Z) : list Z :=
  List.filter (fun d => existsb (Z.eqb d) dr) dl.

(** The named columns exist and hold numbers. *)
Definition numeric (df : DataFrame) (names : list string) : bool :=
  forallb (fun n => match get df n with Some (Floats _) => true | _ => false end) names.

(** A merged table with its optional change column, as the single
    indicator transforms build it. *)
Definition with_change (change : bool) (m : DataFrame) (col chg : string) : DataFrame :=
  if change
  then match get m col with
       | Some (Floats xs) => setitem m chg (Floats (pct_change xs))
       | _ => m
       end
  else m.

(** The column [proc_add_mov_avg] builds: [mov_avg.upper() + "_" +
    str(time_period)]. *)
Definition moving_average_column (mov_avg : string) (time_period : Z) : string :=
  upper mov_avg +:+ "_" +:+ str time_period.

(** The moving-average table as [proc_add_mov_avg] joins it: date and
    average columns renamed, the percentage change of the average added. *)
Definition moving_average_table (t : DataFrame) (mov_avg : string)
    (time_period : Z) : DataFrame :=
  let col_name := moving_average_column mov_avg time_period in
  let p := rename (rename t "date" "Date") (upper mov_avg) col_name in
  match get p col_name with
  | Some (Floats xs) => setitem p (col_name +:+ "_CHANGE") (Floats (pct_change xs))
  | _ => p
  end.

(** The names a difference option registers. *)
Definition diff_names (add_diff : bool) (diff_col : string) (add_ohlc_diff : bool)
    (col_name : string) : list string :=
  if add_diff then [diff_col +:+ "_" +:+ col_name +:+ "_Diff"]
  else if add_ohlc_diff
       then map (fun c_name => c_name +:+ "_" +:+ col_name +:+ "_Diff") ohcl
       else [].

Fixpoint last_char (s : string) : option Ascii.ascii :=
  match s with
  | EmptyString => None
  | String c EmptyString => Some c
  | String _ r => last_char r
  end.

(** ** Indicator transforms: what they join *)

Module Indicators.

Import Pipeline.

(** The table and the continuous-metadata list a call works on. *)
Definition table_of (c : call) : nat :=
  match c with
  | close_only df _ | add_datepart df _ _ _ | add_next_y df _ _ _
  | add_previous_values df _ _ _ | add_percent_change df _ _
  | add_abs_percent_change df _ _ | add_direction df _ _ _ _
  | add_volatility df _ _ _ | add_adx df _ _ _ | add_obv df _ _ _
  | add_mom df _ _ _ | add_rsi df _ _ _ | add_ohlc_avg df _ _ _ _
  | add_bband df _ _ _ _ _ _ | add_macd df _ _
  | add_wma5_wma_20_diff df _ _ _ _ | add_wma20_wma_60_diff df _ _ _ _
  | add_wma60 df _ _ _ _ _ | add_wma5 df _ _ _ _ _ | add_wma20 df _ _ _ _ _
  | add_ema10_ema_30_diff df _ _ _ _ | add_ema30 df _ _ _ _ _
  | add_ema10 df _ _ _ _ _ | add_sma20_sma_200_diff df _ _ _
  | add_sma20 df _ _ _ _ _ | add_sma200 df _ _ _ _ _
  | add_mov_avg df _ _ _ _ _ _ _ _ => df
  end.

Definition cont_vars_of (c : call) : nat :=
  match c with
  | close_only _ cv | add_datepart _ cv _ _ | add_next_y _ _ _ cv
  | add_previous_values _ _ _ cv | add_percent_change _ _ cv
  | add_abs_percent_change _ _ cv | add_direction _ _ _ cv _
  | add_volatility _ _ cv _ | add_adx _ cv _ _ | add_obv _ cv _ _
  | add_mom _ _ cv _ | add_rsi _ cv _ _ | add_ohlc_avg _ cv _ _ _
  | add_bband _ cv _ _ _ _ _ | add_macd _ cv _
  | add_wma5_wma_20_diff _ cv _ _ _ | add_wma20_wma_60_diff _ cv _ _ _
  | add_wma60 _ cv _ _ _ _ | add_wma5 _ cv _ _ _ _ | add_wma20 _ cv _ _ _ _
  | add_ema10_ema_30_diff _ cv _ _ _ | add_ema30 _ cv _ _ _ _
  | add_ema10 _ cv _ _ _ _ | add_sma20_sma_200_diff _ cv _ _
  | add_sma20 _ cv _ _ _ _ | add_sma200 _ cv _ _ _ _
  | add_mov_avg _ cv _ _ _ _ _ _ _ => cv
  end.

(** The fetched table [t] as the transform hands it to [pd.merge]. *)
Definition prepared (c : call) (t : DataFrame) : DataFrame :=
  match c with
  | add_bband _ _ _ _ _ _ _ =>
      rename (rename (rename (rename t "Real Upper Band" "BB_UP")
                        "Real Middle Band" "BB_MID")
                "Real Lower Band" "BB_LOW") "date" "Date"
  | add_mov_avg _ _ _ mov_avg time_period _ _ _ _ =>
      moving_average_table t mov_avg time_period
  | _ => rename t "date" "Date"
  end.

(** What the rest of the transform needs besides the dates: the join is
    on "Date", the indicator table has the columns of its kind (spec,
    section 6) as numbers, and the price table has the numeric columns
    the difference options read. *)
Definition ready (c : call) (t f : DataFrame) : bool :=
  let p := prepared c t in
  match c with
  | add_adx _ _ _ _ => numeric p ["ADX"]
  | add_obv _ _ _ _ => numeric p ["OBV"]
  | add_mom _ _ _ _ => numeric p ["MOM"]
  | add_rsi _ _ _ _ => numeric p ["RSI"]
  | add_macd _ _ _ =>
      bool_decide (columns p = ["Date"; "MACD"; "MACD_Signal"; "MACD_Hist"])
      && numeric p ["MACD"; "MACD_Signal"; "MACD_Hist"]
  | add_bband _ _ _ merge_on _ diff_col _ =>
      String.eqb merge_on "Date"
      && bool_decide (columns p = ["Date"; "BB_UP"; "BB_MID"; "BB_LOW"])
      && numeric p ["BB_UP"; "BB_MID"; "BB_LOW"]
      && numeric f (diff_col :: ohcl)
  | add_mov_avg _ _ _ mov_avg time_period merge_on _ diff_col _ =>
      String.eqb merge_on "Date"
      && match get t "date", get p "Date" with
         | Some (Dates a), Some (Dates b) => bool_decide (a = b)
         | _, _ => false
         end
      && numeric p [moving_average_column mov_avg time_period]
      && numeric f (diff_col :: ohcl)
  | _ => false
  end.

(** The columns of the fetched table but "Date", as [proc_add_macd] and
    [proc_add_bband] loop over them. *)
Definition indicator_names (p : DataFrame) : list string :=
  match removed (columns p) "Date" with
  | inr cols => cols
  | inl _ => []
  end.

(** The columns a transform writes into the joined table after the
    join: every other column of the table it returns is the join's. *)
Definition written_after_join (c : call) (t : DataFrame) : list string :=
  match c with
  | add_adx _ _ _ true => ["ADX_CHANGE"]
  | add_obv _ _ _ true => ["OBV_CHANGE"]
  | add_mom _ _ _ true => ["MOM-pct"]
  | add_rsi _ _ _ true => ["RSI_CHANGE"]
  | add_macd _ _ _ =>
      "MACD_SIGN_DIFF"
      :: map (fun col => col +:+ "_Change") (indicator_names (prepared c t))
  | add_bband _ _ _ _ add_diff_to_bb _ add_ohlc_diff =>
      if add_diff_to_bb
      then ["Close_BB_UP_Diff"; "Close_BB_MID_Diff"; "Close_BB_LOW_Diff"]
      else if add_ohlc_diff
           then flat_map
                  (fun b => map (fun c_name => c_name +:+ "_" +:+ b +:+ "_Diff") ohcl)
                  (indicator_names (prepared c t))
           else []
  | add_mov_avg _ _ _ mov_avg time_period _ add_diff diff_col add_ohlc_diff =>
      diff_names add_diff diff_col add_ohlc_diff
        (moving_average_column mov_avg time_period)
  | _ => []
  end.

(** The change column of a transform that derives one. *)
Definition change_column (c : call) : option string :=
  match c with
  | add_adx _ _ _ true => Some "ADX_CHANGE"
  | add_obv _ _ _ true => Some "OBV_CHANGE"
  | add_mom _ _ _ true => Some "MOM-pct"
  | add_rsi _ _ _ true => Some "RSI_CHANGE"
  | add_mov_avg _ _ _ mov_avg time_period _ _ _ _ =>
      Some (moving_average_column mov_avg time_period +:+ "_CHANGE")
  | _ => None
  end.

End Indicators.

(** ** Example tables *)

(** Three days of prices and three days of ADX values, overlapping on two
    days. *)
Definition three_days : DataFrame :=
  [("Date", Dates [1; 2; 3]%Z);
   ("Open", Floats (finite [10; 11; 12]%Z));
   ("High", Floats (finite [12; 13; 14]%Z));
   ("Low", Floats (finite [9; 10; 11]%Z));
   ("Close", Floats (finite [11; 12; 13]%Z))].

Definition three_days_adx : DataFrame :=
  [("date", Dates [2; 3; 4]%Z); ("ADX", Floats (finite [20; 25; 30]%Z))].

Definition three_days_wma : DataFrame :=
  [("date", Dates [2; 3; 4]%Z); ("WMA", Floats (finite [20; 25; 30]%Z))].

(** A store with the price table at reference 0, an empty list at
    reference 0, and a cache that answers every request with [t]. *)
Definition indicator_store (t : DataFrame) : store :=
  Store [three_days] [[]] (fun _ _ _ => inr t).

(** Two days of prices, and a moving average whose history starts a day
    before them. *)
Definition two_days : DataFrame :=
  [("Date", Dates [2; 3]%Z);
   ("Open", Floats (finite [11; 12]%Z));
   ("High", Floats (finite [13; 14]%Z));
   ("Low", Floats (finite [10; 11]%Z));
   ("Close", Floats (finite [12; 13]%Z))].

Definition early_wma : DataFrame :=
  [("date", Dates [1; 2; 3]%Z); ("WMA", Floats (finite [20; 25; 30]%Z))].

(** ** What a call does to the metadata lists *)

Module Metadata.

Import Pipeline Indicators.

(** [L'] holds every list of [L] below [n], with entries added at its
    end only, and no list object is lost. *)
Definition grows (n : nat) (L L' : list (list string)) : Prop :=
  length L <= length L'
  /\ forall l xs, l < n -> L !! l = Some xs -> exists ys, L' !! l = Some (xs ++ ys).

(** A computation that, however it ends, only appends to the lists
    below [n]. *)
Definition keeps {A} (n : nat) (m : M A) : Prop :=
  forall s, n <= length (lists s) -> grows n (lists s) (lists (final (m s))).

(** A computation that touches tables only. *)
Definition frame_op {A} (m : M A) : Prop :=
  forall s, lists (final (m s)) = lists s /\ cache (final (m s)) = cache s.

(** A computation that changes nothing. *)
Definition reader {A} (m : M A) : Prop := forall s, final (m s) = s.

(** [l.append(x)] on the lists of a store, and a sequence of them. *)
Definition push (l : list_ref) (x : string) (L : list (list string))
    : list (list string) :=
  <[l := default [] (L !! l) ++ [x]]> L.

Definition replay (log : list (list_ref * string)) (L : list (list string))
    : list (list string) :=
  fold_left (fun L e => push (fst e) (snd e) L) log L.

(** The names a sequence of appends adds to the list [l]. *)
Definition names_at (l : list_ref) (log : list (list_ref * string)) : list string :=
  map snd (List.filter (fun e => Nat.eqb (fst e) l) log).

(** What holds of the result and the store when [m] returns. *)
Definition wp {A} (m : M A) (s : store) (P : A -> store -> Prop) : Prop :=
  match m s with
  | Return a s' => P a s'
  | Raise _ _ => True
  end.

(** A computation that, when it returns, has appended [log] and left the
    cache alone. *)
Definition writes {A} (m : M A) (log : list (list_ref * string)) : Prop :=
  forall s, wp m s (fun _ s' => lists s' = replay log (lists s) /\ cache s' = cache s).

(** ** The names a returning call registers *)


Definition frame_at (s : store) (df : df_ref) : DataFrame :=
  default [] (frames s !! df).

(** The columns of the fetched table, but "Date", as [proc_add_macd] and
    [proc_add_bband] read them from the table they join. *)
Definition indicator_columns (c : call) (s : store) : list string :=
  match fetch_of c with
  | Some (kind, stock, period) =>
      match cache s kind stock period with
      | inr t =>
          match removed (columns (prepared c t)) "Date" with
          | inr cols => cols
          | inl _ => []
          end
      | inl _ => []
      end
  | None => []
  end.

Definition single_log (cv : list_ref) (name chg : string) (change : bool)
    : list (list_ref * string) :=
  map (pair cv) (name :: if change then [chg] else []).

Definition moving_average_log (cv : list_ref) (mov_avg : string) (time_period : Z)
    (add_diff : bool) (diff_col : string) (add_ohlc_diff : bool)
    : list (list_ref * string) :=
  let col_name := moving_average_column mov_avg time_period in
  map (pair cv)
    ([col_name; col_name +:+ "_CHANGE"]
     ++ diff_names add_diff diff_col add_ohlc_diff col_name).

(** The composite transforms build an average only when its column is
    missing from the table. *)
Definition composite_log (s : store) (df : df_ref) (cv : list_ref)
    (a b res : string) (la lb : list (list_ref * string))
    : list (list_ref * string) :=
  let cols := columns (frame_at s df) in
  (if contains cols a then [] else la)
  ++ (if contains cols b then [] else lb)
  ++ [(cv, res)].

(** The appends of a call that returns, in order, read off the source:
    each is a list and the name appended to it. *)
Definition log_of (c : call) (s : store) : list (list_ref * string) :=
  match c with
  | close_only _ cv => [(cv, "Close")]
  | add_datepart df cv cat _ =>
      let cols := columns (frame_at s df) in
      (cv, "Elapsed")
      :: match index cols "Year", index cols "Is_year_end" with
         | inr a, inr b =>
             flat_map (fun i => match item cols i with
                                | inr x => [(cat, x)]
                                | inl _ => []
                                end) (range a b)
         | _, _ => []
         end
  | add_next_y _ _ _ cv => [(cv, "y")]
  | add_previous_values _ col n cv =>
      flat_map (fun k => [(cv, col +:+ "-" +:+ str k)]) (range 1 (n + 1))
  | add_percent_change _ col cv => [(cv, col +:+ "-pct")]
  | add_abs_percent_change _ col cv => [(cv, col +:+ "-abs-pct")]
  | add_direction df col cat cv _ =>
      (if contains (columns (frame_at s df)) (col +:+ "-pct")
       then [] else [(cv, col +:+ "-pct")])
      ++ [(cat, col +:+ "-direction")]
  | add_volatility _ col cv _ => [(cv, col +:+ "-volatility")]
  | add_adx _ cv _ ch => single_log cv "ADX" "ADX_CHANGE" ch
  | add_obv _ cv _ ch => single_log cv "OBV" "OBV_CHANGE" ch
  | add_mom _ _ cv ch => single_log cv "MOM" "MOM-pct" ch
  | add_rsi _ cv _ ch => single_log cv "RSI" "RSI_CHANGE" ch
  | add_ohlc_avg _ cv a d o => map (pair cv) ("ohlc_avg" :: diff_names a d o "ohlc_avg")
  | add_bband _ cv _ _ a _ o =>
      if a
      then map (pair cv) ["Close_BB_UP_Diff"; "Close_BB_MID_Diff"; "Close_BB_LOW_Diff"]
      else if o
           then flat_map
                  (fun b => flat_map
                              (fun c_name => [(cv, c_name +:+ "_" +:+ b +:+ "_Diff")])
                              ohcl)
                  (indicator_columns c s)
           else []
  | add_macd _ cv _ =>
      map (pair cv) ["MACD"; "MACD_Signal"; "MACD_Hist"; "MACD_SIGN_DIFF"]
      ++ flat_map (fun col => [(cv, col +:+ "_Change")]) (indicator_columns c s)
  | add_wma5_wma_20_diff df cv _ a o =>
      composite_log s df cv "WMA_5" "WMA_20" "WMA_5_EMA_20_Diff"
        (moving_average_log cv "wma" 5 a "Close" o)
        (moving_average_log cv "wma" 20 a "Close" o)
  | add_wma20_wma_60_diff df cv _ a o =>
      composite_log s df cv "WMA_20" "WMA_60" "WMA_20_EMA_60_Diff"
        (moving_average_log cv "wma" 20 a "Close" o)
        (moving_average_log cv "wma" 60 a "Close" o)
  | add_ema10_ema_30_diff df cv _ a o =>
      composite_log s df cv "EMA_10" "EMA_30" "EMA_10_EMA_30_Diff"
        (moving_average_log cv "ema" 10 a "Close" o)
        (moving_average_log cv "ema" 30 a "Close" o)
  | add_sma20_sma_200_diff df cv _ o =>
      composite_log s df cv "SMA_20" "SMA_200" "SMA_200_SMA_20_Diff"
        (moving_average_log cv "sma" 20 false "Close" o)
        (moving_average_log cv "sma" 200 false "Close" o)
  | add_wma60 _ cv _ a d o => moving_average_log cv "wma" 60 a d o
  | add_wma5 _ cv _ a d o => moving_average_log cv "wma" 5 a d o
  | add_wma20 _ cv _ a d o => moving_average_log cv "wma" 20 a d o
  | add_ema30 _ cv _ a d o => moving_average_log cv "ema" 30 a d o
  | add_ema10 _ cv _ a d o => moving_average_log cv "ema" 10 a d o
  | add_sma20 _ cv _ a d o => moving_average_log cv "sma" 20 a d o
  | add_sma200 _ cv _ a d o => moving_average_log cv "sma" 200 a d o
  | add_mov_avg _ cv _ ma tp _ a d o => moving_average_log cv ma tp a d o
  end.

(** [proc_add_direction] meets a table that already has the
    percentage-change column; every other call is settled from the
    start. *)
Definition settled (c : call) (s : store) : bool :=
  match c with
  | add_direction df col _ _ _ =>
      contains (columns (frame_at s df)) (col +:+ "-pct")
  | _ => true
  end.

(** What a returning call leaves: its appends on the lists it met (the
    lists it made itself come after them), the cache as it was, a settled
    table, and the same appends for a next call when the table was
    settled from the start. *)
Definition registered (c : call) (s s' : store) : Prop :=
  (exists T, lists s' = replay (log_of c s) (lists s ++ T))
  /\ cache s' = cache s
  /\ settled c s' = true
  /\ (settled c s = true -> log_of c s' = log_of c s).

(** A property of the store that a computation keeps, however it ends. *)
Definition invariant {A} (I : store -> Prop) (m : M A) : Prop :=
  forall s, I s -> I (final (m s)).

(** The table behind [df] has the column [x]. *)
Definition column_present (df : df_ref) (x : string) (s : store) : Prop :=
  contains (columns (frame_at s df)) x = true.

(** The price table of three days with two empty metadata lists:
    [cont_vars] at reference 0 and [cat_vars] at reference 1. *)
Definition three_days_store : store :=
  Store [three_days] [[]; []] empty_cache.

End Metadata.

(** ** More example tables *)

Definition three_days_macd : DataFrame :=
  [("date", Dates [2; 3; 4]%Z);
   ("MACD", Floats (finite [4; 6; 9]%Z));
   ("MACD_Signal", Floats (finite [3; 4; 6]%Z));
   ("MACD_Hist", Floats (finite [1; 2; 3]%Z))].

Definition three_days_sma : DataFrame :=
  [("date", Dates [2; 3; 4]%Z); ("SMA", Floats (finite [20; 25; 30]%Z))].

(** A cache that holds the simple moving average only. *)
Definition sma_cache (i : TECHIND) (t : Ticker) (p : option Z) : result DataFrame :=
  match i with
  | SMA => inr three_days_sma
  | _ => inl (CacheError "no data")
  end.

(** A name made of ASCII characters, on which [upper] is [str.upper]. *)
Definition is_ascii (s : string) : bool :=
  forallb (fun c => Nat.ltb (Ascii.nat_of_ascii c) 128) (list_ascii_of_string s).

Definition three_days_bbands : DataFrame :=
  [("date", Dates [2; 3; 4]%Z);
   ("Real Upper Band", Floats (finite [15; 16; 17]%Z));
   ("Real Middle Band", Floats (finite [12; 13; 14]%Z));
   ("Real Lower Band", Floats (finite [9; 10; 11]%Z))].

(** ** The utilities of [Procs.py] *)

Module Utilities.

(** [X[a:b]] on a column and on a table: the rows from [a] up to, not
    including, [b]. *)
Definition slice_column (a b : nat) (c : column) : column :=
  match c with
  | Floats xs => Floats (take (b - a) (skipn a xs))
  | Dates ds => Dates (take (b - a) (skipn a ds))
  end.

Definition slice (a b : nat) (df : DataFrame) : DataFrame :=
  map (fun nc => (fst nc, slice_column a b (snd nc))) df.

(** [int(x)]: truncation towards zero. *)
Definition int (x : Q) : Z := Z.quot (Qnum x) (Zpos (Qden x)).

(** The failure of an [assert]. *)
Inductive assertion := AssertionError.

(** [split_data]: the two slices are new tables, the table itself is
    only read; what it prints is not part of the model.  The product
    [len(X) * split_ratio] is the exact one here; Python rounds it to
    the nearest binary64 before [int] truncates it. *)
Definition split_data (df : DataFrame) (split_ratio : Q)
    : assertion + (DataFrame * DataFrame) :=
  if negb (Qle_bool split_ratio 1) then inl AssertionError
  else if negb (Qlt_bool 0 split_ratio) then inl AssertionError
  else
    let X := df in
    let train_size := Z.to_nat (int (inject_Z (Z.of_nat (nrows X)) * split_ratio)) in
    inr (slice 0 train_size X, slice train_size (nrows X) X).

Definition rename_data (data : df_ref) (crypto : bool) : M df_ref :=
  let* data := __rename_column data "date" "Date" in
  let* data := __rename_column data "1. open" "Open" in
  let* data := __rename_column data "2. high" "High" in
  let* data := __rename_column data "3. low" "Low" in
  let* data := __rename_column data "4. close" "Close" in
  let* data := __rename_column data "5. volume" "Volume" in
  let* data :=
    (if crypto
     then __rename_column data "6. market cap (USD)" "Market Cap"
     else ret data) in
  ret data.

(** The name [rename_data] gives a column of the raw download. *)
Definition tidy_name (crypto : bool) (n : string) : string :=
  if String.eqb n "date" then "Date"
  else if String.eqb n "1. open" then "Open"
  else if String.eqb n "2. high" then "High"
  else if String.eqb n "3. low" then "Low"
  else if String.eqb n "4. close" then "Close"
  else if String.eqb n "5. volume" then "Volume"
  else if crypto && String.eqb n "6. market cap (USD)" then "Market Cap"
  else n.

(** The table [proc_add_previous_values] builds from [df]: one lagged
    column of [xs] for each [k] of [ks], in that order. *)
Definition lagged (col : string) (xs : list float) (ks : list Z) (df : DataFrame)
    : DataFrame :=
  fold_left (fun g k => setitem g (col +:+ "-" +:+ str k) (Floats (shift k xs))) ks df.

End Utilities.

(** * Properties *)

(** ** Facts about the float model *)

Section FloatFacts.

Lemma Qlt_bool_iff x y : Qlt_bool x y = true <-> (x < y)%Q.
Proof.
  unfold Qlt_bool. rewrite negb_true_iff.
  split.
  - intros H. apply Qnot_le_lt. intros Hle.
    apply Qle_bool_iff in Hle. congruence.
  - intros H. destruct (Qle_bool y x) eqn:E; [|reflexivity].
    apply Qle_bool_iff in E. exfalso. exact (Qlt_not_le _ _ H E).
Qed.


Lemma lt_Some x y : lt (fin x) (fin y) = true <-> (x < y)%Q.
Proof. apply Qlt_bool_iff. Qed.

Lemma lt_NaN_l b : lt NaN b = false.
Proof. reflexivity. Qed.

Lemma lt_NaN_r a : lt a NaN = false.
Proof. destruct a; reflexivity. Qed.

Lemma lt_inv a b :
  lt a b = true -> is_finite a = true -> is_finite b = true ->
  exists x y, a = fin x /\ b = fin y /\ (x < y)%Q.
Proof.
  destruct a as [[x|s]|], b as [[y|t]|]; simpl; try discriminate.
  intros H _ _. exists x, y. rewrite <- Qlt_bool_iff. auto.
Qed.

Lemma is_finite_inv a : is_finite a = true -> exists x, a = fin x.
Proof. destruct a as [[x|s]|]; try discriminate. eauto. Qed.

Lemma Qred_zero q : (q == 0)%Q -> Qred q = 0%Q.
Proof. intros H. apply Qred_complete in H. exact H. Qed.


End FloatFacts.

(** ** OnlineVariance (spec 4.1, 8) *)

Section OnlineVarianceFacts.

Import OnlineVariance.

Lemma count_include_all xs ov :
  count (include_all ov xs) = (count ov + Z.of_nat (length xs))%Z.
Proof.
  unfold include_all. revert ov.
  induction xs as [|x xs IH]; intros ov; simpl.
  - lia.
  - rewrite IH. simpl. lia.
Qed.

Lemma inject_Z_succ_nonzero c : (0 <= c)%Z -> Qeq_bool (inject_Z (c + 1)) 0 = false.
Proof.
  intros Hc. destruct (Qeq_bool (inject_Z (c + 1)) 0) eqn:E; [|reflexivity].
  apply Qeq_bool_eq in E. unfold Qeq in E. simpl in E. lia.
Qed.

Lemma settled_include x ov : settled x ov -> settled x (include ov (fin x)).
Proof.
  intros (m & Hm & Hs & Hc & Hx).
  unfold include. rewrite Hm, Hs. unfold fin, of_Z.
  cbn [sub sub_num lift2 div div_num add add_num mul mul_num].
  rewrite (inject_Z_succ_nonzero _ Hc). cbn [add add_num lift2 mul mul_num sub sub_num].
  set (d := Qred (x - m)).
  set (m' := Qred (m + Qred (d / inject_Z (count ov + 1)))).
  assert (Hd : (d == x - m)%Q) by apply Qred_correct.
  assert (Hnz : ~ (inject_Z (count ov + 1) == 0)%Q).
  { unfold Qeq. simpl. lia. }
  assert (Hm' : (m' == x)%Q).
  { unfold m'. rewrite !Qred_correct, Hd.
    destruct Hx as [H0 | Hx].
    - rewrite H0. change (inject_Z (0 + 1)) with 1%Q. field.
    - rewrite Hx. field. exact Hnz. }
  exists m'. cbn [count mean sumSquaredDeltas]. repeat split.
  - unfold fin. do 2 f_equal. apply Qred_zero. rewrite !Qred_correct, Hm'. ring.
  - lia.
  - right. exact Hm'.
Qed.

Lemma settled_init x : settled x init.
Proof.
  exists 0%Q. cbn. repeat split; [lia | now left].
Qed.

Lemma settled_replicate x n ov :
  settled x ov -> settled x (include_all ov (replicate n (fin x))).
Proof.
  revert ov. induction n as [|n IH]; intros ov H; simpl.
  - exact H.
  - apply IH, settled_include, H.
Qed.

Lemma variance_settled x ov : settled x ov -> variance ov = of_Z 0.
Proof.
  intros (m & Hm & Hs & Hc & Hx). unfold variance.
  destruct (1 <? count ov)%Z eqn:E; [|reflexivity].
  apply Z.ltb_lt in E. rewrite Hs. unfold div, fin, of_Z. cbn [lift2 div_num].
  replace (count ov - 1)%Z with ((count ov - 2) + 1)%Z by lia.
  rewrite inject_Z_succ_nonzero by lia.
  do 2 f_equal.
Qed.

(** C6. Welford's estimator: with fewer than two samples the variance is
    reported as 0 (nothing is raised: [variance] is a total function);
    after two or more inclusions of one and the same value the variance
    is 0; after 1, 2, 3, 4, 5 it is 2.5, the sample variance
    [sumSquaredDeltas / (count - 1)]. *)
Theorem online_variance_welford :
  (forall xs : list float,
      (length xs < 2)%nat -> variance (include_all init xs) = of_Z 0)
  /\ (forall (x : Q) (n : nat),
      (2 <= n)%nat ->
      variance (include_all init (replicate n (fin x))) = of_Z 0)
  /\ (let ov := include_all init (map of_Z [1; 2; 3; 4; 5]%Z) in
      variance ov = fin (5 # 2)
      /\ variance ov = div (sumSquaredDeltas ov) (of_Z (count ov - 1))).
Proof.
  split; [|split].
  - intros xs Hlen. unfold variance.
    rewrite count_include_all. cbn [count init].
    destruct (1 <? 0 + Z.of_nat (length xs))%Z eqn:E; [|reflexivity].
    apply Z.ltb_lt in E. lia.
  - intros x n _. apply (variance_settled x), settled_replicate, settled_init.
  - cbv zeta. split; reflexivity.
Qed.

Lemma online_variance_welford_witness :
  variance (include_all init [fin (7 # 2)]) = of_Z 0
  /\ variance (include_all init (replicate 3 (fin (7 # 2)))) = of_Z 0.
Proof.
  destruct online_variance_welford as (H1 & H2 & _).
  split.
  - apply (H1 [fin (7 # 2)]). simpl. lia.
  - apply (H2 (7 # 2)%Q 3%nat). lia.
Defined.

End OnlineVarianceFacts.

(** ** The bulk update of the metadata (spec 4.5) *)

Section MetaData.

Lemma update_meta_data_with_Date s var column_names ns :
  lists s !! column_names = Some ns ->
  contains ns "Date" = true ->
  exists ns',
    remove_first "Date" ns = Some ns'
    /\ __update_meta_data var column_names s
       = Return var (Store (frames s) (<[column_names := ns']> (lists s)) (cache s)).
Proof.
  intros Hns Hin.
  assert (Hrm : exists ns', remove_first "Date" ns = Some ns').
  { clear Hns. unfold contains in Hin.
    induction ns as [|y r IH]; cbn [existsb remove_first] in *; [discriminate|].
    rewrite String.eqb_sym in Hin.
    destruct (String.eqb y "Date"); [eauto|].
    cbn [orb] in Hin. destruct (IH Hin) as [r' ->]. eauto. }
  destruct Hrm as [ns' Hrm]. exists ns'. split; [exact Hrm|].
  unfold __update_meta_data, bind, list_of. rewrite Hns. simpl.
  rewrite Hin. unfold remove, bind, list_of, removed. rewrite Hns. simpl.
  rewrite Hrm. reflexivity.
Qed.

(** C2. The bulk update on the names of a Bollinger table: "Date" is
    among them, so the call takes the first branch, removes "Date" from
    the list of names and appends nothing to the metadata list: BB_UP,
    BB_MID and BB_LOW are not registered. *)
Theorem update_meta_data_Date_registers_nothing :
  __update_meta_data 0 1
    (Store [] [["Close"]; ["Date"; "BB_UP"; "BB_MID"; "BB_LOW"]] empty_cache)
  = Return 0
      (Store [] [["Close"]; ["BB_UP"; "BB_MID"; "BB_LOW"]] empty_cache).
Proof. reflexivity. Qed.

(** Without "Date" among the names, the other branch appends them all. *)
Example update_meta_data_without_Date :
  __update_meta_data 0 1
    (Store [] [["Close"]; ["BB_UP"; "BB_MID"; "BB_LOW"]] empty_cache)
  = Return 0
      (Store [] [["Close"; "BB_UP"; "BB_MID"; "BB_LOW"];
                 ["BB_UP"; "BB_MID"; "BB_LOW"]] empty_cache).
Proof. reflexivity. Qed.

End MetaData.

(** ** A failing fetch leaves the store as it was *)

Section FetchFirst.

Import Pipeline.

(** C10. A transform that fetches indicator data opens with the request
    to the cache: when the cache fails, the call raises the cache's
    exception and the store (the input table, both metadata lists and
    everything else) is the one the call started from. *)
Theorem fetch_failure_leaves_store (c : call) ind stock period e s :
  fetch_of c = Some (ind, stock, period) ->
  cache s ind stock period = inl e ->
  run c s = Raise e s.
Proof.
  intros Hc He.
  destruct c; simpl in Hc; try discriminate;
    injection Hc as <- <- <-;
    unfold run, returning, proc_add_adx, proc_add_obv, proc_add_mom,
      proc_add_rsi, proc_add_bband, proc_add_macd, proc_add_mov_avg,
      __load_moving_avg, bind, get_cached_tech_indicator;
    rewrite He; reflexivity.
Qed.

Lemma fetch_failure_leaves_store_witness :
  let s := Store [[("Date", Dates [1; 2]%Z); ("Close", Floats [fin 10; fin 11])]]
             [["Close"]; []] empty_cache in
  run (add_adx 0 0 "AMZN" true) s = Raise (CacheError "no data") s.
Proof.
  intros s.
  apply (fetch_failure_leaves_store (add_adx 0 0 "AMZN" true) ADX "AMZN" None);
    reflexivity.
Defined.

End FetchFirst.

(** ** Running the primitives *)

Section Running.

Context {A B : Type}.

Lemma bind_Return (m : M A) (k : A -> M B) s a s' :
  m s = Return a s' -> bind m k s = k a s'.
Proof. unfold bind. now intros ->. Qed.

Lemma bind_Raise (m : M A) (k : A -> M B) s e s' :
  m s = Raise e s' -> bind m k s = Raise e s'.
Proof. unfold bind. now intros ->. Qed.

End Running.

Section Primitives.

Variables (F : list DataFrame) (L : list (list string)).
Variable C : TECHIND -> Ticker -> option Z -> result DataFrame.

Lemma frame_of_run df f :
  F !! df = Some f -> frame_of df (Store F L C) = Return f (Store F L C).
Proof. unfold frame_of. cbn [frames]. now intros ->. Qed.

Lemma series_run df f name xs :
  F !! df = Some f -> get f name = Some (Floats xs) ->
  series df name (Store F L C) = Return xs (Store F L C).
Proof.
  intros HF Hget. unfold series.
  rewrite (bind_Return _ _ _ _ _ (frame_of_run df f HF)).
  unfold floats. rewrite Hget. reflexivity.
Qed.

Lemma columns_of_run df f :
  F !! df = Some f ->
  columns_of df (Store F L C) = Return (columns f) (Store F L C).
Proof.
  intros HF. unfold columns_of.
  now rewrite (bind_Return _ _ _ _ _ (frame_of_run df f HF)).
Qed.

Lemma below_run df f name xs t :
  F !! df = Some f -> get f name = Some (Floats xs) ->
  below df name t (Store F L C) = Return (lt_scalar xs t) (Store F L C).
Proof.
  intros HF Hget. unfold below.
  now rewrite (bind_Return _ _ _ _ _ (series_run df f name xs HF Hget)).
Qed.

Lemma above_run df f name xs t :
  F !! df = Some f -> get f name = Some (Floats xs) ->
  above df name t (Store F L C) = Return (gt_scalar xs t) (Store F L C).
Proof.
  intros HF Hget. unfold above.
  now rewrite (bind_Return _ _ _ _ _ (series_run df f name xs HF Hget)).
Qed.

Lemma quantile_of_run df f name xs q v :
  F !! df = Some f -> get f name = Some (Floats xs) ->
  quantile xs q = inr v ->
  quantile_of df name q (Store F L C) = Return v (Store F L C).
Proof.
  intros HF Hget Hq. unfold quantile_of.
  rewrite (bind_Return _ _ _ _ _ (series_run df f name xs HF Hget)).
  now rewrite Hq.
Qed.

Lemma assign_run df f name xs :
  F !! df = Some f ->
  assign df name xs (Store F L C)
  = Return tt (Store (<[df := setitem f name (Floats xs)]> F) L C).
Proof.
  intros HF. unfold assign.
  now rewrite (bind_Return _ _ _ _ _ (frame_of_run df f HF)).
Qed.

Lemma assign_where_run df f mask name v :
  F !! df = Some f ->
  Nat.eqb (nrows f) 0 && negb (has_column f name) = false ->
  assign_where df mask name v (Store F L C)
  = Return tt (Store (<[df := loc_set f mask name (of_Z v)]> F) L C).
Proof.
  intros HF Hg. unfold assign_where.
  rewrite (bind_Return _ _ _ _ _ (frame_of_run df f HF)).
  unfold loc_setitem. now rewrite Hg.
Qed.

(** On a table of no rows that lacks the column, the assignment is
    refused. *)
Lemma assign_where_raises df f mask name v :
  F !! df = Some f ->
  Nat.eqb (nrows f) 0 && negb (has_column f name) = true ->
  assign_where df mask name v (Store F L C)
  = Raise (ValueError "cannot set a frame with no defined index and a scalar")
      (Store F L C).
Proof.
  intros HF Hg. unfold assign_where.
  rewrite (bind_Return _ _ _ _ _ (frame_of_run df f HF)).
  unfold loc_setitem. now rewrite Hg.
Qed.

Lemma append_run l xs x :
  L !! l = Some xs ->
  append l x (Store F L C) = Return tt (Store F (<[l := xs ++ [x]]> L) C).
Proof.
  intros HL. unfold append, bind, list_of, put_list. cbn [lists frames cache].
  now rewrite HL.
Qed.

End Primitives.

(** ** Tables: reading and writing columns *)

Section FrameFacts.

Lemma get_setitem_eq f name c : get (setitem f name c) name = Some c.
Proof.
  induction f as [|[n c0] r IH]; cbn [setitem get].
  - now rewrite String.eqb_refl.
  - destruct (String.eqb n name) eqn:E; cbn [get]; rewrite E; auto.
Qed.

Lemma get_setitem_ne f name other c :
  name <> other -> get (setitem f name c) other = get f other.
Proof.
  intros Hne. induction f as [|[n c0] r IH]; cbn [setitem get].
  - apply String.eqb_neq in Hne. now rewrite Hne.
  - destruct (String.eqb n name) eqn:E; cbn [get].
    + apply String.eqb_eq in E. subst n.
      apply String.eqb_neq in Hne. now rewrite Hne.
    + destruct (String.eqb n other); auto.
Qed.

Lemma setitem_setitem f name c c' :
  setitem (setitem f name c) name c' = setitem f name c'.
Proof.
  induction f as [|[n c0] r IH]; cbn [setitem].
  - now rewrite String.eqb_refl.
  - destruct (String.eqb n name) eqn:E; cbn [setitem]; rewrite E; congruence.
Qed.

Lemma contains_columns f name :
  contains (columns f) name = match get f name with Some _ => true | None => false end.
Proof.
  unfold contains, columns.
  induction f as [|[n c] r IH]; cbn [map existsb get fst]; [reflexivity|].
  rewrite String.eqb_sym. destruct (String.eqb n name); [reflexivity|].
  exact IH.
Qed.

Lemma has_column_get f name :
  has_column f name = match get f name with Some _ => true | None => false end.
Proof. apply contains_columns. Qed.

Lemma get_loc_set_ne f mask name other v :
  name <> other -> get (loc_set f mask name v) other = get f other.
Proof. intros Hne. unfold loc_set. now apply get_setitem_ne. Qed.

Lemma has_column_loc_set f mask name v : has_column (loc_set f mask name v) name = true.
Proof. rewrite has_column_get. unfold loc_set. now rewrite get_setitem_eq. Qed.

Lemma loc_guard_after f mask name v :
  Nat.eqb (nrows (loc_set f mask name v)) 0
  && negb (has_column (loc_set f mask name v) name) = false.
Proof. rewrite has_column_loc_set. apply andb_false_r. Qed.

Lemma append_inj_l (p a b : string) : p +:+ a = p +:+ b -> a = b.
Proof.
  induction p as [|c p IH]; cbn [String.append]; [auto|].
  intros H. injection H as H. auto.
Qed.

Lemma pct_is_not_direction col : col +:+ "-direction" <> col +:+ "-pct".
Proof. intros H. apply append_inj_l in H. discriminate. Qed.

(** The assignments compose row by row. *)
Lemma loc_set_first f (pct : list float) (c : float -> bool) (l : float) name :
  loc_set f (map c pct) name l
  = setitem f name
      (Floats (zip_with (fun v o => if c v then l else o) pct
                 (labels_before f name (length pct)))).
Proof.
  unfold loc_set, labels_before. rewrite length_map. f_equal. f_equal.
  generalize (match get f name with
              | Some c0 => values c0
              | None => replicate (length pct) NaN
              end).
  induction pct as [|v pct IH]; intros [|o old]; cbn [map zip_with]; auto.
  now rewrite IH.
Qed.

Lemma loc_set_next f (pct : list float) (c : float -> bool) (l : float) name
    (g : float -> float -> float) (old : list float) :
  loc_set (setitem f name (Floats (zip_with g pct old))) (map c pct) name l
  = setitem f name
      (Floats (zip_with (fun v o => if c v then l else g v o) pct old)).
Proof.
  unfold loc_set. rewrite get_setitem_eq, setitem_setitem. cbn [values].
  f_equal. f_equal. revert old.
  induction pct as [|v pct IH]; intros [|o old]; cbn [map zip_with]; auto.
  now rewrite IH.
Qed.

Lemma label_frame_eq f pct t name :
  label_frame f pct t name
  = setitem f name
      (Floats (zip_with (relabel t) pct (labels_before f name (length pct)))).
Proof.
  unfold label_frame, rules. cbn [fold_left fst snd].
  rewrite (loc_set_first f). rewrite !loc_set_next. reflexivity.
Qed.

Lemma band_map {X} (p q : X -> bool) (xs : list X) :
  band (map p xs) (map q xs) = map (fun v => p v && q v) xs.
Proof.
  unfold band. induction xs as [|x xs IH]; cbn [map zip_with]; congruence.
Qed.

End FrameFacts.

(** ** Running [proc_add_direction] *)

Section DirectionRun.

Variables (F : list DataFrame) (L : list (list string)).
Variable C : TECHIND -> Ticker -> option Z -> result DataFrame.
Variables (df : nat) (target name : string) (pct : list float).
Hypothesis Hdf : df < length F.

(** One range assignment on the table [g] held at [df]. *)
Lemma group_below g x v :
  get g target = Some (Floats pct) ->
  Nat.eqb (nrows g) 0 && negb (has_column g name) = false ->
  (let* m := below df target x in assign_where df m name v)
    (Store (<[df := g]> F) L C)
  = Return tt (Store (<[df := loc_set g (map (fun u => lt u x) pct) name (of_Z v)]> F) L C).
Proof.
  intros Hg Hguard.
  assert (HF : <[df := g]> F !! df = Some g) by now apply list_lookup_insert_eq.
  rewrite (bind_Return _ _ _ _ _ (below_run _ L C df g target pct x HF Hg)).
  rewrite (assign_where_run _ L C df g _ name v HF Hguard).
  now rewrite list_insert_insert_eq.
Qed.

Lemma group_above g x v :
  get g target = Some (Floats pct) ->
  Nat.eqb (nrows g) 0 && negb (has_column g name) = false ->
  (let* m := above df target x in assign_where df m name v)
    (Store (<[df := g]> F) L C)
  = Return tt (Store (<[df := loc_set g (map (fun u => gt u x) pct) name (of_Z v)]> F) L C).
Proof.
  intros Hg Hguard.
  assert (HF : <[df := g]> F !! df = Some g) by now apply list_lookup_insert_eq.
  rewrite (bind_Return _ _ _ _ _ (above_run _ L C df g target pct x HF Hg)).
  rewrite (assign_where_run _ L C df g _ name v HF Hguard).
  now rewrite list_insert_insert_eq.
Qed.

Lemma group_below_above g x y v :
  get g target = Some (Floats pct) ->
  Nat.eqb (nrows g) 0 && negb (has_column g name) = false ->
  (let* a := below df target x in
   let* b := above df target y in
   assign_where df (band a b) name v)
    (Store (<[df := g]> F) L C)
  = Return tt
      (Store (<[df := loc_set g (map (fun u => lt u x && gt u y) pct) name (of_Z v)]> F) L C).
Proof.
  intros Hg Hguard.
  assert (HF : <[df := g]> F !! df = Some g) by now apply list_lookup_insert_eq.
  rewrite (bind_Return _ _ _ _ _ (below_run _ L C df g target pct x HF Hg)).
  rewrite (bind_Return _ _ _ _ _ (above_run _ L C df g target pct y HF Hg)).
  rewrite (assign_where_run _ L C df g _ name v HF Hguard).
  unfold lt_scalar, gt_scalar. rewrite band_map.
  now rewrite list_insert_insert_eq.
Qed.

Lemma group_above_below g x y v :
  get g target = Some (Floats pct) ->
  Nat.eqb (nrows g) 0 && negb (has_column g name) = false ->
  (let* a := above df target x in
   let* b := below df target y in
   assign_where df (band a b) name v)
    (Store (<[df := g]> F) L C)
  = Return tt
      (Store (<[df := loc_set g (map (fun u => gt u x && lt u y) pct) name (of_Z v)]> F) L C).
Proof.
  intros Hg Hguard.
  assert (HF : <[df := g]> F !! df = Some g) by now apply list_lookup_insert_eq.
  rewrite (bind_Return _ _ _ _ _ (above_run _ L C df g target pct x HF Hg)).
  rewrite (bind_Return _ _ _ _ _ (below_run _ L C df g target pct y HF Hg)).
  rewrite (assign_where_run _ L C df g _ name v HF Hguard).
  unfold lt_scalar, gt_scalar. rewrite band_map.
  now rewrite list_insert_insert_eq.
Qed.

End DirectionRun.

Lemma thresholds_of_inv pct nt t :
  thresholds_of pct nt = inr t ->
  quantile pct (10 # 100) = inr (lowest_ten_quantile t)
  /\ quantile pct (25 # 100) = inr (bottom_quantile t)
  /\ quantile pct (75 # 100) = inr (top_quantile t)
  /\ quantile pct (85 # 100) = inr (top_fifteen_quantile t)
  /\ quantile pct (95 # 100) = inr (top_five_quantile t)
  /\ quantile (select (gt_scalar pct (of_Z 0)) pct) nt = inr (min_positive_pct t)
  /\ quantile (select (lt_scalar pct (of_Z 0)) pct) (1 - nt) = inr (min_negative_pct t).
Proof.
  unfold thresholds_of.
  destruct (quantile pct (10 # 100)); [discriminate|].
  destruct (quantile pct (25 # 100)); [discriminate|].
  destruct (quantile pct (75 # 100)); [discriminate|].
  destruct (quantile pct (85 # 100)); [discriminate|].
  destruct (quantile pct (95 # 100)); [discriminate|].
  destruct (quantile _ nt); [discriminate|].
  destruct (quantile _ (1 - nt)); [discriminate|].
  intros H. injection H as <-. cbn. repeat split.
Qed.

(** The run of [proc_add_direction] on a table that has the
    percentage-change column. *)
Lemma direction_run_present F L C df f col cat cont nt pct t cats :
  F !! df = Some f ->
  get f (col +:+ "-pct") = Some (Floats pct) ->
  Nat.eqb (nrows f) 0 && negb (has_column f (col +:+ "-direction")) = false ->
  thresholds_of pct nt = inr t ->
  L !! cat = Some cats ->
  proc_add_direction df col cat cont nt (Store F L C)
  = Return df
      (Store (<[df := label_frame f pct t (col +:+ "-direction")]> F)
             (<[cat := cats ++ [col +:+ "-direction"]]> L) C).
Proof.
  intros HF Hpct Hguard Ht Hcat.
  destruct (thresholds_of_inv _ _ _ Ht) as (Q10 & Q25 & Q75 & Q85 & Q95 & Qpos & Qneg).
  assert (Hdf : df < length F) by (eapply lookup_lt_Some; eauto).
  pose proof (pct_is_not_direction col) as Hne.
  unfold proc_add_direction.
  rewrite (bind_Return _ _ _ _ _ (columns_of_run F L C df f HF)).
  rewrite contains_columns, Hpct. cbn [negb].
  rewrite (bind_Return _ _ _ df (Store F L C)) by reflexivity.
  rewrite (bind_Return _ _ _ _ _ (quantile_of_run F L C df f _ pct _ _ HF Hpct Q10)).
  rewrite (bind_Return _ _ _ _ _ (quantile_of_run F L C df f _ pct _ _ HF Hpct Q25)).
  rewrite (bind_Return _ _ _ _ _ (quantile_of_run F L C df f _ pct _ _ HF Hpct Q75)).
  rewrite (bind_Return _ _ _ _ _ (quantile_of_run F L C df f _ pct _ _ HF Hpct Q85)).
  rewrite (bind_Return _ _ _ _ _ (quantile_of_run F L C df f _ pct _ _ HF Hpct Q95)).
  rewrite (bind_Return _ _ _ (min_positive_pct t) (Store F L C)).
  2:{ rewrite (bind_Return _ _ _ _ _ (series_run F L C df f _ pct HF Hpct)).
      rewrite (bind_Return _ _ _ _ _ (above_run F L C df f _ pct _ HF Hpct)).
      now rewrite Qpos. }
  rewrite (bind_Return _ _ _ (min_negative_pct t) (Store F L C)).
  2:{ rewrite (bind_Return _ _ _ _ _ (series_run F L C df f _ pct HF Hpct)).
      rewrite (bind_Return _ _ _ _ _ (below_run F L C df f _ pct _ HF Hpct)).
      now rewrite Qneg. }
  rewrite <- (list_insert_id F df f HF) at 1.
  assert (Hkeep : forall g mask v,
             get g (col +:+ "-pct") = Some (Floats pct) ->
             get (loc_set g mask (col +:+ "-direction") v) (col +:+ "-pct")
             = Some (Floats pct)).
  { intros g mask v Hg. now rewrite get_loc_set_ne. }
  erewrite bind_Return
    by (apply (group_below F L C df _ _ pct Hdf);
        [repeat apply Hkeep; exact Hpct | first [exact Hguard | apply loc_guard_after]]).
  erewrite bind_Return
    by (apply (group_below_above F L C df _ _ pct Hdf);
        [repeat apply Hkeep; exact Hpct | first [exact Hguard | apply loc_guard_after]]).
  erewrite bind_Return
    by (apply (group_below_above F L C df _ _ pct Hdf);
        [repeat apply Hkeep; exact Hpct | first [exact Hguard | apply loc_guard_after]]).
  erewrite bind_Return
    by (apply (group_above_below F L C df _ _ pct Hdf);
        [repeat apply Hkeep; exact Hpct | first [exact Hguard | apply loc_guard_after]]).
  erewrite bind_Return
    by (apply (group_above_below F L C df _ _ pct Hdf);
        [repeat apply Hkeep; exact Hpct | first [exact Hguard | apply loc_guard_after]]).
  erewrite bind_Return
    by (apply (group_above_below F L C df _ _ pct Hdf);
        [repeat apply Hkeep; exact Hpct | first [exact Hguard | apply loc_guard_after]]).
  erewrite bind_Return
    by (apply (group_above_below F L C df _ _ pct Hdf);
        [repeat apply Hkeep; exact Hpct | first [exact Hguard | apply loc_guard_after]]).
  erewrite bind_Return
    by (apply (group_above F L C df _ _ pct Hdf);
        [repeat apply Hkeep; exact Hpct | first [exact Hguard | apply loc_guard_after]]).
  erewrite bind_Return by (apply append_run; exact Hcat).
  reflexivity.
Qed.

(** On a table of no rows that has the percentage changes but no
    direction column, the first range assignment is refused: nothing is
    written and nothing registered. *)
Lemma direction_refuses_empty_table F L C df f col cat cont nt pct :
  F !! df = Some f ->
  get f (col +:+ "-pct") = Some (Floats pct) ->
  Nat.eqb (nrows f) 0 && negb (has_column f (col +:+ "-direction")) = true ->
  (0 <= nt)%Q -> (nt <= 1)%Q ->
  proc_add_direction df col cat cont nt (Store F L C)
  = Raise (ValueError "cannot set a frame with no defined index and a scalar")
      (Store F L C).
Proof.
  intros HF Hpct Hguard H0 H1.
  assert (Hq : forall xs q, (0 <= q)%Q -> (q <= 1)%Q ->
             exists v, quantile xs q = inr v).
  { intros xs q Hq0 Hq1. unfold quantile.
    apply Qle_bool_iff in Hq0, Hq1. rewrite Hq0, Hq1. eauto. }
  unfold proc_add_direction.
  rewrite (bind_Return _ _ _ _ _ (columns_of_run F L C df f HF)).
  rewrite contains_columns, Hpct. cbn [negb].
  rewrite (bind_Return _ _ _ df (Store F L C)) by reflexivity.
  destruct (Hq pct (10 # 100)) as [v1 E1]; try (unfold Qle; cbn; lia).
  rewrite (bind_Return _ _ _ _ _ (quantile_of_run F L C df f _ pct _ _ HF Hpct E1)).
  destruct (Hq pct (25 # 100)) as [v2 E2]; try (unfold Qle; cbn; lia).
  rewrite (bind_Return _ _ _ _ _ (quantile_of_run F L C df f _ pct _ _ HF Hpct E2)).
  destruct (Hq pct (75 # 100)) as [v3 E3]; try (unfold Qle; cbn; lia).
  rewrite (bind_Return _ _ _ _ _ (quantile_of_run F L C df f _ pct _ _ HF Hpct E3)).
  destruct (Hq pct (85 # 100)) as [v4 E4]; try (unfold Qle; cbn; lia).
  rewrite (bind_Return _ _ _ _ _ (quantile_of_run F L C df f _ pct _ _ HF Hpct E4)).
  destruct (Hq pct (95 # 100)) as [v5 E5]; try (unfold Qle; cbn; lia).
  rewrite (bind_Return _ _ _ _ _ (quantile_of_run F L C df f _ pct _ _ HF Hpct E5)).
  destruct (Hq (select (gt_scalar pct (of_Z 0)) pct) nt H0 H1) as [v6 E6].
  rewrite (bind_Return _ _ _ v6 (Store F L C)).
  2:{ rewrite (bind_Return _ _ _ _ _ (series_run F L C df f _ pct HF Hpct)).
      rewrite (bind_Return _ _ _ _ _ (above_run F L C df f _ pct _ HF Hpct)).
      now rewrite E6. }
  destruct (Hq (select (lt_scalar pct (of_Z 0)) pct) (1 - nt)%Q) as [v7 E7]; try lra.
  rewrite (bind_Return _ _ _ v7 (Store F L C)).
  2:{ rewrite (bind_Return _ _ _ _ _ (series_run F L C df f _ pct HF Hpct)).
      rewrite (bind_Return _ _ _ _ _ (below_run F L C df f _ pct _ HF Hpct)).
      now rewrite E7. }
  apply bind_Raise.
  rewrite (bind_Return _ _ _ _ _ (below_run F L C df f _ pct _ HF Hpct)).
  now apply (assign_where_raises F L C df f).
Qed.


(** ** Quantiles *)

Section QuantileFacts.

Lemma In_insert_sorted x y l : In y (insert_sorted x l) -> y = x \/ In y l.
Proof.
  induction l as [|z l IH]; cbn [insert_sorted].
  - intros [<-|[]]. now left.
  - destruct (Qle_bool x z).
    + intros [<-|H]; [now left | now right].
    + intros [<-|H]; [right; now left|].
      destruct (IH H) as [->|H']; [now left | right; now right].
Qed.

Lemma In_sort y l : In y (sort l) -> In y l.
Proof.
  induction l as [|x l IH]; cbn [sort fold_right]; [auto|].
  intros H. apply In_insert_sorted in H as [->|H]; [now left|].
  right. apply IH, H.
Qed.















Lemma quantile_finite_data xs qs q :
  (0 <= q)%Q -> (q <= 1)%Q ->
  finite_values (dropna xs) = Some qs ->
  quantile xs q = inr (interpolate (sort qs) q).
Proof.
  intros H0 H1 Hq. unfold quantile.
  apply Qle_bool_iff in H0, H1. now rewrite H0, H1, Hq.
Qed.


End QuantileFacts.

(** ** The labels of [proc_add_direction] *)

Section DirectionLabels.

Lemma rectangular_size f name c :
  rectangular f = true -> get f name = Some c -> size c = nrows f.
Proof.
  unfold rectangular. generalize (nrows f) as n. intros n.
  induction f as [|[m c0] r IH]; cbn [forallb get snd]; [discriminate|].
  intros H. apply andb_true_iff in H as [H1 H2].
  destruct (String.eqb m name).
  - intros [= <-]. now apply Nat.eqb_eq.
  - now apply IH.
Qed.

Lemma length_values c : length (values c) = size c.
Proof. destruct c; cbn [values size]; [reflexivity | apply length_map]. Qed.

Lemma labels_before_length f name (pct : list float) :
  rectangular f = true ->
  (forall c, get f name = Some c -> size c = length pct) ->
  length (labels_before f name (length pct)) = length pct.
Proof.
  intros Hr Hsz. unfold labels_before.
  destruct (get f name) as [c|] eqn:E.
  - rewrite length_values. now apply Hsz.
  - apply length_replicate.
Qed.





Lemma no_inf_lookup (pct : list float) i v :
  forallb no_inf pct = true -> pct !! i = Some v -> no_inf v = true.
Proof.
  intros H Hi. rewrite forallb_forall in H. apply H.
  eapply list_elem_of_In, list_elem_of_lookup_2; eauto.
Qed.





End DirectionLabels.

(** ** The direction classifier (spec 4.2) *)

Section DirectionClassifier.

Lemma quantile_ok xs q :
  (0 <= q)%Q -> (q <= 1)%Q -> exists v, quantile xs q = inr v.
Proof.
  intros H0 H1. unfold quantile.
  apply Qle_bool_iff in H0, H1. rewrite H0, H1. eauto.
Qed.

Lemma thresholds_of_ok pct nt :
  (0 <= nt)%Q -> (nt <= 1)%Q -> exists t, thresholds_of pct nt = inr t.
Proof.
  intros H0 H1. unfold thresholds_of.
  destruct (quantile_ok pct (10 # 100)) as [v1 ->]; try (unfold Qle; cbn; lia).
  destruct (quantile_ok pct (25 # 100)) as [v2 ->]; try (unfold Qle; cbn; lia).
  destruct (quantile_ok pct (75 # 100)) as [v3 ->]; try (unfold Qle; cbn; lia).
  destruct (quantile_ok pct (85 # 100)) as [v4 ->]; try (unfold Qle; cbn; lia).
  destruct (quantile_ok pct (95 # 100)) as [v5 ->]; try (unfold Qle; cbn; lia).
  destruct (quantile_ok (select (gt_scalar pct (of_Z 0)) pct) nt) as [v6 ->];
    [assumption | assumption |].
  destruct (quantile_ok (select (lt_scalar pct (of_Z 0)) pct) (1 - nt)) as [v7 ->];
    [lra | lra |].
  eauto.
Qed.

(** The direction column after a run on a table that has the percentage
    changes: row by row, the label left by the eight assignments. *)
Lemma nonempty_guard f name (xs : list float) :
  rectangular f = true ->
  get f name = Some (Floats xs) ->
  xs <> [] ->
  Nat.eqb (nrows f) 0 = false.
Proof.
  intros Hrect Hget Hne.
  rewrite <- (rectangular_size f _ _ Hrect Hget). cbn [size].
  destruct xs; [congruence | reflexivity].
Qed.

Lemma direction_column s df f col cat cont nt pct cats :
  frames s !! df = Some f ->
  rectangular f = true ->
  get f (col +:+ "-pct") = Some (Floats pct) ->
  pct <> [] ->
  (0 <= nt)%Q -> (nt <= 1)%Q ->
  lists s !! cat = Some cats ->
  exists t s' dir,
    thresholds_of pct nt = inr t
    /\ proc_add_direction df col cat cont nt s = Return df s'
    /\ frames s' !! df = Some (label_frame f pct t (col +:+ "-direction"))
    /\ lists s' = <[cat := cats ++ [col +:+ "-direction"]]> (lists s)
    /\ get (label_frame f pct t (col +:+ "-direction")) (col +:+ "-direction")
       = Some (Floats dir)
    /\ length dir = length pct
    /\ forall i v, pct !! i = Some v ->
         exists o, labels_before f (col +:+ "-direction") (length pct) !! i = Some o
                   /\ dir !! i = Some (relabel t v o).
Proof.
  intros HF Hrect Hpct Hne H0 H1 Hcat.
  destruct (thresholds_of_ok pct nt H0 H1) as [t Ht].
  destruct s as [F L C]. cbn [frames lists] in *.
  exists t. eexists. eexists.
  split; [exact Ht|].
  split; [apply (direction_run_present F L C df f col cat cont nt pct t cats); auto;
          now rewrite (nonempty_guard f (col +:+ "-pct") pct)|].
  cbn [frames lists].
  assert (Hlen : length (labels_before f (col +:+ "-direction") (length pct))
                 = length pct).
  { apply labels_before_length; [exact Hrect|].
    intros c Hc. rewrite (rectangular_size f _ c Hrect Hc).
    now rewrite <- (rectangular_size f _ _ Hrect Hpct). }
  split; [apply list_lookup_insert_eq; eapply lookup_lt_Some; eauto|].
  split; [reflexivity|].
  rewrite label_frame_eq, get_setitem_eq.
  split; [reflexivity|].
  split; [rewrite length_zip_with, Hlen; lia|].
  intros i v Hi.
  destruct (lookup_lt_is_Some_2 (labels_before f (col +:+ "-direction") (length pct)) i)
    as [o Ho].
  { rewrite Hlen. eapply lookup_lt_Some; eauto. }
  exists o. split; [exact Ho|].
  rewrite lookup_zip_with, Hi, Ho. reflexivity.
Qed.




(** C9. A row can match none of the eight conditions and stay unlabeled.
    In the series of three losses and eight gains, [min_negative_pct]
    (-1.14) lies below the 25th percentile (0); the row with change -2
    equals the 10th percentile, so it is neither below it nor above it,
    it is not above the 25th percentile and not above [min_negative_pct]:
    no assignment matches, and its direction cell is still missing when
    the table is returned. *)
Theorem direction_leaves_row_unlabeled :
  exists (s : store) (df : nat) (col : string) (cat_vars cont_vars : nat) (nt : Q),
    (0 < nt)%Q /\ (nt < 1)%Q /\
    exists f pct t s' f' dir (i : nat) v,
      frames s !! df = Some f
      /\ get f (col +:+ "-pct") = Some (Floats pct)
      /\ thresholds_of pct nt = inr t
      /\ proc_add_direction df col cat_vars cont_vars nt s = Return df s'
      /\ frames s' !! df = Some f'
      /\ get f' (col +:+ "-direction") = Some (Floats dir)
      /\ pct !! i = Some v
      /\ Forall (fun r : (float -> bool) * Z => fst r v = false) (rules t)
      /\ lt (min_negative_pct t) (bottom_quantile t) = true
      /\ dir !! i = Some NaN.
Proof.
  exists (pct_store mixed_pct), 0%nat, "Close", 1%nat, 0%nat, (7 # 100)%Q.
  split; [reflexivity|]. split; [reflexivity|].
  exists [("Close-pct", Floats mixed_pct)], mixed_pct.
  do 4 eexists. exists 1%nat, (of_Z (-2)).
  repeat split; try (vm_compute; reflexivity).
  repeat constructor.
Qed.

End DirectionClassifier.

(** ** The percentage change and the self-healing of the classifier *)

Section PercentChange.

Lemma append_run_any F L C l x :
  append l x (Store F L C)
  = Return tt (Store F (<[l := default [] (L !! l) ++ [x]]> L) C).
Proof. reflexivity. Qed.

Lemma shift_one (xs : list float) : shift 1 xs = take (length xs) (NaN :: xs).
Proof. reflexivity. Qed.

Lemma div_NaN x : div x NaN = NaN.
Proof. destruct x; reflexivity. Qed.

Lemma length_pad_from last xs : length (pad_from last xs) = length xs.
Proof.
  revert last. induction xs as [|x r IH]; intros last; cbn [pad_from length];
    [reflexivity|]. now rewrite IH.
Qed.

Lemma length_pad xs : length (pad xs) = length xs.
Proof. apply length_pad_from. Qed.



(** A series without NaN is its own padding. *)
Lemma pad_from_full last xs :
  Forall (fun x => x <> NaN) xs -> pad_from last xs = xs.
Proof.
  revert last. induction xs as [|x r IH]; intros last H; cbn [pad_from];
    [reflexivity|].
  inversion H as [|? ? Hx Hr]; subst.
  destruct x as [v|]; [|now destruct Hx]. now rewrite IH.
Qed.

Lemma pct_change_first xs : xs <> [] -> pct_change xs !! 0%nat = Some NaN.
Proof.
  destruct xs as [|x r]; [congruence|]. intros _.
  unfold pct_change, pad. cbn [pad_from]. cbv zeta.
  rewrite shift_one. cbn [length take zip_with].
  now rewrite div_NaN.
Qed.


Lemma length_pct_change xs : length (pct_change xs) = length xs.
Proof.
  unfold pct_change. cbv zeta.
  rewrite length_zip_with, shift_one, length_take, length_pad.
  cbn [length]. rewrite length_pad. lia.
Qed.

Lemma percent_change_run F L C df f col cont xs :
  F !! df = Some f ->
  get f col = Some (Floats xs) ->
  proc_add_percent_change df col cont (Store F L C)
  = Return df
      (Store (<[df := setitem f (col +:+ "-pct") (Floats (pct_change xs))]> F)
             (<[cont := default [] (L !! cont) ++ [col +:+ "-pct"]]> L) C).
Proof.
  intros HF Hcol. unfold proc_add_percent_change.
  rewrite (bind_Return _ _ _ _ _ (series_run F L C df f col xs HF Hcol)).
  rewrite (bind_Return _ _ _ _ _ (assign_run F L C df f _ _ HF)).
  rewrite (bind_Return _ _ _ _ _ (append_run_any _ L C cont _)).
  reflexivity.
Qed.

Lemma percent_change_raises F L C df f col cont :
  F !! df = Some f ->
  (forall xs, get f col <> Some (Floats xs)) ->
  exists e, proc_add_percent_change df col cont (Store F L C) = Raise e (Store F L C).
Proof.
  intros HF Hcol. unfold proc_add_percent_change, series.
  unfold bind at 1 2. rewrite (frame_of_run F L C df f HF).
  unfold floats. destruct (get f col) as [[xs|ds]|]; cbn [lift raise]; eauto.
  now destruct (Hcol xs).
Qed.

(** On a table without the percentage-change column, the classifier is
    the percentage-change transform followed by the classifier. *)
Lemma direction_invokes_percent_change F L C df f col cat cont nt :
  F !! df = Some f ->
  get f (col +:+ "-pct") = None ->
  proc_add_direction df col cat cont nt (Store F L C)
  = (let* d := proc_add_percent_change df col cont in
     proc_add_direction d col cat cont nt) (Store F L C).
Proof.
  intros HF Hnone.
  unfold proc_add_direction at 1.
  rewrite (bind_Return _ _ _ _ _ (columns_of_run F L C df f HF)).
  rewrite contains_columns, Hnone. cbn [negb].
  destruct (get f col) as [[xs|ds]|] eqn:Hcol.
  - pose proof (percent_change_run F L C df f col cont xs HF Hcol) as Hrun.
    rewrite (bind_Return _ _ _ _ _ Hrun).
    symmetry. rewrite (bind_Return _ _ _ _ _ Hrun).
    unfold proc_add_direction.
    assert (Hdf : df < length F) by (eapply lookup_lt_Some; eauto).
    erewrite bind_Return
      by (apply columns_of_run, list_lookup_insert_eq, Hdf).
    rewrite contains_columns, get_setitem_eq. cbn [negb].
    reflexivity.
  - destruct (percent_change_raises F L C df f col cont HF) as [e He].
    { intros xs. rewrite Hcol. discriminate. }
    now rewrite !(bind_Raise _ _ _ _ _ He).
  - destruct (percent_change_raises F L C df f col cont HF) as [e He].
    { intros xs. rewrite Hcol. discriminate. }
    now rewrite !(bind_Raise _ _ _ _ _ He).
Qed.





End PercentChange.

(** ** Min-max normalization *)

Section MinMax.





Lemma fmin2_cases a b : fmin2 a b = a \/ fmin2 a b = b.
Proof.
  destruct a as [x|], b as [y|]; cbn [fmin2]; auto.
  destruct (le_num x y); auto.
Qed.

Lemma fmax2_cases a b : fmax2 a b = a \/ fmax2 a b = b.
Proof.
  destruct a as [x|], b as [y|]; cbn [fmax2]; auto.
  destruct (le_num x y); auto.
Qed.



Lemma min_attained xs (m : num) : Series.min xs = Some m -> In (Some m) xs.
Proof.
  unfold Series.min.
  induction xs as [|a xs IH]; cbn [fold_right In]; [discriminate|].
  intros H. destruct (fmin2_cases a (fold_right fmin2 NaN xs)) as [E|E];
    rewrite E in H; [now left | right; now apply IH].
Qed.

Lemma max_attained xs (m : num) : Series.max xs = Some m -> In (Some m) xs.
Proof.
  unfold Series.max.
  induction xs as [|a xs IH]; cbn [fold_right In]; [discriminate|].
  intros H. destruct (fmax2_cases a (fold_right fmax2 NaN xs)) as [E|E];
    rewrite E in H; [now left | right; now apply IH].
Qed.



End MinMax.

Section Normalize.













End Normalize.

(** ** The inner join (spec 4.3) *)

Section MergeFacts.

Lemma fst_pairs (i : nat) (ms : list nat) :
  map fst (map (pair i) ms) = replicate (length ms) i.
Proof. induction ms as [|m ms IH]; cbn [map length replicate fst]; congruence. Qed.

Lemma joined_left_dates (pre dl dr : list Z) :
  map (fun i => default 0%Z ((pre ++ dl) !! i))
      (map fst (join_pairs Z.eqb dl dr (length pre)))
  = flat_map (fun d => replicate (length (matches Z.eqb d dr 0)) d) dl.
Proof.
  revert pre. induction dl as [|d dl IH]; intros pre; cbn [join_pairs flat_map map].
  - reflexivity.
  - rewrite !map_app, fst_pairs. f_equal.
    + generalize (length (matches Z.eqb d dr 0)) as k. intros k.
      induction k as [|k IHk]; cbn [replicate map]; [reflexivity|].
      rewrite IHk. f_equal.
      now rewrite lookup_app_r, Nat.sub_diag by lia.
    + specialize (IH (pre ++ [d])).
      rewrite <- app_assoc, length_app in IH. cbn [app length] in IH.
      rewrite Nat.add_1_r in IH. exact IH.
Qed.

Lemma matches_absent d dr j :
  existsb (Z.eqb d) dr = false -> matches Z.eqb d dr j = [].
Proof.
  revert j. induction dr as [|b dr IH]; intros j; cbn [existsb matches]; [reflexivity|].
  intros H. apply orb_false_iff in H as [-> H]. now apply IH.
Qed.

Lemma matches_unique d dr j :
  List.NoDup dr -> existsb (Z.eqb d) dr = true -> length (matches Z.eqb d dr j) = 1.
Proof.
  intros Hnd. revert j.
  induction Hnd as [|b dr Hnotin Hnd IH]; intros j; cbn [existsb matches]; [discriminate|].
  destruct (Z.eqb d b) eqn:E.
  - intros _. apply Z.eqb_eq in E. subst b. cbn [length]. f_equal.
    rewrite matches_absent; [reflexivity|].
    destruct (existsb (Z.eqb d) dr) eqn:E'; [|reflexivity].
    apply existsb_exists in E' as (x & Hx & Hdx). apply Z.eqb_eq in Hdx. subst x.
    contradiction.
  - cbn [orb]. apply IH.
Qed.

(** With unique dates on the right, the joined rows are the left rows
    whose date occurs on the right. *)
Lemma joined_dates_unique (dl dr : list Z) :
  List.NoDup dr ->
  map (fun i => default 0%Z (dl !! i)) (map fst (join_pairs Z.eqb dl dr 0))
  = common_dates dl dr.
Proof.
  intros Hnd. pose proof (joined_left_dates [] dl dr) as H.
  cbn [app length] in H. rewrite H. clear H. unfold common_dates.
  induction dl as [|d dl IH]; cbn [flat_map List.filter]; [reflexivity|].
  rewrite IH. destruct (existsb (Z.eqb d) dr) eqn:E.
  - now rewrite (matches_unique d dr 0 Hnd E).
  - now rewrite (matches_absent d dr 0 E).
Qed.

Lemma get_app f g name :
  get (f ++ g) name = match get f name with Some c => Some c | None => get g name end.
Proof.
  induction f as [|[n c] r IH]; cbn [app get]; [reflexivity|].
  destruct (String.eqb n name); [reflexivity | exact IH].
Qed.

Lemma get_map_columns (h : column -> column) f name :
  get (map (fun nc => (fst nc, h (snd nc))) f) name = option_map h (get f name).
Proof.
  induction f as [|[n c] r IH]; cbn [map get fst snd]; [reflexivity|].
  destruct (String.eqb n name); [reflexivity | exact IH].
Qed.

Lemma get_filter_key f on name :
  name <> on ->
  get (List.filter (fun nc => negb (String.eqb (fst nc) on)) f) name = get f name.
Proof.
  intros Hne. induction f as [|[n c] r IH]; cbn [List.filter get fst]; [reflexivity|].
  destruct (String.eqb n on) eqn:E; cbn [negb get].
  - apply String.eqb_eq in E. subst n.
    destruct (String.eqb on name) eqn:E'; [|exact IH].
    apply String.eqb_eq in E'. congruence.
  - destruct (String.eqb n name); [reflexivity | exact IH].
Qed.

Lemma has_column_In f n : has_column f n = true <-> In n (columns f).
Proof.
  unfold has_column. rewrite existsb_exists. split.
  - intros (x & Hx & E). apply String.eqb_eq in E. now subst.
  - intros H. exists n. split; [exact H | apply String.eqb_refl].
Qed.

(** The join of two tables that share the key only. *)
Lemma merge_on_dates left right on dl dr :
  get left on = Some (Dates dl) ->
  get right on = Some (Dates dr) ->
  shares_only_key left right on = true ->
  merge left right on
  = inr (map (fun nc => (fst nc,
                         take_rows (map fst (join_pairs Z.eqb dl dr 0)) (snd nc))) left
         ++ map (fun nc => (fst nc,
                            take_rows (map snd (join_pairs Z.eqb dl dr 0)) (snd nc)))
              (List.filter (fun nc => negb (String.eqb (fst nc) on)) right)).
Proof.
  intros Hl Hr Hshare. unfold merge. rewrite Hl, Hr. cbn [key_pairs].
  unfold shares_only_key in Hshare. rewrite forallb_forall in Hshare.
  f_equal. f_equal.
  - apply map_ext_in. intros [n c] Hin. cbn [fst snd]. f_equal.
    assert (Hn : In n (columns left)) by (apply in_map_iff; exists (n, c); auto).
    specialize (Hshare n Hn).
    destruct (String.eqb n on); cbn [negb andb orb] in *; [reflexivity|].
    apply negb_true_iff in Hshare. now rewrite Hshare.
  - apply map_ext_in. intros [n c] Hin. cbn [fst snd]. f_equal.
    apply filter_In in Hin as [Hin Hkey]. cbn [fst] in Hkey.
    destruct (has_column left n) eqn:E; [|reflexivity].
    apply has_column_In in E. specialize (Hshare n E).
    apply negb_true_iff in Hkey. rewrite Hkey in Hshare. cbn [orb] in Hshare.
    apply negb_true_iff in Hshare.
    assert (Hr' : has_column right n = true).
    { apply has_column_In, in_map_iff. exists (n, c). auto. }
    congruence.
Qed.

(** What the joined table holds: the left columns on the matched left
    rows, then the right columns (but the key) on the matched right rows. *)
Lemma get_merged left right on dl dr m name :
  get left on = Some (Dates dl) ->
  get right on = Some (Dates dr) ->
  shares_only_key left right on = true ->
  merge left right on = inr m ->
  get m name
  = match get left name with
    | Some c => Some (take_rows (map fst (join_pairs Z.eqb dl dr 0)) c)
    | None =>
        if String.eqb name on then None
        else option_map (take_rows (map snd (join_pairs Z.eqb dl dr 0)))
               (get right name)
    end.
Proof.
  intros Hl Hr Hshare Hm.
  rewrite (merge_on_dates _ _ _ _ _ Hl Hr Hshare) in Hm. injection Hm as <-.
  rewrite get_app, get_map_columns.
  destruct (get left name) as [c|] eqn:E; [reflexivity|]. cbn [option_map].
  destruct (String.eqb name on) eqn:En.
  - apply String.eqb_eq in En. subst name. congruence.
  - apply String.eqb_neq in En.
    now rewrite get_map_columns, get_filter_key.
Qed.

Lemma merged_dates left right dl dr m :
  get left "Date" = Some (Dates dl) ->
  get right "Date" = Some (Dates dr) ->
  shares_only_key left right "Date" = true ->
  List.NoDup dr ->
  merge left right "Date" = inr m ->
  get m "Date" = Some (Dates (common_dates dl dr)).
Proof.
  intros Hl Hr Hshare Hnd Hm.
  rewrite (get_merged _ _ _ _ _ _ _ Hl Hr Hshare Hm), Hl.
  cbn [take_rows]. now rewrite joined_dates_unique.
Qed.

Lemma matches_sound (a : Z) r j0 j :
  In j (matches Z.eqb a r j0) -> j0 <= j /\ r !! (j - j0) = Some a.
Proof.
  revert j0. induction r as [|b r IH]; intros j0; cbn [matches]; [contradiction|].
  assert (Hrest : In j (matches Z.eqb a r (S j0)) -> j0 <= j /\ (b :: r) !! (j - j0) = Some a).
  { intros H. apply IH in H as [Hle H]. split; [lia|].
    replace (j - j0) with (S (j - S j0)) by lia. exact H. }
  destruct (Z.eqb_spec a b) as [->|_]; [|exact Hrest].
  intros [<-|H]; [|now apply Hrest].
  split; [lia|]. now rewrite Nat.sub_diag.
Qed.

Lemma join_pairs_sound (dl dr : list Z) i0 i j :
  In (i, j) (join_pairs Z.eqb dl dr i0) ->
  exists d, i0 <= i /\ dl !! (i - i0) = Some d /\ dr !! j = Some d.
Proof.
  revert i0. induction dl as [|a dl IH]; intros i0; cbn [join_pairs]; [contradiction|].
  rewrite in_app_iff, in_map_iff. intros [(j' & E & Hin)|H].
  - injection E as <- <-. apply matches_sound in Hin as [_ Hin].
    rewrite Nat.sub_0_r in Hin. exists a. split; [lia|].
    now rewrite Nat.sub_diag.
  - apply IH in H as (d & Hle & Hl & Hr). exists d. split; [lia|]. split; [|exact Hr].
    replace (i - i0) with (S (i - S i0)) by lia. exact Hl.
Qed.

End MergeFacts.

(** ** Running the indicator transforms *)

Lemma length_append (a b : string) :
  String.length (a +:+ b) = String.length a + String.length b.
Proof.
  induction a as [|c a IH]; simpl; [reflexivity | f_equal; exact IH].
Qed.

Lemma setitem_same g name c : get g name = Some c -> setitem g name c = g.
Proof.
  induction g as [|[n c0] r IH]; cbn [get setitem]; [discriminate|].
  destruct (String.eqb n name); [now intros [= ->] | intros H; now rewrite IH].
Qed.

Section StoreFacts.

Context {X : Type}.

Lemma lookup_new (F G : list X) k : (F ++ G) !! (length F + k) = G !! k.
Proof. rewrite lookup_app_r by lia. f_equal. lia. Qed.

Lemma lookup_new0 (F G : list X) : (F ++ G) !! length F = G !! 0%nat.
Proof. rewrite lookup_app_r by lia. f_equal. lia. Qed.

Lemma insert_new (F G : list X) k x :
  <[length F + k := x]> (F ++ G) = F ++ <[k := x]> G.
Proof. rewrite insert_app_r_alt by lia. do 2 f_equal. lia. Qed.

Lemma insert_new0 (F G : list X) x :
  <[length F := x]> (F ++ G) = F ++ <[0%nat := x]> G.
Proof. rewrite insert_app_r_alt by lia. do 2 f_equal. lia. Qed.

End StoreFacts.

Section MorePrimitives.

Variables (F : list DataFrame) (L : list (list string)).
Variable C : TECHIND -> Ticker -> option Z -> result DataFrame.

Lemma fetch_run ind stock period t :
  C ind stock period = inr t ->
  get_cached_tech_indicator ind stock period (Store F L C)
  = Return (length F) (Store (F ++ [t]) L C).
Proof. unfold get_cached_tech_indicator. cbn [cache]. now intros ->. Qed.

Lemma rename_run r g old new :
  F !! r = Some g ->
  __rename_column r old new (Store F L C)
  = Return (length F) (Store (F ++ [rename g old new]) L C).
Proof.
  intros Hr. unfold __rename_column.
  now rewrite (bind_Return _ _ _ _ _ (frame_of_run F L C r g Hr)).
Qed.

Lemma convert_date_run r g name ds :
  F !! r = Some g -> get g name = Some (Dates ds) ->
  convert_date r name (Store F L C) = Return r (Store F L C).
Proof.
  intros Hr Hg. unfold convert_date.
  rewrite (bind_Return _ _ _ _ _ (frame_of_run F L C r g Hr)).
  unfold getitem. rewrite Hg. cbn [lift to_datetime].
  rewrite (bind_Return _ _ _ (Dates ds) (Store F L C)) by reflexivity.
  rewrite (bind_Return _ _ _ (Dates ds) (Store F L C)) by reflexivity.
  rewrite (setitem_same g name (Dates ds) Hg).
  unfold bind, put_frame, ret. cbn [frames lists cache].
  now rewrite (list_insert_id F r g Hr).
Qed.

Lemma pd_merge_run l r a b on m :
  F !! l = Some a -> F !! r = Some b -> merge a b on = inr m ->
  pd_merge l r on (Store F L C) = Return (length F) (Store (F ++ [m]) L C).
Proof.
  intros Hl Hr Hm. unfold pd_merge.
  rewrite (bind_Return _ _ _ _ _ (frame_of_run F L C l a Hl)).
  rewrite (bind_Return _ _ _ _ _ (frame_of_run F L C r b Hr)).
  now rewrite Hm.
Qed.

Lemma fillna_run r g :
  F !! r = Some g ->
  fillna r (Store F L C) = Return (length F) (Store (F ++ [fillna0 g]) L C).
Proof.
  intros Hr. unfold fillna.
  now rewrite (bind_Return _ _ _ _ _ (frame_of_run F L C r g Hr)).
Qed.

Lemma difference_run r g a b xs ys :
  F !! r = Some g -> get g a = Some (Floats xs) -> get g b = Some (Floats ys) ->
  difference r a b (Store F L C) = Return (zip_with sub xs ys) (Store F L C).
Proof.
  intros Hr Ha Hb. unfold difference.
  rewrite (bind_Return _ _ _ _ _ (series_run F L C r g a xs Hr Ha)).
  now rewrite (bind_Return _ _ _ _ _ (series_run F L C r g b ys Hr Hb)).
Qed.

Lemma lift_run {A} (r : result A) (a : A) s : r = inr a -> lift r s = Return a s.
Proof. now intros ->. Qed.

End MorePrimitives.

Section ListPrimitives.

Lemma tolist_run F L C r g :
  F !! r = Some g ->
  tolist r (Store F L C) = Return (length L) (Store F (L ++ [columns g]) C).
Proof.
  intros Hr. unfold tolist.
  now rewrite (bind_Return _ _ _ _ _ (columns_of_run F L C r g Hr)).
Qed.

Lemma removed_contains ns x ns' : removed ns x = inr ns' -> contains ns x = true.
Proof.
  unfold removed, contains.
  destruct (remove_first x ns) as [r|] eqn:E; [|discriminate]. intros _.
  revert r E. induction ns as [|y ns IH]; cbn [remove_first existsb]; [discriminate|].
  intros r. rewrite (String.eqb_sym x y).
  destruct (String.eqb y x); [reflexivity|].
  destruct (remove_first x ns) as [r'|]; [|discriminate].
  intros _. cbn [orb]. eapply IH. reflexivity.
Qed.

Lemma update_meta_run F L C var names ns ns' :
  L !! names = Some ns ->
  removed ns "Date" = inr ns' ->
  __update_meta_data var names (Store F L C)
  = Return var (Store F (<[names := ns']> L) C).
Proof.
  intros HL Hrem.
  destruct (update_meta_data_with_Date (Store F L C) var names ns HL
              (removed_contains _ _ _ Hrem)) as (r & Hr & Hrun).
  cbn [frames lists cache] in Hrun. rewrite Hrun.
  unfold removed in Hrem. rewrite Hr in Hrem. now injection Hrem as ->.
Qed.

End ListPrimitives.

Section Names.

Lemma last_char_cons c s : s <> EmptyString -> last_char (String c s) = last_char s.
Proof. destruct s; [congruence | reflexivity]. Qed.

Lemma append_nonempty a b : b <> EmptyString -> a +:+ b <> EmptyString.
Proof. intros Hb. destruct a; [exact Hb | simpl; discriminate]. Qed.

Lemma last_char_append a b : b <> EmptyString -> last_char (a +:+ b) = last_char b.
Proof.
  intros Hb. induction a as [|d a IH]; [reflexivity|].
  change (String d a +:+ b) with (String d (a +:+ b)).
  rewrite last_char_cons; [exact IH | now apply append_nonempty].
Qed.

End Names.

Ltac nonempty :=
  lazymatch goal with
  | |- String _ _ <> EmptyString => discriminate
  | |- (_ +:+ _) <> EmptyString => apply append_nonempty; nonempty
  end.

(** Two names differ: by their first characters, their lengths, or their
    last characters. *)
Ltac neq_strings :=
  cbn [String.append];
  first
    [ discriminate
    | congruence
    | let H := fresh in
      intros H; apply (f_equal String.length) in H;
      rewrite ?length_append in H; cbn [String.length] in H; lia
    | let H := fresh in
      intros H; apply (f_equal last_char) in H;
      repeat (rewrite last_char_append in H by nonempty);
      cbn [last_char] in H; congruence ].


Ltac norm_store :=
  repeat rewrite <- app_assoc;
  rewrite ?length_app;
  cbn [app length];
  rewrite ?insert_new, ?insert_new0, ?list_insert_insert_eq;
  cbn [insert list_insert].

Ltac solve_lookup :=
  first
    [ eassumption
    | apply lookup_app_l_Some; eassumption
    | rewrite lookup_new; reflexivity
    | rewrite lookup_new0; reflexivity ].

Ltac solve_list_lookup :=
  first
    [ eassumption
    | apply lookup_app_l_Some; eassumption
    | rewrite lookup_new0; reflexivity
    | apply list_lookup_insert_eq;
      first [ eapply lookup_lt_Some; eassumption
            | rewrite length_app; apply Nat.lt_lt_add_r;
              eapply lookup_lt_Some; eassumption ] ].

Ltac solve_get :=
  cbn [String.append];
  repeat (first [ rewrite get_setitem_eq
                | rewrite get_setitem_ne by neq_strings ]);
  first [ eassumption | reflexivity ].

(** Runs a computation made of primitives whose side conditions are among
    the hypotheses, one [bind] at a time. *)
Ltac run :=
  cbv beta iota;
  lazymatch goal with
  | |- bind _ _ _ = _ => erewrite bind_Return by run; norm_store; run
  | |- ret _ _ = _ => reflexivity
  | |- for_each _ _ _ = _ => cbn [for_each ohcl]; run
  | |- _ =>
      etransitivity;
      [ first
          [ apply fetch_run; eassumption
          | apply rename_run; solve_lookup
          | eapply convert_date_run; [solve_lookup | solve_get]
          | apply append_run; solve_list_lookup
          | eapply pd_merge_run; [solve_lookup | solve_lookup | eassumption]
          | eapply series_run; [solve_lookup | solve_get]
          | eapply difference_run; [solve_lookup | solve_get | solve_get]
          | apply assign_run; solve_lookup
          | apply fillna_run; solve_lookup
          | apply columns_of_run; solve_lookup
          | apply lift_run; eassumption
          | apply tolist_run; solve_lookup
          | eapply update_meta_run; [solve_list_lookup | eassumption]
          | eassumption ]
      | norm_store; reflexivity ]
  end.


Section SingleIndicators.

Lemma numeric_one g name : numeric g [name] = true -> exists xs, get g name = Some (Floats xs).
Proof.
  unfold numeric. cbn [forallb]. destruct (get g name) as [[xs|]|]; try discriminate.
  eauto.
Qed.

Lemma numeric_In g names name :
  numeric g names = true -> In name names -> exists xs, get g name = Some (Floats xs).
Proof.
  unfold numeric. rewrite forallb_forall. intros H Hin. specialize (H name Hin).
  destruct (get g name) as [[xs|]|]; try discriminate. eauto.
Qed.

Lemma not_in_left left right on name c :
  shares_only_key left right on = true ->
  get right name = Some c -> name <> on -> get left name = None.
Proof.
  intros Hshare Hget Hne. unfold shares_only_key in Hshare.
  rewrite forallb_forall in Hshare.
  destruct (get left name) eqn:E; [|reflexivity]. exfalso.
  assert (Hin : In name (columns left)).
  { apply has_column_In. now rewrite has_column_get, E. }
  specialize (Hshare name Hin).
  apply String.eqb_neq in Hne. rewrite Hne in Hshare. cbn [orb] in Hshare.
  apply negb_true_iff in Hshare. rewrite has_column_get, Hget in Hshare.
  discriminate.
Qed.

(** The indicator column of the joined table. *)
Lemma merged_indicator left right dl dr m name xs :
  get left "Date" = Some (Dates dl) ->
  get right "Date" = Some (Dates dr) ->
  shares_only_key left right "Date" = true ->
  merge left right "Date" = inr m ->
  get right name = Some (Floats xs) ->
  exists ys, get m name = Some (Floats ys).
Proof.
  intros Hl Hr Hshare Hm Hx.
  assert (Hne : name <> "Date") by (intros ->; congruence).
  rewrite (get_merged _ _ _ _ _ _ _ Hl Hr Hshare Hm).
  rewrite (not_in_left _ _ _ _ _ Hshare Hx Hne).
  apply String.eqb_neq in Hne. rewrite Hne, Hx. cbn [option_map take_rows]. eauto.
Qed.

Lemma merged_left_numeric left right dl dr m name xs :
  get left "Date" = Some (Dates dl) ->
  get right "Date" = Some (Dates dr) ->
  shares_only_key left right "Date" = true ->
  merge left right "Date" = inr m ->
  get left name = Some (Floats xs) ->
  exists ys, get m name = Some (Floats ys).
Proof.
  intros Hl Hr Hshare Hm Hx.
  rewrite (get_merged _ _ _ _ _ _ _ Hl Hr Hshare Hm), Hx.
  cbn [take_rows]. eauto.
Qed.

Lemma merge_total left right dl dr :
  get left "Date" = Some (Dates dl) ->
  get right "Date" = Some (Dates dr) ->
  shares_only_key left right "Date" = true ->
  exists m, merge left right "Date" = inr m.
Proof. intros Hl Hr Hs. rewrite (merge_on_dates _ _ _ _ _ Hl Hr Hs). eauto. Qed.

(** The proof shared by the four single indicator transforms. *)
Ltac single_indicator_run F L C f dl dr Hdl Hdr Hshare Hnum change :=
  let m := fresh "m" in
  let Hm := fresh "Hm" in
  let a := fresh "a" in
  let Ha := fresh "Ha" in
  let ys := fresh "ys" in
  let Hys := fresh "Hys" in
  destruct (merge_total f _ dl dr Hdl Hdr Hshare) as [m Hm];
  destruct (numeric_one _ _ Hnum) as [a Ha];
  destruct (merged_indicator f _ dl dr m _ a Hdl Hdr Hshare Hm Ha) as [ys Hys];
  exists (length F + 2), m;
  unfold with_change; rewrite Hys;
  destruct change;
    (eexists; split; [exact Hm|]; split;
     [ cbv beta delta [proc_add_adx proc_add_obv proc_add_mom proc_add_rsi]; run
     | cbn [frames lists cache];
       replace (S (length F + 2)) with (length F + 3) by lia;
       rewrite !lookup_new, <- ?app_assoc;
       repeat split; now apply lookup_app_l_Some ]).

Lemma adx_run s df f cont stock change t dl dr cv :
  frames s !! df = Some f ->
  lists s !! cont = Some cv ->
  cache s ADX stock None = inr t ->
  get f "Date" = Some (Dates dl) ->
  get (rename t "date" "Date") "Date" = Some (Dates dr) ->
  shares_only_key f (rename t "date" "Date") "Date" = true ->
  numeric (rename t "date" "Date") ["ADX"] = true ->
  exists r m s',
    merge f (rename t "date" "Date") "Date" = inr m
    /\ proc_add_adx df cont stock change s = Return r s'
    /\ frames s' !! r = Some (with_change change m "ADX" "ADX_CHANGE")
    /\ frames s' !! S r = Some (fillna0 (with_change change m "ADX" "ADX_CHANGE"))
    /\ frames s' !! df = Some f
    /\ cache s' = cache s
    /\ lists s'
       = <[cont := cv ++ (if change then ["ADX"; "ADX_CHANGE"] else ["ADX"])]> (lists s).
Proof.
  intros HF HL HC Hdl Hdr Hshare Hnum.
  destruct s as [F L C]; cbn [frames lists cache] in *.
  single_indicator_run F L C f dl dr Hdl Hdr Hshare Hnum change.
Qed.

Lemma obv_run s df f cont stock change t dl dr cv :
  frames s !! df = Some f ->
  lists s !! cont = Some cv ->
  cache s OBV stock None = inr t ->
  get f "Date" = Some (Dates dl) ->
  get (rename t "date" "Date") "Date" = Some (Dates dr) ->
  shares_only_key f (rename t "date" "Date") "Date" = true ->
  numeric (rename t "date" "Date") ["OBV"] = true ->
  exists r m s',
    merge f (rename t "date" "Date") "Date" = inr m
    /\ proc_add_obv df cont stock change s = Return r s'
    /\ frames s' !! r = Some (with_change change m "OBV" "OBV_CHANGE")
    /\ frames s' !! S r = Some (fillna0 (with_change change m "OBV" "OBV_CHANGE"))
    /\ frames s' !! df = Some f
    /\ cache s' = cache s
    /\ lists s'
       = <[cont := cv ++ (if change then ["OBV"; "OBV_CHANGE"] else ["OBV"])]> (lists s).
Proof.
  intros HF HL HC Hdl Hdr Hshare Hnum.
  destruct s as [F L C]; cbn [frames lists cache] in *.
  single_indicator_run F L C f dl dr Hdl Hdr Hshare Hnum change.
Qed.

Lemma mom_run s df f cont stock change t dl dr cv :
  frames s !! df = Some f ->
  lists s !! cont = Some cv ->
  cache s MOM stock None = inr t ->
  get f "Date" = Some (Dates dl) ->
  get (rename t "date" "Date") "Date" = Some (Dates dr) ->
  shares_only_key f (rename t "date" "Date") "Date" = true ->
  numeric (rename t "date" "Date") ["MOM"] = true ->
  exists r m s',
    merge f (rename t "date" "Date") "Date" = inr m
    /\ proc_add_mom df stock cont change s = Return r s'
    /\ frames s' !! r = Some (with_change change m "MOM" "MOM-pct")
    /\ frames s' !! S r = Some (fillna0 (with_change change m "MOM" "MOM-pct"))
    /\ frames s' !! df = Some f
    /\ cache s' = cache s
    /\ lists s'
       = <[cont := cv ++ (if change then ["MOM"; "MOM-pct"] else ["MOM"])]> (lists s).
Proof.
  intros HF HL HC Hdl Hdr Hshare Hnum.
  destruct s as [F L C]; cbn [frames lists cache] in *.
  single_indicator_run F L C f dl dr Hdl Hdr Hshare Hnum change.
Qed.

Lemma rsi_run s df f cont stock change t dl dr cv :
  frames s !! df = Some f ->
  lists s !! cont = Some cv ->
  cache s RSI stock None = inr t ->
  get f "Date" = Some (Dates dl) ->
  get (rename t "date" "Date") "Date" = Some (Dates dr) ->
  shares_only_key f (rename t "date" "Date") "Date" = true ->
  numeric (rename t "date" "Date") ["RSI"] = true ->
  exists r m s',
    merge f (rename t "date" "Date") "Date" = inr m
    /\ proc_add_rsi df cont stock change s = Return r s'
    /\ frames s' !! r = Some (with_change change m "RSI" "RSI_CHANGE")
    /\ frames s' !! S r = Some (fillna0 (with_change change m "RSI" "RSI_CHANGE"))
    /\ frames s' !! df = Some f
    /\ cache s' = cache s
    /\ lists s'
       = <[cont := cv ++ (if change then ["RSI"; "RSI_CHANGE"] else ["RSI"])]> (lists s).
Proof.
  intros HF HL HC Hdl Hdr Hshare Hnum.
  destruct s as [F L C]; cbn [frames lists cache] in *.
  single_indicator_run F L C f dl dr Hdl Hdr Hshare Hnum change.
Qed.

End SingleIndicators.

Section MovingAverage.

Lemma load_moving_avg_run F L C stock mov_avg tp t dr :
  C (moving_average_kind mov_avg) stock (Some tp) = inr t ->
  get t "date" = Some (Dates dr) ->
  __load_moving_avg stock mov_avg tp (Store F L C)
  = Return (length F) (Store (F ++ [t]) L C).
Proof.
  intros HC Hd. unfold __load_moving_avg.
  erewrite bind_Return by (apply fetch_run; eassumption).
  erewrite bind_Return by (apply frame_of_run; rewrite lookup_new0; reflexivity).
  unfold getitem. rewrite Hd. cbn [lift to_datetime].
  rewrite (bind_Return _ _ _ (Dates dr) (Store (F ++ [t]) L C)) by reflexivity.
  rewrite (bind_Return _ _ _ (Dates dr) (Store (F ++ [t]) L C)) by reflexivity.
  rewrite (setitem_same t "date" (Dates dr) Hd).
  unfold bind, put_frame, ret. cbn [frames lists cache].
  rewrite insert_new0. reflexivity.
Qed.

Lemma moving_average_table_inv t mov_avg tp :
  numeric (moving_average_table t mov_avg tp) [moving_average_column mov_avg tp] = true ->
  exists xs,
    get (rename (rename t "date" "Date") (upper mov_avg)
           (moving_average_column mov_avg tp))
        (moving_average_column mov_avg tp) = Some (Floats xs)
    /\ moving_average_table t mov_avg tp
       = setitem (rename (rename t "date" "Date") (upper mov_avg)
                    (moving_average_column mov_avg tp))
           (moving_average_column mov_avg tp +:+ "_CHANGE") (Floats (pct_change xs)).
Proof.
  intros Hnum. apply numeric_one in Hnum as [ys Hys].
  unfold moving_average_table in *. cbv zeta in *.
  set (p2 := rename (rename t "date" "Date") (upper mov_avg)
               (moving_average_column mov_avg tp)) in *.
  destruct (get p2 (moving_average_column mov_avg tp)) as [[xs|ds]|] eqn:E;
    try congruence.
  exists xs. split; reflexivity.
Qed.

Lemma mov_avg_run s df f cont stock mov_avg tp add_diff diff_col add_ohlc_diff
    t dl dr cv :
  let col_name := moving_average_column mov_avg tp in
  let p := moving_average_table t mov_avg tp in
  frames s !! df = Some f ->
  lists s !! cont = Some cv ->
  cache s (moving_average_kind mov_avg) stock (Some tp) = inr t ->
  get t "date" = Some (Dates dr) ->
  get f "Date" = Some (Dates dl) ->
  get p "Date" = Some (Dates dr) ->
  shares_only_key f p "Date" = true ->
  numeric p [col_name] = true ->
  numeric f (diff_col :: ohcl) = true ->
  exists r m s' out,
    merge f p "Date" = inr m
    /\ proc_add_mov_avg df cont stock mov_avg tp "Date" add_diff diff_col add_ohlc_diff s
       = Return r s'
    /\ frames s' !! r = Some out
    /\ get out "Date" = get m "Date"
    /\ get out (col_name +:+ "_CHANGE") = get m (col_name +:+ "_CHANGE")
    /\ frames s' !! df = Some f
    /\ cache s' = cache s
    /\ lists s'
       = <[cont := cv ++ [col_name; col_name +:+ "_CHANGE"]
                      ++ diff_names add_diff diff_col add_ohlc_diff col_name]> (lists s)
    /\ forall name,
         ~ In name (diff_names add_diff diff_col add_ohlc_diff col_name) ->
         get out name = get m name.
Proof.
  intros col_name p HF HL HC Hd Hdl Hdr Hshare Hnum Hf.
  destruct (merge_total f p dl dr Hdl Hdr Hshare) as [m Hm].
  destruct (moving_average_table_inv t mov_avg tp Hnum) as (xs & Hxs & Hp).
  fold col_name in Hxs, Hp. fold p in Hp.
  destruct (numeric_one _ _ Hnum) as [a Ha].
  destruct (merged_indicator f p dl dr m _ a Hdl Hdr Hshare Hm Ha) as [ma Hma].
  destruct (numeric_In f _ diff_col Hf) as [xd Hxd]; [now left|].
  destruct (numeric_In f _ "Open" Hf) as [xo Hxo]; [right; now left|].
  destruct (numeric_In f _ "High" Hf) as [xh Hxh]; [right; right; now left|].
  destruct (numeric_In f _ "Low" Hf) as [xl Hxl]; [do 3 right; now left|].
  destruct (numeric_In f _ "Close" Hf) as [xc Hxc]; [do 4 right; now left|].
  destruct (merged_left_numeric f p dl dr m _ _ Hdl Hdr Hshare Hm Hxd) as [md Hmd].
  destruct (merged_left_numeric f p dl dr m _ _ Hdl Hdr Hshare Hm Hxo) as [mo Hmo].
  destruct (merged_left_numeric f p dl dr m _ _ Hdl Hdr Hshare Hm Hxh) as [mh Hmh].
  destruct (merged_left_numeric f p dl dr m _ _ Hdl Hdr Hshare Hm Hxl) as [ml Hml].
  destruct (merged_left_numeric f p dl dr m _ _ Hdl Hdr Hshare Hm Hxc) as [mc Hmc].
  destruct s as [F L C]; cbn [frames lists cache] in *.
  pose proof (load_moving_avg_run F L C stock mov_avg tp t dr HC Hd) as Hload.
  pose proof Hm as Hm'. rewrite Hp in Hm'.
  assert (Hdr' : get (rename (rename t "date" "Date") (upper mov_avg) col_name) "Date"
                 = Some (Dates dr)).
  { rewrite Hp in Hdr. rewrite get_setitem_ne in Hdr by neq_strings. exact Hdr. }
  exists (length F + 4), m.
  unfold diff_names.
  destruct add_diff; [|destruct add_ohlc_diff].
  - do 2 eexists. split; [exact Hm|]. split.
    { unfold proc_add_mov_avg. fold col_name. run. }
    cbn [frames lists cache]. rewrite !lookup_new, <- ?app_assoc. cbn [lookup list_lookup].
    split; [reflexivity|]. split; [solve_get|]. split; [solve_get|].
    split; [now apply lookup_app_l_Some|]. split; [reflexivity|]. split; [reflexivity|].
    intros name Hname. cbn [In map ohcl flat_map app] in Hname.
    rewrite !get_setitem_ne by (intros E; apply Hname; subst name; tauto).
    reflexivity.
  - do 2 eexists. split; [exact Hm|]. split.
    { unfold proc_add_mov_avg. fold col_name. run. }
    cbn [frames lists cache]. rewrite !lookup_new, <- ?app_assoc. cbn [lookup list_lookup].
    split; [reflexivity|]. split; [solve_get|]. split; [solve_get|].
    split; [now apply lookup_app_l_Some|]. split; [reflexivity|]. split; [reflexivity|].
    intros name Hname. cbn [In map ohcl flat_map app] in Hname.
    rewrite !get_setitem_ne by (intros E; apply Hname; subst name; tauto).
    reflexivity.
  - do 2 eexists. split; [exact Hm|]. split.
    { unfold proc_add_mov_avg. fold col_name. run. }
    cbn [frames lists cache]. rewrite !lookup_new, <- ?app_assoc. cbn [lookup list_lookup].
    split; [reflexivity|]. split; [reflexivity|]. split; [reflexivity|].
    repeat split;
      first [now apply lookup_app_l_Some | now rewrite app_nil_r].
Qed.

End MovingAverage.


Section BandsAndMacd.

Lemma columns_rename g old new :
  columns (rename g old new)
  = map (fun n => if String.eqb n old then new else n) (columns g).
Proof. unfold columns, rename. rewrite !map_map. reflexivity. Qed.

Lemma macd_run s df f cont stock t dl dr cv :
  let p := rename t "date" "Date" in
  frames s !! df = Some f ->
  lists s !! cont = Some cv ->
  cache s MACD stock None = inr t ->
  get f "Date" = Some (Dates dl) ->
  get p "Date" = Some (Dates dr) ->
  shares_only_key f p "Date" = true ->
  columns p = ["Date"; "MACD"; "MACD_Signal"; "MACD_Hist"] ->
  numeric p ["MACD"; "MACD_Signal"; "MACD_Hist"] = true ->
  exists r m s' out,
    merge f p "Date" = inr m
    /\ proc_add_macd df cont stock s = Return r s'
    /\ frames s' !! r = Some out
    /\ get out "Date" = get m "Date"
    /\ frames s' !! df = Some f
    /\ cache s' = cache s
    /\ lists s'
       = <[cont := cv ++ ["MACD"; "MACD_Signal"; "MACD_Hist"; "MACD_SIGN_DIFF";
                          "MACD_Change"; "MACD_Signal_Change"; "MACD_Hist_Change"]]>
           (lists s)
    /\ forall name,
         ~ In name ["MACD_SIGN_DIFF"; "MACD_Change"; "MACD_Signal_Change";
                    "MACD_Hist_Change"] ->
         get out name = get m name.
Proof.
  intros p HF HL HC Hdl Hdr Hshare Hcols Hnum.
  destruct (merge_total f p dl dr Hdl Hdr Hshare) as [m Hm].
  destruct (numeric_In p _ "MACD" Hnum) as [x1 Hx1]; [now left|].
  destruct (numeric_In p _ "MACD_Signal" Hnum) as [x2 Hx2]; [right; now left|].
  destruct (numeric_In p _ "MACD_Hist" Hnum) as [x3 Hx3]; [do 2 right; now left|].
  destruct (merged_indicator f p dl dr m _ _ Hdl Hdr Hshare Hm Hx1) as [m1 Hm1].
  destruct (merged_indicator f p dl dr m _ _ Hdl Hdr Hshare Hm Hx2) as [m2 Hm2].
  destruct (merged_indicator f p dl dr m _ _ Hdl Hdr Hshare Hm Hx3) as [m3 Hm3].
  assert (Hrem : removed (columns p) "Date" = inr ["MACD"; "MACD_Signal"; "MACD_Hist"]).
  { rewrite Hcols. reflexivity. }
  destruct s as [F L C]; cbn [frames lists cache] in *.
  exists (length F + 2), m. do 2 eexists.
  split; [exact Hm|]. split.
  { unfold proc_add_macd. fold p. run. }
  cbn [frames lists cache]. rewrite !lookup_new, <- ?app_assoc. cbn [lookup list_lookup].
  split; [reflexivity|]. split; [solve_get|].
  split; [now apply lookup_app_l_Some|]. split; [reflexivity|]. split; [reflexivity|].
  intros name Hname. cbn [In map ohcl flat_map app] in Hname.
  rewrite !get_setitem_ne by (intros E; apply Hname; subst name; tauto).
  reflexivity.
Qed.


Lemma bband_run s df f cont stock add_diff_to_bb diff_col add_ohlc_diff t dl dr cv :
  let p := rename (rename (rename (rename t "Real Upper Band" "BB_UP")
                             "Real Middle Band" "BB_MID")
                     "Real Lower Band" "BB_LOW") "date" "Date" in
  frames s !! df = Some f ->
  lists s !! cont = Some cv ->
  cache s BBANDS stock None = inr t ->
  get f "Date" = Some (Dates dl) ->
  get p "Date" = Some (Dates dr) ->
  shares_only_key f p "Date" = true ->
  columns p = ["Date"; "BB_UP"; "BB_MID"; "BB_LOW"] ->
  numeric p ["BB_UP"; "BB_MID"; "BB_LOW"] = true ->
  numeric f (diff_col :: ohcl) = true ->
  exists r m s' out,
    merge f p "Date" = inr m
    /\ proc_add_bband df cont stock "Date" add_diff_to_bb diff_col add_ohlc_diff s
       = Return r s'
    /\ frames s' !! r = Some out
    /\ get out "Date" = get m "Date"
    /\ frames s' !! df = Some f
    /\ cache s' = cache s
    /\ lists s'
       = <[cont := cv
                   ++ (if add_diff_to_bb
                       then ["Close_BB_UP_Diff"; "Close_BB_MID_Diff"; "Close_BB_LOW_Diff"]
                       else if add_ohlc_diff
                            then flat_map (fun b => map (fun c => c +:+ "_" +:+ b +:+ "_Diff") ohcl)
                                   ["BB_UP"; "BB_MID"; "BB_LOW"]
                            else [])]>
           (lists s ++ [["BB_UP"; "BB_MID"; "BB_LOW"]])
    /\ forall name,
         ~ In name (if add_diff_to_bb
                    then ["Close_BB_UP_Diff"; "Close_BB_MID_Diff"; "Close_BB_LOW_Diff"]
                    else if add_ohlc_diff
                         then flat_map
                                (fun b => map (fun c => c +:+ "_" +:+ b +:+ "_Diff") ohcl)
                                ["BB_UP"; "BB_MID"; "BB_LOW"]
                         else []) ->
         get out name = get m name.
Proof.
  intros p HF HL HC Hdl Hdr Hshare Hcols Hnum Hf.
  destruct (merge_total f p dl dr Hdl Hdr Hshare) as [m Hm].
  destruct (numeric_In p _ "BB_UP" Hnum) as [x1 Hx1]; [now left|].
  destruct (numeric_In p _ "BB_MID" Hnum) as [x2 Hx2]; [right; now left|].
  destruct (numeric_In p _ "BB_LOW" Hnum) as [x3 Hx3]; [do 2 right; now left|].
  destruct (merged_indicator f p dl dr m _ _ Hdl Hdr Hshare Hm Hx1) as [m1 Hm1].
  destruct (merged_indicator f p dl dr m _ _ Hdl Hdr Hshare Hm Hx2) as [m2 Hm2].
  destruct (merged_indicator f p dl dr m _ _ Hdl Hdr Hshare Hm Hx3) as [m3 Hm3].
  destruct (numeric_In f _ diff_col Hf) as [xd Hxd]; [now left|].
  destruct (numeric_In f _ "Open" Hf) as [xo Hxo]; [right; now left|].
  destruct (numeric_In f _ "High" Hf) as [xh Hxh]; [right; right; now left|].
  destruct (numeric_In f _ "Low" Hf) as [xl Hxl]; [do 3 right; now left|].
  destruct (numeric_In f _ "Close" Hf) as [xc Hxc]; [do 4 right; now left|].
  destruct (merged_left_numeric f p dl dr m _ _ Hdl Hdr Hshare Hm Hxd) as [md Hmd].
  destruct (merged_left_numeric f p dl dr m _ _ Hdl Hdr Hshare Hm Hxo) as [mo Hmo].
  destruct (merged_left_numeric f p dl dr m _ _ Hdl Hdr Hshare Hm Hxh) as [mh Hmh].
  destruct (merged_left_numeric f p dl dr m _ _ Hdl Hdr Hshare Hm Hxl) as [ml Hml].
  destruct (merged_left_numeric f p dl dr m _ _ Hdl Hdr Hshare Hm Hxc) as [mc Hmc].
  assert (Hrem : removed (columns p) "Date" = inr ["BB_UP"; "BB_MID"; "BB_LOW"]).
  { rewrite Hcols. reflexivity. }
  destruct s as [F L C]; cbn [frames lists cache] in *.
  exists (length F + 5), m.
  destruct add_diff_to_bb; [|destruct add_ohlc_diff].
  - destruct (string_dec diff_col "Close_BB_UP_Diff") as [->|N1];
      [|destruct (string_dec diff_col "Close_BB_MID_Diff") as [->|N2]];
      (do 2 eexists; split; [exact Hm|]; split;
       [ unfold proc_add_bband, DBG; fold p; run
       | cbn [frames lists cache]; rewrite !lookup_new, <- ?app_assoc;
         cbn [lookup list_lookup];
         split; [reflexivity|]; split; [solve_get|];
         split; [now apply lookup_app_l_Some|]; split; [reflexivity|];
         split; [reflexivity|];
         intros name Hname; cbn [In] in Hname;
         rewrite !get_setitem_ne by (intros E; apply Hname; subst name; tauto);
         reflexivity ]).
  - do 2 eexists. split; [exact Hm|]. split.
    { unfold proc_add_bband, DBG. fold p. run. }
    cbn [frames lists cache]. rewrite !lookup_new, <- ?app_assoc. cbn [lookup list_lookup].
    split; [reflexivity|]. split; [solve_get|].
    split; [now apply lookup_app_l_Some|]. split; [reflexivity|]. split; [reflexivity|].
    intros name Hname. cbn [In map ohcl flat_map app] in Hname.
    rewrite !get_setitem_ne by (intros E; apply Hname; subst name; tauto).
    reflexivity.
  - do 2 eexists. split; [exact Hm|]. split.
    { unfold proc_add_bband, DBG. fold p. run. }
    cbn [frames lists cache]. rewrite !lookup_new, <- ?app_assoc. cbn [lookup list_lookup].
    split; [reflexivity|]. split; [reflexivity|].
    repeat split; [now apply lookup_app_l_Some|].
    rewrite app_nil_r. symmetry. rewrite insert_app_l by (eapply lookup_lt_Some; eauto).
    now rewrite (list_insert_id L cont cv HL).
Qed.

End BandsAndMacd.
(** ** Every indicator transform joins on the dates *)

Section InnerJoin.

Import Pipeline Indicators.

Lemma get_with_change change m col chg name :
  chg <> name -> get (with_change change m col chg) name = get m name.
Proof.
  intros Hne. unfold with_change. destruct change; [|reflexivity].
  destruct (get m col) as [[xs|ds]|]; try reflexivity.
  now apply get_setitem_ne.
Qed.

Lemma common_dates_In dl dr d :
  In d (common_dates dl dr) <-> In d dl /\ In d dr.
Proof.
  unfold common_dates. rewrite filter_In, existsb_exists. split.
  - intros [Hl (x & Hx & E)]. apply Z.eqb_eq in E. subst x. now split.
  - intros [Hl Hr]. split; [exact Hl|]. exists d. split; [exact Hr | apply Z.eqb_refl].
Qed.

Lemma size_take_rows idx c : size (take_rows idx c) = length idx.
Proof. destruct c; cbn [take_rows size]; apply length_map. Qed.

Lemma joined_count (dl dr : list Z) :
  List.NoDup dr ->
  length (join_pairs Z.eqb dl dr 0) = length (common_dates dl dr).
Proof.
  intros Hnd. rewrite <- (joined_dates_unique dl dr Hnd).
  now rewrite !length_map.
Qed.

Lemma merged_sizes left right dl dr m name c :
  get left "Date" = Some (Dates dl) ->
  get right "Date" = Some (Dates dr) ->
  shares_only_key left right "Date" = true ->
  List.NoDup dr ->
  merge left right "Date" = inr m ->
  get m name = Some c ->
  size c = length (common_dates dl dr).
Proof.
  intros Hl Hr Hshare Hnd Hm Hc.
  rewrite (get_merged _ _ _ _ _ _ _ Hl Hr Hshare Hm) in Hc.
  rewrite <- (joined_count dl dr Hnd).
  destruct (get left name) as [c'|].
  - injection Hc as <-. now rewrite size_take_rows, length_map.
  - destruct (String.eqb name "Date"); [discriminate|].
    destruct (get right name) as [c'|]; [|discriminate].
    injection Hc as <-. now rewrite size_take_rows, length_map.
Qed.

Lemma returning_run (m : M df_ref) s r s' :
  m s = Return r s' -> returning m s = Return (Some r) s'.
Proof. intros H. unfold returning. now rewrite (bind_Return _ _ _ _ _ H). Qed.

Lemma ready_mov_avg_dates t p (b : bool) :
  match get t "date", get p "Date" with
  | Some (Dates a), Some (Dates b) => bool_decide (a = b)
  | _, _ => false
  end = true ->
  forall dr, get p "Date" = Some (Dates dr) -> get t "date" = Some (Dates dr).
Proof.
  intros H dr Hp. rewrite Hp in H.
  destruct (get t "date") as [[xs|a]|]; try discriminate.
  apply bool_decide_eq_true in H. now subst.
Qed.

Lemma get_with_change_other change m col chg name :
  ~ In name (if (change : bool) then [chg] else []) ->
  get (with_change change m col chg) name = get m name.
Proof.
  destruct change; [|reflexivity]. intros Hn.
  apply get_with_change. intros ->. apply Hn. now left.
Qed.

Lemma indicator_join_run c s kind ticker period t f cv dl dr :
  fetch_of c = Some (kind, ticker, period) ->
  cache s kind ticker period = inr t ->
  frames s !! table_of c = Some f ->
  lists s !! cont_vars_of c = Some cv ->
  get f "Date" = Some (Dates dl) ->
  get (prepared c t) "Date" = Some (Dates dr) ->
  shares_only_key f (prepared c t) "Date" = true ->
  ready c t f = true ->
  exists r s' out m,
    run c s = Return (Some r) s'
    /\ frames s' !! r = Some out
    /\ merge f (prepared c t) "Date" = inr m
    /\ get out "Date" = get m "Date"
    /\ frames s' !! table_of c = Some f
    /\ forall name, ~ In name (written_after_join c t) -> get out name = get m name.
Proof.
  intros Hfetch HC HF HL Hdl Hdr Hshare Hready.
  destruct c; cbn [fetch_of] in Hfetch; try discriminate;
    injection Hfetch as <- <- <-;
    cbn [table_of cont_vars_of prepared ready] in *.
  - destruct (adx_run s df f cont_vars stock change t dl dr cv HF HL HC Hdl Hdr Hshare Hready)
      as (r & m & s' & Hm & Hrun & Hr & _ & Hf & _).
    exists r, s', (with_change change m "ADX" "ADX_CHANGE"), m.
    split; [now apply returning_run|].
    repeat split; auto; [apply get_with_change; discriminate|].
    intros name Hn. apply get_with_change_other. now destruct change.
  - destruct (obv_run s df f cont_vars stock change t dl dr cv HF HL HC Hdl Hdr Hshare Hready)
      as (r & m & s' & Hm & Hrun & Hr & _ & Hf & _).
    exists r, s', (with_change change m "OBV" "OBV_CHANGE"), m.
    split; [now apply returning_run|].
    repeat split; auto; [apply get_with_change; discriminate|].
    intros name Hn. apply get_with_change_other. now destruct change.
  - destruct (mom_run s df f cont_vars stock change t dl dr cv HF HL HC Hdl Hdr Hshare Hready)
      as (r & m & s' & Hm & Hrun & Hr & _ & Hf & _).
    exists r, s', (with_change change m "MOM" "MOM-pct"), m.
    split; [now apply returning_run|].
    repeat split; auto; [apply get_with_change; discriminate|].
    intros name Hn. apply get_with_change_other. now destruct change.
  - destruct (rsi_run s df f cont_vars stock change t dl dr cv HF HL HC Hdl Hdr Hshare Hready)
      as (r & m & s' & Hm & Hrun & Hr & _ & Hf & _).
    exists r, s', (with_change change m "RSI" "RSI_CHANGE"), m.
    split; [now apply returning_run|].
    repeat split; auto; [apply get_with_change; discriminate|].
    intros name Hn. apply get_with_change_other. now destruct change.
  - apply andb_prop in Hready as [Hready Hf].
    apply andb_prop in Hready as [Hready Hnum].
    apply andb_prop in Hready as [Hon Hcols].
    apply String.eqb_eq in Hon. subst merge_on.
    apply bool_decide_eq_true in Hcols.
    destruct (bband_run s df f cont_vars stock add_diff_to_bb diff_col add_ohlc_diff
                t dl dr cv HF HL HC Hdl Hdr Hshare Hcols Hnum Hf)
      as (r & m & s' & out & Hm & Hrun & Hr & Hd & Hf' & _ & _ & Hother).
    exists r, s', out, m. split; [now apply returning_run|].
    repeat split; auto.
    intros name Hn. apply Hother.
    unfold written_after_join, indicator_names in Hn. cbn [prepared] in Hn.
    rewrite Hcols in Hn. exact Hn.
  - apply andb_prop in Hready as [Hcols Hnum].
    apply bool_decide_eq_true in Hcols.
    destruct (macd_run s df f cont_vars stock t dl dr cv HF HL HC Hdl Hdr Hshare Hcols Hnum)
      as (r & m & s' & out & Hm & Hrun & Hr & Hd & Hf' & _ & _ & Hother).
    exists r, s', out, m. split; [now apply returning_run|].
    repeat split; auto.
    intros name Hn. apply Hother.
    unfold written_after_join, indicator_names in Hn. cbn [prepared] in Hn.
    rewrite Hcols in Hn. exact Hn.
  - apply andb_prop in Hready as [Hready Hf].
    apply andb_prop in Hready as [Hready Hnum].
    apply andb_prop in Hready as [Hon Hdates].
    apply String.eqb_eq in Hon. subst merge_on.
    pose proof (ready_mov_avg_dates _ _ true Hdates dr Hdr) as Hd0.
    destruct (mov_avg_run s df f cont_vars stock mov_avg time_period add_diff diff_col
                add_ohlc_diff t dl dr cv HF HL HC Hd0 Hdl Hdr Hshare Hnum Hf)
      as (r & m & s' & out & Hm & Hrun & Hr & Hd & _ & Hf' & _ & _ & Hother).
    exists r, s', out, m. split; [now apply returning_run|]. repeat split; auto.
Qed.

(** The cells of the rows a join takes from a table. *)
Lemma values_take_rows idx c k i v :
  idx !! k = Some i -> values c !! i = Some v ->
  values (take_rows idx c) !! k = Some v.
Proof.
  intros Hk Hv. destruct c as [xs|ds]; cbn [take_rows values] in *.
  - rewrite list_lookup_fmap, Hk. cbn [fmap option_fmap option_map].
    now rewrite Hv.
  - rewrite !list_lookup_fmap, Hk in *. cbn [fmap option_fmap option_map] in *.
    destruct (ds !! i) as [d|]; [|discriminate]. exact Hv.
Qed.

Lemma values_in_range c i : i < size c -> exists v, values c !! i = Some v.
Proof.
  intros Hi. apply lookup_lt_is_Some_2. now rewrite length_values.
Qed.

(** C7. Every indicator transform (ADX, OBV, MOM, RSI, Bollinger bands,
    MACD, moving average) returns the inner join of the price table and
    the indicator table on the date.  The "Date" column of the result is
    exactly the dates of the price table that also occur in the
    indicator table: the join raises nothing, a date of one table only is
    dropped, every column of the joined table has as many rows as there
    are common dates, and for dates [d1;d2;d3] against [d2;d3;d4] the
    result holds [d2;d3].  Row by row: row [k] of the result is made of
    one row [i] of the price table and one row [j] of the indicator
    table that carry the same date, and every column of the result that
    the transform does not write after the join holds in row [k] the
    cell of its price column in row [i], or of its indicator column in
    row [j]; so no row is padded with missing values. *)
Theorem indicator_transforms_inner_join c s kind ticker period t f cv dl dr :
  fetch_of c = Some (kind, ticker, period) ->
  cache s kind ticker period = inr t ->
  frames s !! table_of c = Some f ->
  lists s !! cont_vars_of c = Some cv ->
  get f "Date" = Some (Dates dl) ->
  get (prepared c t) "Date" = Some (Dates dr) ->
  List.NoDup dr ->
  shares_only_key f (prepared c t) "Date" = true ->
  ready c t f = true ->
  rectangular f = true ->
  rectangular (prepared c t) = true ->
  exists r s' out m rows,
    run c s = Return (Some r) s'
    /\ frames s' !! r = Some out
    /\ get out "Date" = Some (Dates (common_dates dl dr))
    /\ (forall d, In d (common_dates dl dr) <-> In d dl /\ In d dr)
    /\ merge f (prepared c t) "Date" = inr m
    /\ (forall name col, get m name = Some col ->
          size col = length (common_dates dl dr))
    /\ (forall d1 d2 d3 d4,
          dl = [d1; d2; d3] -> dr = [d2; d3; d4] -> ~ In d1 dr ->
          get out "Date" = Some (Dates [d2; d3]))
    /\ length rows = length (common_dates dl dr)
    /\ (forall k i j, rows !! k = Some (i, j) ->
          exists d, dl !! i = Some d /\ dr !! j = Some d
                    /\ common_dates dl dr !! k = Some d)
    /\ (forall name col,
          get f name = Some col -> ~ In name (written_after_join c t) ->
          exists col',
            get out name = Some col'
            /\ forall k i j, rows !! k = Some (i, j) ->
                 exists v, values col !! i = Some v /\ values col' !! k = Some v)
    /\ (forall name col,
          name <> "Date" -> get (prepared c t) name = Some col ->
          ~ In name (written_after_join c t) ->
          exists col',
            get out name = Some col'
            /\ forall k i j, rows !! k = Some (i, j) ->
                 exists v, values col !! j = Some v /\ values col' !! k = Some v).
Proof.
  intros Hfetch HC HF HL Hdl Hdr Hnd Hshare Hready Hrf Hrp.
  destruct (indicator_join_run c s kind ticker period t f cv dl dr
              Hfetch HC HF HL Hdl Hdr Hshare Hready)
    as (r & s' & out & m & Hrun & Hr & Hm & Hd & _ & Hother).
  pose proof (merged_dates _ _ _ _ _ Hdl Hdr Hshare Hnd Hm) as Hdates.
  set (rows := join_pairs Z.eqb dl dr 0).
  assert (Hrows : forall k i j, rows !! k = Some (i, j) ->
            exists d, dl !! i = Some d /\ dr !! j = Some d
                      /\ common_dates dl dr !! k = Some d).
  { intros k i j Hk.
    pose proof Hk as Hin.
    apply list_elem_of_lookup_2, list_elem_of_In, join_pairs_sound in Hin
      as (d & _ & Hl & Hr').
    rewrite Nat.sub_0_r in Hl. exists d. split; [exact Hl|]. split; [exact Hr'|].
    rewrite <- (joined_dates_unique dl dr Hnd). fold rows.
    rewrite !list_lookup_fmap, Hk. cbn [fmap option_fmap option_map fst].
    now rewrite Hl. }
  exists r, s', out, m, rows.
  split; [exact Hrun|]. split; [exact Hr|].
  split; [now rewrite Hd|].
  split; [intros d; apply common_dates_In|].
  split; [exact Hm|].
  split; [intros name col; now apply (merged_sizes f (prepared c t))|].
  split.
  { intros d1 d2 d3 d4 -> -> Hnot. rewrite Hd, Hdates. do 2 f_equal.
    unfold common_dates. cbn [List.filter existsb].
    rewrite !Z.eqb_refl. cbn [orb].
    replace (d3 =? d2)%Z with false; cbn [orb].
    2:{ symmetry. apply Z.eqb_neq. intros ->. inversion Hnd as [|? ? Hn _]; subst.
        apply Hn. now left. }
    destruct (Z.eqb_spec d1 d2) as [->|_]; [exfalso; apply Hnot; now left|].
    destruct (Z.eqb_spec d1 d3) as [->|_]; [exfalso; apply Hnot; right; now left|].
    destruct (Z.eqb_spec d1 d4) as [->|_]; [exfalso; apply Hnot; do 2 right; now left|].
    reflexivity. }
  split; [now apply joined_count|].
  split; [exact Hrows|].
  split.
  - intros name col Hcol Hn. eexists. split.
    + rewrite (Hother name Hn).
      rewrite (get_merged _ _ _ _ _ _ _ Hdl Hdr Hshare Hm), Hcol. reflexivity.
    + intros k i j Hk. destruct (Hrows k i j Hk) as (d & Hl & _ & _).
      destruct (values_in_range col i) as [v Hv].
      { rewrite (rectangular_size f name col Hrf Hcol).
        rewrite <- (rectangular_size f "Date" _ Hrf Hdl). cbn [size].
        eapply lookup_lt_Some; eauto. }
      exists v. split; [exact Hv|].
      apply (values_take_rows _ col k i v); [|exact Hv].
      fold rows. now rewrite list_lookup_fmap, Hk.
  - intros name col Hne Hcol Hn. eexists. split.
    + rewrite (Hother name Hn).
      rewrite (get_merged _ _ _ _ _ _ _ Hdl Hdr Hshare Hm).
      rewrite (not_in_left _ _ _ _ _ Hshare Hcol Hne).
      apply String.eqb_neq in Hne. rewrite Hne, Hcol. reflexivity.
    + intros k i j Hk. destruct (Hrows k i j Hk) as (d & _ & Hr' & _).
      destruct (values_in_range col j) as [v Hv].
      { rewrite (rectangular_size _ name col Hrp Hcol).
        rewrite <- (rectangular_size _ "Date" _ Hrp Hdr). cbn [size].
        eapply lookup_lt_Some; eauto. }
      exists v. split; [exact Hv|].
      apply (values_take_rows _ col k j v); [|exact Hv].
      fold rows. now rewrite list_lookup_fmap, Hk.
Qed.

Lemma indicator_transforms_inner_join_witness :
  exists r s' out m rows,
    run (add_adx 0 0 "MSFT" true) (indicator_store three_days_adx) = Return (Some r) s'
    /\ frames s' !! r = Some out
    /\ get out "Date" = Some (Dates (common_dates [1; 2; 3]%Z [2; 3; 4]%Z))
    /\ (forall d, In d (common_dates [1; 2; 3]%Z [2; 3; 4]%Z)
                  <-> In d [1; 2; 3]%Z /\ In d [2; 3; 4]%Z)
    /\ merge three_days (prepared (add_adx 0 0 "MSFT" true) three_days_adx) "Date" = inr m
    /\ (forall name col, get m name = Some col ->
          size col = length (common_dates [1; 2; 3]%Z [2; 3; 4]%Z))
    /\ (forall d1 d2 d3 d4,
          [1; 2; 3]%Z = [d1; d2; d3] -> [2; 3; 4]%Z = [d2; d3; d4] ->
          ~ In d1 [2; 3; 4]%Z ->
          get out "Date" = Some (Dates [d2; d3]))
    /\ length rows = length (common_dates [1; 2; 3]%Z [2; 3; 4]%Z)
    /\ (forall k i j, rows !! k = Some (i, j) ->
          exists d, [1; 2; 3]%Z !! i = Some d /\ [2; 3; 4]%Z !! j = Some d
                    /\ common_dates [1; 2; 3]%Z [2; 3; 4]%Z !! k = Some d)
    /\ (forall name col,
          get three_days name = Some col ->
          ~ In name (written_after_join (add_adx 0 0 "MSFT" true) three_days_adx) ->
          exists col',
            get out name = Some col'
            /\ forall k i j, rows !! k = Some (i, j) ->
                 exists v, values col !! i = Some v /\ values col' !! k = Some v)
    /\ (forall name col,
          name <> "Date" ->
          get (prepared (add_adx 0 0 "MSFT" true) three_days_adx) name = Some col ->
          ~ In name (written_after_join (add_adx 0 0 "MSFT" true) three_days_adx) ->
          exists col',
            get out name = Some col'
            /\ forall k i j, rows !! k = Some (i, j) ->
                 exists v, values col !! j = Some v /\ values col' !! k = Some v).
Proof.
  apply (indicator_transforms_inner_join (add_adx 0 0 "MSFT" true)
           (indicator_store three_days_adx) ADX "MSFT" None three_days_adx
           three_days [] [1; 2; 3]%Z [2; 3; 4]%Z);
    try reflexivity.
  repeat constructor; simpl; lia.
Defined.
End InnerJoin.
(** ** The fill that is not kept *)

Section DiscardedFill.

Import Pipeline Indicators.

(** A row of the joined table that carries the first date of the right
    table was joined from the right table's first row. *)
Lemma joined_from_first (dl dr : list Z) k d :
  List.NoDup dr ->
  common_dates dl dr !! k = Some d ->
  dr !! 0%nat = Some d ->
  map snd (join_pairs Z.eqb dl dr 0) !! k = Some 0%nat.
Proof.
  intros Hnd Hk H0. rewrite <- (joined_dates_unique dl dr Hnd) in Hk.
  rewrite !list_lookup_fmap in *.
  destruct (join_pairs Z.eqb dl dr 0 !! k) as [[i j]|] eqn:E; [|discriminate].
  cbn [fmap option_fmap option_map fst snd] in *.
  apply list_elem_of_lookup_2, list_elem_of_In, join_pairs_sound in E
    as (d' & _ & Hl & Hr).
  rewrite Nat.sub_0_r in Hl. rewrite Hl in Hk. cbn [default] in Hk.
  injection Hk as ->. f_equal.
  apply NoDup_ListNoDup in Hnd. exact (NoDup_lookup dr j 0 d Hnd Hr H0).
Qed.

Lemma first_change_missing xs : default NaN (pct_change xs !! 0%nat) = NaN.
Proof.
  destruct xs as [|x xs]; [reflexivity|].
  now rewrite pct_change_first.
Qed.

Lemma get_change_column m col chg ys :
  get m col = Some (Floats ys) ->
  get (with_change true m col chg) chg = Some (Floats (pct_change ys)).
Proof. intros H. unfold with_change. rewrite H. apply get_setitem_eq. Qed.

(** The change column a single indicator transform derives after the
    join. *)
Lemma change_after_join f p dl dr m col chg :
  get f "Date" = Some (Dates dl) ->
  get p "Date" = Some (Dates dr) ->
  shares_only_key f p "Date" = true ->
  List.NoDup dr ->
  merge f p "Date" = inr m ->
  numeric p [col] = true ->
  exists xs,
    get (with_change true m col chg) chg = Some (Floats xs)
    /\ length xs = length (common_dates dl dr)
    /\ (xs <> [] -> xs !! 0%nat = Some NaN).
Proof.
  intros Hdl Hdr Hshare Hnd Hm Hnum.
  destruct (numeric_one _ _ Hnum) as [a Ha].
  destruct (merged_indicator f p dl dr m _ a Hdl Hdr Hshare Hm Ha) as [ys Hys].
  exists (pct_change ys). split; [now apply get_change_column|].
  rewrite length_pct_change. split.
  - exact (merged_sizes f p dl dr m col (Floats ys) Hdl Hdr Hshare Hnd Hm Hys).
  - intros Hne. apply pct_change_first. intros ->. now apply Hne.
Qed.

(** The change column a moving-average transform derives before the
    join. *)
Lemma change_before_join f t mov_avg tp dl dr m :
  let p := moving_average_table t mov_avg tp in
  let chg := moving_average_column mov_avg tp +:+ "_CHANGE" in
  get f "Date" = Some (Dates dl) ->
  get p "Date" = Some (Dates dr) ->
  shares_only_key f p "Date" = true ->
  List.NoDup dr ->
  merge f p "Date" = inr m ->
  numeric p [moving_average_column mov_avg tp] = true ->
  exists xs,
    get m chg = Some (Floats xs)
    /\ length xs = length (common_dates dl dr)
    /\ (forall k d, common_dates dl dr !! k = Some d -> dr !! 0%nat = Some d ->
          xs !! k = Some NaN).
Proof.
  intros p chg Hdl Hdr Hshare Hnd Hm Hnum.
  destruct (moving_average_table_inv t mov_avg tp Hnum) as (xs & _ & Hp).
  fold p in Hp. fold chg in Hp.
  assert (Hc : get p chg = Some (Floats (pct_change xs))).
  { rewrite Hp. apply get_setitem_eq. }
  assert (Hne : chg <> "Date") by (unfold chg; neq_strings).
  pose proof (get_merged f p "Date" dl dr m chg Hdl Hdr Hshare Hm) as Hg.
  rewrite (not_in_left _ _ _ _ _ Hshare Hc Hne) in Hg.
  apply String.eqb_neq in Hne. rewrite Hne, Hc in Hg. cbn [option_map take_rows] in Hg.
  eexists. split; [exact Hg|]. split.
  - rewrite !length_map. now apply joined_count.
  - intros k d Hk H0. rewrite list_lookup_fmap.
    rewrite (joined_from_first dl dr k d Hnd Hk H0).
    cbn [fmap option_fmap option_map]. f_equal. apply first_change_missing.
Qed.

(** C3. The fill of the ADX, OBV, MOM, RSI and moving-average transforms
    is not kept. With the change column asked for, the returned table
    holds the dates common to both tables and a change column of as many
    rows. For ADX, OBV, MOM and RSI the change is taken after the join:
    its first row, when there is one, is still NaN, and the filled table
    is another table than the returned one. For a moving average the
    change is taken before the join: every returned row that carries the
    first date of the indicator table is still NaN. *)
Theorem fill_result_is_discarded c s kind ticker period t f cv dl dr chg :
  fetch_of c = Some (kind, ticker, period) ->
  change_column c = Some chg ->
  cache s kind ticker period = inr t ->
  frames s !! table_of c = Some f ->
  lists s !! cont_vars_of c = Some cv ->
  get f "Date" = Some (Dates dl) ->
  get (prepared c t) "Date" = Some (Dates dr) ->
  List.NoDup dr ->
  shares_only_key f (prepared c t) "Date" = true ->
  ready c t f = true ->
  exists r s' out col,
    run c s = Return (Some r) s'
    /\ frames s' !! r = Some out
    /\ get out "Date" = Some (Dates (common_dates dl dr))
    /\ get out chg = Some (Floats col)
    /\ length col = length (common_dates dl dr)
    /\ match c with
       | add_mov_avg _ _ _ _ _ _ _ _ _ =>
           forall k d,
             common_dates dl dr !! k = Some d -> dr !! 0%nat = Some d ->
             col !! k = Some NaN
       | _ =>
           (col <> [] -> col !! 0%nat = Some NaN)
           /\ exists r', r' <> r /\ frames s' !! r' = Some (fillna0 out)
       end.
Proof.
  intros Hfetch Hchg HC HF HL Hdl Hdr Hnd Hshare Hready.
  destruct c; cbn [fetch_of] in Hfetch; try discriminate;
    injection Hfetch as <- <- <-;
    cbn [table_of cont_vars_of prepared ready change_column] in *;
    try discriminate.
  - destruct change; [|discriminate]. injection Hchg as <-.
    destruct (adx_run s df f cont_vars stock true t dl dr cv HF HL HC Hdl Hdr Hshare Hready)
      as (r & m & s' & Hm & Hrun & Hr & Hfill & _).
    destruct (change_after_join f _ dl dr m "ADX" "ADX_CHANGE" Hdl Hdr Hshare Hnd Hm Hready)
      as (xs & Hxs & Hlen & Hfirst).
    exists r, s', (with_change true m "ADX" "ADX_CHANGE"), xs.
    split; [now apply returning_run|]. split; [exact Hr|].
    split; [rewrite get_with_change by discriminate; exact (merged_dates f _ dl dr m Hdl Hdr Hshare Hnd Hm)|].
    split; [exact Hxs|]. split; [exact Hlen|]. split; [exact Hfirst|].
    exists (S r). split; [lia | exact Hfill].
  - destruct change; [|discriminate]. injection Hchg as <-.
    destruct (obv_run s df f cont_vars stock true t dl dr cv HF HL HC Hdl Hdr Hshare Hready)
      as (r & m & s' & Hm & Hrun & Hr & Hfill & _).
    destruct (change_after_join f _ dl dr m "OBV" "OBV_CHANGE" Hdl Hdr Hshare Hnd Hm Hready)
      as (xs & Hxs & Hlen & Hfirst).
    exists r, s', (with_change true m "OBV" "OBV_CHANGE"), xs.
    split; [now apply returning_run|]. split; [exact Hr|].
    split; [rewrite get_with_change by discriminate; exact (merged_dates f _ dl dr m Hdl Hdr Hshare Hnd Hm)|].
    split; [exact Hxs|]. split; [exact Hlen|]. split; [exact Hfirst|].
    exists (S r). split; [lia | exact Hfill].
  - destruct change; [|discriminate]. injection Hchg as <-.
    destruct (mom_run s df f cont_vars stock true t dl dr cv HF HL HC Hdl Hdr Hshare Hready)
      as (r & m & s' & Hm & Hrun & Hr & Hfill & _).
    destruct (change_after_join f _ dl dr m "MOM" "MOM-pct" Hdl Hdr Hshare Hnd Hm Hready)
      as (xs & Hxs & Hlen & Hfirst).
    exists r, s', (with_change true m "MOM" "MOM-pct"), xs.
    split; [now apply returning_run|]. split; [exact Hr|].
    split; [rewrite get_with_change by discriminate; exact (merged_dates f _ dl dr m Hdl Hdr Hshare Hnd Hm)|].
    split; [exact Hxs|]. split; [exact Hlen|]. split; [exact Hfirst|].
    exists (S r). split; [lia | exact Hfill].
  - destruct change; [|discriminate]. injection Hchg as <-.
    destruct (rsi_run s df f cont_vars stock true t dl dr cv HF HL HC Hdl Hdr Hshare Hready)
      as (r & m & s' & Hm & Hrun & Hr & Hfill & _).
    destruct (change_after_join f _ dl dr m "RSI" "RSI_CHANGE" Hdl Hdr Hshare Hnd Hm Hready)
      as (xs & Hxs & Hlen & Hfirst).
    exists r, s', (with_change true m "RSI" "RSI_CHANGE"), xs.
    split; [now apply returning_run|]. split; [exact Hr|].
    split; [rewrite get_with_change by discriminate; exact (merged_dates f _ dl dr m Hdl Hdr Hshare Hnd Hm)|].
    split; [exact Hxs|]. split; [exact Hlen|]. split; [exact Hfirst|].
    exists (S r). split; [lia | exact Hfill].
  - injection Hchg as <-.
    apply andb_prop in Hready as [Hready Hf].
    apply andb_prop in Hready as [Hready Hnum].
    apply andb_prop in Hready as [Hon Hdates].
    apply String.eqb_eq in Hon. subst merge_on.
    pose proof (ready_mov_avg_dates _ _ true Hdates dr Hdr) as Hd0.
    destruct (mov_avg_run s df f cont_vars stock mov_avg time_period add_diff diff_col
                add_ohlc_diff t dl dr cv HF HL HC Hd0 Hdl Hdr Hshare Hnum Hf)
      as (r & m & s' & out & Hm & Hrun & Hr & Hd & Hc & _).
    destruct (change_before_join f t mov_avg time_period dl dr m
                Hdl Hdr Hshare Hnd Hm Hnum) as (xs & Hxs & Hlen & Hrows).
    exists r, s', out, xs.
    split; [now apply returning_run|]. split; [exact Hr|].
    split; [rewrite Hd; exact (merged_dates f _ dl dr m Hdl Hdr Hshare Hnd Hm)|].
    split; [now rewrite Hc|]. split; [exact Hlen|]. exact Hrows.
Qed.

Lemma fill_result_is_discarded_witness :
  exists r s' out col,
    run (add_mov_avg 0 0 "MSFT" "wma" 5 "Date" false "Close" false)
      (indicator_store three_days_wma) = Return (Some r) s'
    /\ frames s' !! r = Some out
    /\ get out "Date" = Some (Dates (common_dates [1; 2; 3]%Z [2; 3; 4]%Z))
    /\ get out "WMA_5_CHANGE" = Some (Floats col)
    /\ length col = length (common_dates [1; 2; 3]%Z [2; 3; 4]%Z)
    /\ (forall k d,
          common_dates [1; 2; 3]%Z [2; 3; 4]%Z !! k = Some d ->
          [2; 3; 4]%Z !! 0%nat = Some d ->
          col !! k = Some NaN).
Proof.
  apply (fill_result_is_discarded
           (add_mov_avg 0 0 "MSFT" "wma" 5 "Date" false "Close" false)
           (indicator_store three_days_wma) WMA "MSFT" (Some 5%Z) three_days_wma
           three_days [] [1; 2; 3]%Z [2; 3; 4]%Z "WMA_5_CHANGE");
    try reflexivity.
  repeat constructor; simpl; lia.
Defined.

(** A moving average whose history starts before the prices: the row that
    [pct_change] left missing is not joined, and the returned change
    column holds no NaN. *)
Lemma mov_avg_first_row_not_joined :
  exists r s' out,
    run (add_mov_avg 0 0 "MSFT" "wma" 5 "Date" false "Close" false)
      (Store [two_days] [[]] (fun _ _ _ => inr early_wma)) = Return (Some r) s'
    /\ frames s' !! r = Some out
    /\ get out "WMA_5_CHANGE" = Some (Floats [fin (1 # 4); fin (1 # 5)])
    /\ ~ In NaN [fin (1 # 4); fin (1 # 5)].
Proof.
  do 3 eexists. split; [vm_compute; reflexivity|].
  split; [vm_compute; reflexivity|]. split; [vm_compute; reflexivity|].
  cbn [In]. intuition discriminate.
Qed.

End DiscardedFill.

(** * Metadata lists *)

Import Pipeline Indicators Metadata.

(** ** Metadata lists only grow *)

Section AppendOnly.

Lemma grows_refl n L : grows n L L.
Proof. split; [lia|]. intros l xs _ H. exists []. now rewrite app_nil_r. Qed.

Lemma grows_trans n L1 L2 L3 : grows n L1 L2 -> grows n L2 L3 -> grows n L1 L3.
Proof.
  intros [Hl1 H1] [Hl2 H2]. split; [lia|]. intros l xs Hn Hx.
  destruct (H1 l xs Hn Hx) as [ys Hy]. destruct (H2 l _ Hn Hy) as [zs Hz].
  exists (ys ++ zs). now rewrite app_assoc.
Qed.

Lemma frame_op_ret {A} (a : A) : frame_op (ret a).
Proof. intros s. now split. Qed.

Lemma frame_op_raise {A} e : frame_op (@raise A e).
Proof. intros s. now split. Qed.

Lemma frame_op_lift {A} (r : result A) : frame_op (lift r).
Proof. destruct r; [apply frame_op_raise | apply frame_op_ret]. Qed.

Lemma frame_op_bind {A B} (m : M A) (k : A -> M B) :
  frame_op m -> (forall a, frame_op (k a)) -> frame_op (bind m k).
Proof.
  intros Hm Hk s. unfold bind. specialize (Hm s).
  destruct (m s) as [a s'|e s']; cbn [final] in *; [|exact Hm].
  destruct (Hk a s') as [H1 H2]. destruct Hm as [H3 H4]. split; congruence.
Qed.

Lemma frame_op_frame_of df : frame_op (frame_of df).
Proof. intros s. now split. Qed.

Lemma frame_op_new_frame f : frame_op (new_frame f).
Proof. intros s. now split. Qed.

Lemma frame_op_put_frame r f : frame_op (put_frame r f).
Proof. intros s. now split. Qed.

Lemma frame_op_list_of l : frame_op (list_of l).
Proof. intros s. now split. Qed.

Lemma frame_op_fetch i st p : frame_op (get_cached_tech_indicator i st p).
Proof.
  intros s. unfold get_cached_tech_indicator.
  destruct (cache s i st p); now split.
Qed.

Lemma frame_op_if {A} (b : bool) (x y : M A) :
  frame_op x -> frame_op y -> frame_op (if b then x else y).
Proof. now destruct b. Qed.

Lemma frame_op_fold_each {A S} (xs : list A) (body : A -> S -> M S) acc :
  (forall x a, frame_op (body x a)) -> frame_op (fold_each xs body acc).
Proof.
  intros Hb. revert acc. induction xs as [|x xs IH]; intros acc; cbn [fold_each].
  - apply frame_op_ret.
  - apply frame_op_bind; [apply Hb | intros a; apply IH].
Qed.

Lemma keeps_frame_op {A} n (m : M A) : frame_op m -> keeps n m.
Proof. intros H s _. destruct (H s) as [-> _]. apply grows_refl. Qed.

Lemma keeps_bind {A B} n (m : M A) (k : A -> M B) :
  keeps n m -> (forall a, keeps n (k a)) -> keeps n (bind m k).
Proof.
  intros Hm Hk s Hn. unfold bind. specialize (Hm s Hn).
  destruct (m s) as [a s'|e s']; cbn [final] in *; [|exact Hm].
  eapply grows_trans; [exact Hm|]. apply Hk. destruct Hm. lia.
Qed.

Lemma keeps_if {A} n (b : bool) (x y : M A) :
  keeps n x -> keeps n y -> keeps n (if b then x else y).
Proof. now destruct b. Qed.

Lemma keeps_put_append n l x s :
  grows n (lists s) (<[l := default [] (lists s !! l) ++ [x]]> (lists s)).
Proof.
  split; [now rewrite length_insert|]. intros l' xs _ Hx.
  destruct (Nat.eq_dec l l') as [->|Hne].
  - rewrite Hx. cbn [default]. exists [x].
    apply list_lookup_insert_eq. now apply lookup_lt_Some in Hx.
  - exists []. now rewrite app_nil_r, list_lookup_insert_ne.
Qed.

Lemma keeps_append n l x : keeps n (append l x).
Proof. intros s _. apply keeps_put_append. Qed.

Lemma keeps_for_each {A} n (xs : list A) (body : A -> M unit) :
  (forall x, keeps n (body x)) -> keeps n (for_each xs body).
Proof.
  intros Hb. induction xs as [|x xs IH]; cbn [for_each].
  - apply keeps_frame_op, frame_op_ret.
  - apply keeps_bind; [apply Hb | intros _; exact IH].
Qed.

(** A list allocated by the call itself lies above the lists the call
    was given; removing from it leaves those as they are. *)
Lemma keeps_remove n l x : n <= l -> keeps n (remove l x).
Proof.
  intros Hl s Hn. unfold remove, bind, list_of, lift.
  destruct (removed _ x) as [e|xs']; cbn [raise ret put_list final lists];
    [apply grows_refl|].
  split; [now rewrite length_insert|]. intros l' xs Hl' Hx.
  exists []. rewrite app_nil_r, list_lookup_insert_ne by lia. exact Hx.
Qed.

Lemma keeps_tolist {A} n df (k : list_ref -> M A) :
  (forall a, n <= a -> keeps n (k a)) -> keeps n (bind (tolist df) k).
Proof.
  intros Hk s Hn. unfold bind, tolist, columns_of, frame_of, ret, new_list, bind.
  set (s1 := Store _ _ _).
  assert (H1 : grows n (lists s) (lists s1)).
  { split; [cbn; rewrite length_app; lia|]. intros l xs _ Hx. exists [].
    rewrite app_nil_r. cbn. now apply lookup_app_l_Some. }
  eapply grows_trans; [exact H1|]. apply Hk; [exact Hn|].
  destruct H1. lia.
Qed.

Lemma keeps_update_meta n var names :
  n <= names -> keeps n (__update_meta_data var names).
Proof.
  intros Hn. unfold __update_meta_data, len.
  apply keeps_bind; [apply keeps_frame_op, frame_op_list_of|]. intros xs.
  apply keeps_if.
  - apply keeps_bind; [now apply keeps_remove|]. intros _.
    apply keeps_frame_op, frame_op_ret.
  - apply keeps_bind; [|intros _; apply keeps_frame_op, frame_op_ret].
    apply keeps_bind.
    { apply keeps_frame_op, frame_op_bind; [apply frame_op_list_of|].
      intros a. apply frame_op_ret. }
    intros k. apply keeps_for_each. intros i.
    apply keeps_bind; [apply keeps_frame_op, frame_op_list_of|]. intros ys.
    apply keeps_bind; [apply keeps_frame_op, frame_op_lift|]. intros y.
    apply keeps_append.
Qed.

End AppendOnly.

Create HintDb frame_ops.

#[local] Hint Resolve frame_op_ret frame_op_raise frame_op_lift frame_op_frame_of
  frame_op_new_frame frame_op_put_frame frame_op_list_of frame_op_fetch : frame_ops.

(** Table-only computations: the table primitives and what is built from
    them. *)
Ltac frame_ops :=
  cbv beta zeta delta
    [series assign assign_where columns_of pd_merge fillna proc_fill_nan
     quantile_of below above __rename_column convert_date __load_moving_avg
     difference];
  repeat first
    [ apply frame_op_bind; [|intros ?]
    | apply frame_op_if
    | apply frame_op_fold_each; intros ? ?
    | solve [auto with frame_ops] ].

(** Computations that append: table steps, [append], loops, branches. *)
Ltac keeps_lists :=
  repeat first
    [ apply keeps_append
    | apply keeps_tolist; intros ? ?
    | apply keeps_update_meta; assumption
    | apply keeps_bind; [|intros ?]
    | apply keeps_if
    | apply keeps_for_each; intros ?
    | apply keeps_frame_op; solve [frame_ops] ].

Section AppendOnlyCalls.

Import Pipeline.

Lemma keeps_mov_avg n df cv st ma tp on a d o :
  keeps n (proc_add_mov_avg df cv st ma tp on a d o).
Proof. unfold proc_add_mov_avg. cbv zeta. keeps_lists. Qed.

Lemma keeps_run n c : keeps n (run c).
Proof.
  destruct c; cbn [run]; unfold returning;
    (apply keeps_bind; [|intros ?; apply keeps_frame_op, frame_op_ret]).
  all: cbv beta zeta delta
         [proc_close_only proc_add_datepart proc_add_next_y proc_add_previous_values
          proc_add_percent_change proc_add_abs_percent_change proc_add_direction
          proc_add_volatility proc_add_adx proc_add_obv proc_add_mom proc_add_rsi
          proc_add_ohlc_avg proc_add_bband proc_add_macd
          proc_add_wma5_wma_20_diff proc_add_wma20_wma_60_diff
          proc_add_ema10_ema_30_diff proc_add_sma20_sma_200_diff
          proc_add_wma60 proc_add_wma5 proc_add_wma20 proc_add_ema30 proc_add_ema10
          proc_add_sma20 proc_add_sma200].
  all: try apply keeps_mov_avg.
  all: keeps_lists.
  all: try apply keeps_mov_avg.
Qed.

End AppendOnlyCalls.

(** ** What a returning call has appended *)

Section Replay.

Lemma replay_app a b L : replay (a ++ b) L = replay b (replay a L).
Proof. apply fold_left_app. Qed.

Lemma length_push l x L : length (push l x L) = length L.
Proof. apply length_insert. Qed.

Lemma length_replay log L : length (replay log L) = length L.
Proof.
  revert L. induction log as [|e log IH]; intros L; cbn [replay fold_left]; [reflexivity|].
  change (length (replay log (push (fst e) (snd e) L)) = length L).
  now rewrite IH, length_push.
Qed.

Lemma lookup_push l x L l' :
  push l x L !! l'
  = if Nat.eqb l l' then (fun xs => xs ++ [x]) <$> (L !! l') else L !! l'.
Proof.
  unfold push. destruct (Nat.eqb_spec l l') as [->|Hne].
  - destruct (L !! l') as [xs|] eqn:E; cbn [default fmap option_fmap option_map].
    + apply list_lookup_insert_eq. now apply lookup_lt_Some in E.
    + rewrite list_insert_ge; [exact E|]. now apply lookup_ge_None.
  - now apply list_lookup_insert_ne.
Qed.

Lemma lookup_replay log L l :
  replay log L !! l = (fun xs => xs ++ names_at l log) <$> (L !! l).
Proof.
  revert L. induction log as [|[l0 x] log IH]; intros L.
  - cbn. destruct (L !! l); cbn; [now rewrite app_nil_r | reflexivity].
  - change (replay ((l0, x) :: log) L) with (replay log (push l0 x L)).
    rewrite IH, lookup_push. unfold names_at. cbn [List.filter fst snd].
    destruct (Nat.eqb l0 l); destruct (L !! l) as [xs|]; cbn; try reflexivity.
    now rewrite <- app_assoc.
Qed.

Lemma names_at_app l a b : names_at l (a ++ b) = names_at l a ++ names_at l b.
Proof. unfold names_at. now rewrite List.filter_app, map_app. Qed.

End Replay.

Section WeakestPrecondition.

Lemma wp_bind {A B} (m : M A) (k : A -> M B) s P :
  wp m s (fun a s' => wp (k a) s' P) -> wp (bind m k) s P.
Proof. unfold wp, bind. now destruct (m s). Qed.

Lemma wp_ret {A} (a : A) s (P : A -> store -> Prop) : P a s -> wp (ret a) s P.
Proof. exact (fun H => H). Qed.

Lemma wp_lift {A} (r : result A) s (P : A -> store -> Prop) :
  (forall a, r = inr a -> P a s) -> wp (lift r) s P.
Proof. intros H. destruct r as [e|a]; [exact I | now apply H]. Qed.

Lemma wp_consequence {A} (m : M A) s (Q P : A -> store -> Prop) :
  wp m s Q -> (forall a s', Q a s' -> P a s') -> wp m s P.
Proof. unfold wp. destruct (m s); auto. Qed.

Lemma wp_Return {A} (m : M A) s a s' (P : A -> store -> Prop) :
  wp m s P -> m s = Return a s' -> P a s'.
Proof. unfold wp. intros H E. now rewrite E in H. Qed.

Lemma wp_reader {A} (m : M A) s (P : A -> store -> Prop) :
  reader m -> (forall a, P a s) -> wp m s P.
Proof.
  intros Hm H. unfold wp. specialize (Hm s).
  destruct (m s) as [a s'|]; [|exact I]. cbn [final] in Hm. subst s'. apply H.
Qed.

Lemma wp_frame_op {A} (m : M A) s (P : A -> store -> Prop) :
  frame_op m ->
  (forall a F', P a (Store F' (lists s) (cache s))) -> wp m s P.
Proof.
  intros Hm H. unfold wp. destruct (Hm s) as [Hl Hc].
  destruct (m s) as [a [F' L' C']|]; [|exact I]. cbn [final lists cache] in *.
  subst. apply H.
Qed.

Lemma wp_append l x s (P : unit -> store -> Prop) :
  P tt (Store (frames s) (replay [(l, x)] (lists s)) (cache s)) -> wp (append l x) s P.
Proof. exact (fun H => H). Qed.

Lemma wp_columns_of df f s (P : list string -> store -> Prop) :
  frames s !! df = Some f -> P (columns f) s -> wp (columns_of df) s P.
Proof. intros Hf H. unfold wp, columns_of, bind, frame_of, ret. now rewrite Hf. Qed.

Lemma wp_fetch i st p s (P : df_ref -> store -> Prop) :
  (forall t, cache s i st p = inr t ->
     P (length (frames s)) (Store (frames s ++ [t]) (lists s) (cache s))) ->
  wp (get_cached_tech_indicator i st p) s P.
Proof.
  intros H. unfold wp, get_cached_tech_indicator.
  destruct (cache s i st p) as [e|t]; [exact I | now apply H].
Qed.

Lemma wp_rename df f old new s (P : df_ref -> store -> Prop) :
  frames s !! df = Some f ->
  P (length (frames s)) (Store (frames s ++ [rename f old new]) (lists s) (cache s)) ->
  wp (__rename_column df old new) s P.
Proof.
  intros Hf H. unfold wp, __rename_column, bind, frame_of, new_frame.
  now rewrite Hf.
Qed.

(** A conversion that returns found a date column, and left it as it
    was. *)
Lemma wp_convert_date df f name s (P : df_ref -> store -> Prop) :
  frames s !! df = Some f ->
  (forall ds, get f name = Some (Dates ds) -> P df s) ->
  wp (convert_date df name) s P.
Proof.
  intros Hf H. unfold wp, convert_date, bind, frame_of, getitem. rewrite Hf.
  change (default [] (Some f)) with f.
  destruct (get f name) as [[xs|ds]|] eqn:E; cbn; try exact I.
  rewrite (setitem_same f name (Dates ds) E), (list_insert_id _ _ _ Hf).
  destruct s. now apply (H ds).
Qed.

Lemma wp_pd_merge l r a b on s (P : df_ref -> store -> Prop) :
  frames s !! l = Some a -> frames s !! r = Some b ->
  (forall m, merge a b on = inr m ->
     P (length (frames s)) (Store (frames s ++ [m]) (lists s) (cache s))) ->
  wp (pd_merge l r on) s P.
Proof.
  intros Ha Hb H. unfold wp, pd_merge, bind, frame_of. rewrite Ha, Hb.
  change (default [] (Some a)) with a. change (default [] (Some b)) with b.
  destruct (merge a b on) as [e|m]; cbn; [exact I | now apply H].
Qed.

Lemma wp_assign df f name xs s (P : unit -> store -> Prop) :
  frames s !! df = Some f ->
  P tt (Store (<[df := setitem f name (Floats xs)]> (frames s)) (lists s) (cache s)) ->
  wp (assign df name xs) s P.
Proof. intros Hf H. unfold wp, assign, bind, frame_of, put_frame. now rewrite Hf. Qed.

Lemma wp_tolist df f s (P : list_ref -> store -> Prop) :
  frames s !! df = Some f ->
  P (length (lists s)) (Store (frames s) (lists s ++ [columns f]) (cache s)) ->
  wp (tolist df) s P.
Proof.
  intros Hf H. unfold wp, tolist, columns_of, bind, frame_of, ret, new_list.
  now rewrite Hf.
Qed.

Lemma wp_update_meta var names ns s (P : list_ref -> store -> Prop) :
  lists s !! names = Some ns ->
  contains ns "Date" = true ->
  (forall ns', removed ns "Date" = inr ns' ->
     P var (Store (frames s) (<[names := ns']> (lists s)) (cache s))) ->
  wp (__update_meta_data var names) s P.
Proof.
  intros Hn Hc H. unfold wp.
  destruct (update_meta_data_with_Date s var names ns Hn Hc) as (r & Hr & ->).
  apply H. unfold removed. now rewrite Hr.
Qed.

End WeakestPrecondition.

Section Writes.

Lemma writes_frame_op {A} (m : M A) : frame_op m -> writes m [].
Proof. intros H s. apply wp_frame_op; [exact H|]. intros a F'. now split. Qed.

Lemma writes_append l x : writes (append l x) [(l, x)].
Proof. intros s. apply wp_append. now split. Qed.

Lemma writes_bind {A B} (m : M A) (k : A -> M B) l1 l2 :
  writes m l1 -> (forall a, writes (k a) l2) -> writes (bind m k) (l1 ++ l2).
Proof.
  intros Hm Hk s. apply wp_bind. eapply wp_consequence; [apply Hm|].
  intros a s' [Hl Hc]. eapply wp_consequence; [apply Hk|].
  intros b s'' [Hl' Hc']. cbv beta. rewrite replay_app. split; congruence.
Qed.

Lemma writes_eq {A} (m : M A) l l' : writes m l -> l = l' -> writes m l'.
Proof. now intros H <-. Qed.

Lemma writes_if {A} (b : bool) (x y : M A) l l' :
  writes x l -> writes y l' -> writes (if b then x else y) (if b then l else l').
Proof. now destruct b. Qed.

Lemma writes_for_each {A} (xs : list A) (body : A -> M unit) g :
  (forall x, writes (body x) (g x)) -> writes (for_each xs body) (flat_map g xs).
Proof.
  intros Hb. induction xs as [|x xs IH]; cbn [for_each flat_map].
  - apply writes_frame_op, frame_op_ret.
  - apply writes_bind; [apply Hb | intros _; exact IH].
Qed.

Lemma wp_writes {A} (m : M A) log s (P : A -> store -> Prop) :
  writes m log ->
  (forall a F', P a (Store F' (replay log (lists s)) (cache s))) -> wp m s P.
Proof.
  intros Hm H. eapply wp_consequence; [apply Hm|].
  intros a [F' L' C'] [Hl Hc]. cbn [lists cache] in *. subst. apply H.
Qed.

End Writes.

(** The appends of a computation whose names do not depend on what it
    reads. *)
Ltac writes_log :=
  repeat first
    [ apply writes_append
    | eapply writes_bind; [|intros ?]
    | eapply writes_for_each; intros ?
    | eapply writes_if
    | apply writes_frame_op; solve [frame_ops] ].

Section StaticCalls.

Import Pipeline Indicators.

Lemma writes_mov_avg df cv st ma tp on a d o :
  writes (proc_add_mov_avg df cv st ma tp on a d o) (moving_average_log cv ma tp a d o).
Proof.
  unfold proc_add_mov_avg, moving_average_log, diff_names, moving_average_column.
  cbv zeta.
  destruct a; [|destruct o]; (eapply writes_eq; [writes_log | reflexivity]).
Qed.

End StaticCalls.

Section Registered.

Import Pipeline Indicators.

Lemma registered_static c s :
  (forall s', settled c s' = true) ->
  (forall s', log_of c s' = log_of c s) ->
  writes (run c) (log_of c s) ->
  wp (run c) s (fun _ s' => registered c s s').
Proof.
  intros Hs Hl Hw. eapply wp_consequence; [apply Hw|].
  intros a s' [HL HC]. split; [|split; [exact HC|split; [apply Hs|intros _; apply Hl]]].
  exists []. now rewrite app_nil_r.
Qed.

End Registered.

Ltac static_call :=
  apply registered_static; [reflexivity | reflexivity |];
  cbn [run log_of]; unfold returning;
  cbv beta zeta delta
    [proc_close_only proc_add_next_y proc_add_previous_values
     proc_add_percent_change proc_add_abs_percent_change
     proc_add_volatility proc_add_adx proc_add_obv proc_add_mom proc_add_rsi
     proc_add_ohlc_avg proc_add_wma60 proc_add_wma5 proc_add_wma20 proc_add_ema30
     proc_add_ema10 proc_add_sma20 proc_add_sma200 single_log diff_names];
  first
    [ eapply writes_eq;
      [ eapply writes_bind; [apply writes_mov_avg|intros ?; apply writes_frame_op; frame_ops]
      | apply app_nil_r ]
    | eapply writes_eq; [writes_log | rewrite ?app_nil_r; reflexivity] ].


Section Readers.

Lemma reader_ret {A} (a : A) : reader (ret a).
Proof. now intros s. Qed.

Lemma reader_raise {A} e : reader (@raise A e).
Proof. now intros s. Qed.

Lemma reader_lift {A} (r : result A) : reader (lift r).
Proof. destruct r; [apply reader_raise | apply reader_ret]. Qed.

Lemma reader_frame_of df : reader (frame_of df).
Proof. now intros s. Qed.

Lemma reader_list_of l : reader (list_of l).
Proof. now intros s. Qed.

Lemma reader_bind {A B} (m : M A) (k : A -> M B) :
  reader m -> (forall a, reader (k a)) -> reader (bind m k).
Proof.
  intros Hm Hk s. unfold bind. specialize (Hm s).
  destruct (m s) as [a s'|e s']; cbn [final] in *; subst; [apply Hk|reflexivity].
Qed.

Lemma invariant_reader {A} I (m : M A) : reader m -> invariant I m.
Proof. intros H s Hs. now rewrite H. Qed.

Lemma invariant_bind {A B} I (m : M A) (k : A -> M B) :
  invariant I m -> (forall a, invariant I (k a)) -> invariant I (bind m k).
Proof.
  intros Hm Hk s Hs. unfold bind. specialize (Hm s Hs).
  destruct (m s) as [a s'|e s']; cbn [final] in *; [now apply Hk | exact Hm].
Qed.

Lemma invariant_if {A} I (b : bool) (x y : M A) :
  invariant I x -> invariant I y -> invariant I (if b then x else y).
Proof. now destruct b. Qed.

Lemma wp_invariant {A} (I : store -> Prop) (m : M A) s (P : A -> store -> Prop) :
  invariant I m -> I s -> wp m s P -> wp m s (fun a s' => I s' /\ P a s').
Proof.
  intros Hm Hs. unfold wp. specialize (Hm s Hs).
  destruct (m s); cbn [final] in *; auto.
Qed.

End Readers.

Create HintDb readers.

#[local] Hint Resolve reader_ret reader_raise reader_lift reader_frame_of
  reader_list_of : readers.

Ltac readers :=
  cbv beta zeta delta [series columns_of quantile_of below above difference len];
  repeat first
    [ apply reader_bind; [|intros ?]
    | solve [auto with readers] ].

Section ColumnsStay.

Lemma contains_setitem g n c x :
  contains (columns g) x = true -> contains (columns (setitem g n c)) x = true.
Proof.
  unfold contains, columns.
  induction g as [|[m c0] g IH]; cbn [setitem map existsb fst]; [discriminate|].
  destruct (String.eqb m n); cbn [map existsb fst]; [tauto|].
  destruct (String.eqb x m); cbn [orb]; [reflexivity | exact IH].
Qed.

Lemma contains_setitem_same g n c : contains (columns (setitem g n c)) n = true.
Proof.
  unfold contains, columns.
  induction g as [|[m c0] g IH]; cbn [setitem map existsb fst].
  - now rewrite String.eqb_refl.
  - destruct (String.eqb m n) eqn:E; cbn [map existsb fst].
    + now rewrite String.eqb_sym, E.
    + rewrite IH. apply orb_true_r.
Qed.

Lemma contains_setitem_ne g n c x :
  x <> n -> contains (columns (setitem g n c)) x = contains (columns g) x.
Proof.
  intros Hne. unfold contains, columns.
  induction g as [|[m c0] g IH]; cbn [setitem map existsb fst].
  - apply String.eqb_neq in Hne. now rewrite Hne.
  - destruct (String.eqb m n); cbn [map existsb fst]; [reflexivity | now rewrite IH].
Qed.

Lemma column_present_put df x r g s :
  (forall f, frames s !! r = Some f ->
     contains (columns f) x = true -> contains (columns g) x = true) ->
  column_present df x s ->
  column_present df x (Store (<[r := g]> (frames s)) (lists s) (cache s)).
Proof.
  unfold column_present, frame_at. cbn [frames]. intros Hg Hs.
  destruct (Nat.eq_dec r df) as [->|Hne].
  - destruct (frames s !! df) as [f|] eqn:E; [|discriminate].
    rewrite list_lookup_insert_eq by (now apply lookup_lt_Some in E).
    now apply (Hg f).
  - now rewrite list_lookup_insert_ne.
Qed.

Lemma invariant_assign df x r name xs :
  invariant (column_present df x) (assign r name xs).
Proof.
  intros s Hs. unfold assign, bind, frame_of, put_frame. cbn [final].
  apply column_present_put; [|exact Hs].
  intros f -> Hf. now apply contains_setitem.
Qed.

Lemma invariant_assign_where df x r mask name v :
  invariant (column_present df x) (assign_where r mask name v).
Proof.
  intros s Hs. unfold assign_where, bind, frame_of, put_frame, loc_setitem.
  destruct (Nat.eqb (nrows (default [] (frames s !! r))) 0
            && negb (has_column (default [] (frames s !! r)) name));
    cbn [lift raise ret final]; [exact Hs|].
  apply column_present_put; [|exact Hs].
  intros f -> Hf. unfold loc_set. now apply contains_setitem.
Qed.

Lemma invariant_append df x l y : invariant (column_present df x) (append l y).
Proof. intros s Hs. exact Hs. Qed.

End ColumnsStay.

(** Computations that only read, add or set columns, and append. *)
Ltac columns_stay :=
  repeat first
    [ apply invariant_assign
    | apply invariant_assign_where
    | apply invariant_append
    | apply invariant_bind; [|intros ?]
    | apply invariant_if
    | apply invariant_reader; solve [readers] ].

Section Direction.

Import Pipeline Indicators.

Lemma wp_writes_invariant {A} (m : M A) log I s (P : A -> store -> Prop) :
  writes m log -> invariant I m -> I s ->
  (forall a s', I s' -> lists s' = replay log (lists s) -> cache s' = cache s ->
     P a s') ->
  wp m s P.
Proof.
  intros Hw Hi Hs H.
  eapply wp_consequence;
    [eapply wp_invariant; [exact Hi | exact Hs | apply Hw]|].
  intros a s' [H1 [H2 H3]]. now apply H.
Qed.

Lemma registered_direction df col cat cv nt s f :
  frames s !! df = Some f ->
  wp (run (add_direction df col cat cv nt)) s
    (fun _ s' => registered (add_direction df col cat cv nt) s s').
Proof.
  intros Hf.
  assert (Hfa : frame_at s df = f) by (unfold frame_at; now rewrite Hf).
  cbn [run]. unfold returning, registered. cbn [settled log_of]. rewrite !Hfa.
  apply wp_bind. unfold proc_add_direction. cbv zeta.
  apply wp_bind. eapply wp_columns_of; [exact Hf|].
  apply wp_bind.
  destruct (contains (columns f) (col +:+ "-pct")) eqn:E; cbn [negb].
  - apply wp_ret.
    eapply (wp_writes_invariant _ [(cat, col +:+ "-direction")]
              (column_present df (col +:+ "-pct")));
      [ eapply writes_eq; [writes_log | reflexivity]
      | columns_stay
      | unfold column_present; now rewrite Hfa
      | ].
    intros a s' HI HL HC. apply wp_ret. unfold column_present in HI.
    rewrite HI.
    split; [exists []; now rewrite app_nil_r|]. now repeat split.
  - unfold proc_add_percent_change. cbv zeta.
    apply wp_bind, wp_reader; [readers|]. intros xs.
    apply wp_bind. eapply wp_assign; [exact Hf|].
    apply wp_bind, wp_append, wp_ret.
    eapply (wp_writes_invariant _ [(cat, col +:+ "-direction")]
              (column_present df (col +:+ "-pct")));
      [ eapply writes_eq; [writes_log | reflexivity]
      | columns_stay
      | unfold column_present, frame_at; cbn [frames];
        rewrite list_lookup_insert_eq by (now apply lookup_lt_Some in Hf);
        apply contains_setitem_same
      | ].
    cbn [frames lists cache].
    intros a s' HI HL HC. apply wp_ret. unfold column_present in HI.
    rewrite HI.
    split; [exists []; now rewrite app_nil_r, replay_app|].
    split; [exact HC|]. split; [reflexivity|]. discriminate.
Qed.

End Direction.

Section Datepart.

Import Pipeline Indicators.

Lemma store_eta s : Store (frames s) (lists s) (cache s) = s.
Proof. now destruct s. Qed.

(** The loop of [proc_add_datepart] appends the names it can read and
    touches nothing else. *)
Lemma datepart_loop cat cols (xs : list Z) s :
  wp (for_each xs (fun i => let* name := lift (item cols i) in append cat name)) s
    (fun _ s' =>
       s' = Store (frames s)
              (replay (flat_map (fun i => match item cols i with
                                          | inr x => [(cat, x)]
                                          | inl _ => []
                                          end) xs) (lists s))
              (cache s)).
Proof.
  revert s. induction xs as [|i xs IH]; intros s; cbn [for_each flat_map].
  - apply wp_ret. cbn [replay fold_left]. now rewrite store_eta.
  - apply wp_bind, wp_bind, wp_lift. intros name Hn. rewrite Hn.
    apply wp_append. eapply wp_consequence; [apply IH|].
    cbn [frames lists cache]. intros _ s' ->. now rewrite replay_app.
Qed.

Lemma registered_datepart df cv cat d s f :
  frames s !! df = Some f ->
  wp (run (add_datepart df cv cat d)) s
    (fun _ s' => registered (add_datepart df cv cat d) s s').
Proof.
  intros Hf.
  assert (Hfa : frame_at s df = f) by (unfold frame_at; now rewrite Hf).
  cbn [run]. unfold registered. cbn [settled log_of]. cbv zeta. rewrite !Hfa.
  apply wp_bind. unfold proc_add_datepart.
  apply wp_bind, wp_append. cbn [frames lists cache].
  apply wp_bind. eapply wp_columns_of; [exact Hf|].
  apply wp_bind, wp_lift. intros a Ha.
  apply wp_bind, wp_lift. intros b Hb.
  eapply wp_consequence; [apply datepart_loop|].
  cbn [frames lists cache]. intros _ s' ->. apply wp_ret.
  cbn [lists cache]. unfold frame_at. cbn [frames]. rewrite Hf.
  change (default [] (Some f)) with f. rewrite Ha, Hb.
  split; [exists []; rewrite app_nil_r; symmetry; apply (replay_app [_])|].
  now repeat split.
Qed.

End Datepart.

Section MoreWeakestPreconditions.

Lemma wp_fillna df f s (P : df_ref -> store -> Prop) :
  frames s !! df = Some f ->
  P (length (frames s)) (Store (frames s ++ [fillna0 f]) (lists s) (cache s)) ->
  wp (fillna df) s P.
Proof.
  intros Hf H. unfold wp, fillna, bind, frame_of, new_frame. now rewrite Hf.
Qed.

Lemma wp_load_moving_avg stock mov_avg tp s (P : df_ref -> store -> Prop) :
  (forall t ds,
     cache s (moving_average_kind mov_avg) stock (Some tp) = inr t ->
     get t "date" = Some (Dates ds) ->
     P (length (frames s)) (Store (frames s ++ [t]) (lists s) (cache s))) ->
  wp (__load_moving_avg stock mov_avg tp) s P.
Proof.
  intros H. unfold wp.
  destruct (cache s (moving_average_kind mov_avg) stock (Some tp)) as [e|t] eqn:E.
  - unfold __load_moving_avg, bind, get_cached_tech_indicator. cbv zeta.
    now rewrite E.
  - destruct (get t "date") as [[xs|ds]|] eqn:Ed.
    2:{ destruct s as [F L C]. cbn [frames lists cache] in *.
        rewrite (load_moving_avg_run F L C stock mov_avg tp t ds E Ed).
        now apply (H t ds). }
    all: unfold __load_moving_avg, bind, get_cached_tech_indicator, frame_of, getitem;
      cbv zeta; rewrite E; unfold new_frame; cbn [frames]; rewrite lookup_new0;
      change (default [] ([t] !! 0%nat)) with t; now rewrite Ed.
Qed.

End MoreWeakestPreconditions.

Lemma contains_get g n c : get g n = Some c -> contains (columns g) n = true.
Proof.
  intros H. unfold contains.
  change (existsb (String.eqb n) (columns g)) with (has_column g n).
  now rewrite has_column_get, H.
Qed.

(** One step of a computation, keeping the tables it has made. *)
Ltac wp_step :=
  cbv beta iota; cbn [frames lists cache]; norm_store;
  lazymatch goal with
  | |- wp (bind _ _) _ _ => apply wp_bind
  | |- wp (ret _) _ _ => apply wp_ret
  | |- wp (lift _) _ _ => apply wp_lift; intros ? ?
  | |- wp (append _ _) _ _ => apply wp_append
  | |- wp (get_cached_tech_indicator _ _ _) _ _ => apply wp_fetch; intros ? ?
  | |- wp (__load_moving_avg _ _ _) _ _ => apply wp_load_moving_avg; intros ? ? ? ?
  | |- wp (__rename_column _ _ _) _ _ =>
      eapply wp_rename; [cbn [frames]; solve_lookup|]
  | |- wp (convert_date _ _) _ _ =>
      eapply wp_convert_date; [cbn [frames]; solve_lookup | intros ? ?]
  | |- wp (pd_merge _ _ _) _ _ =>
      eapply wp_pd_merge;
      [cbn [frames]; solve_lookup | cbn [frames]; solve_lookup | intros ? ?]
  | |- wp (assign _ _ _) _ _ => eapply wp_assign; [cbn [frames]; solve_lookup|]
  | |- wp (fillna _) _ _ => eapply wp_fillna; [cbn [frames]; solve_lookup|]
  | |- wp (columns_of _) _ _ => eapply wp_columns_of; [cbn [frames]; solve_lookup|]
  | |- wp (tolist _) _ _ => eapply wp_tolist; [cbn [frames]; solve_lookup|]
  | |- wp (__update_meta_data _ _) _ _ =>
      eapply wp_update_meta;
      [ cbn [lists]; rewrite lookup_new0; reflexivity
      | eapply contains_get; eassumption
      | intros ? ? ]
  | |- wp (series _ _) _ _ => apply wp_reader; [readers | intros ?]
  | |- wp (difference _ _ _) _ _ => apply wp_reader; [readers | intros ?]
  | |- wp (for_each _ _) _ _ => cbn [for_each ohcl]
  end.

(** Uses what the steps that returned have shown. *)
Ltac use_facts :=
  cbn [frames lists cache] in *;
  repeat match goal with
         | E : ?x = inr _ |- context [?x] => rewrite E
         end.

Section Macd.

Import Pipeline Indicators.

Lemma registered_macd df cv st s f :
  frames s !! df = Some f ->
  wp (run (add_macd df cv st)) s (fun _ s' => registered (add_macd df cv st) s s').
Proof.
  intros Hf. destruct s as [F L C]. cbn [frames] in Hf.
  cbn [run]. unfold returning, registered, proc_add_macd. cbv zeta.
  do 25 wp_step. wp_step.
  eapply (wp_writes _ (flat_map (fun col => [(cv, col +:+ "_Change")]) a0));
    [eapply writes_eq; [eapply writes_for_each; intros col; writes_log | reflexivity]|].
  intros _ F'. do 2 wp_step.
  unfold log_of, indicator_columns. cbn [fetch_of prepared cache settled].
  use_facts.
  split; [exists []; now rewrite app_nil_r, replay_app|].
  now repeat split.
Qed.

End Macd.

Section Bband.

Import Pipeline Indicators.

Lemma registered_bband df cv st on a d o s f :
  frames s !! df = Some f ->
  wp (run (add_bband df cv st on a d o)) s
    (fun _ s' => registered (add_bband df cv st on a d o) s s').
Proof.
  intros Hf. destruct s as [F L C]. cbn [frames] in Hf.
  cbn [run]. unfold returning, registered, proc_add_bband, DBG. cbv zeta.
  repeat wp_step.
  unfold log_of, indicator_columns. cbn [fetch_of prepared settled].
  use_facts.
  destruct a; [|destruct o].
  - eapply (wp_writes _ (map (pair cv)
                           ["Close_BB_UP_Diff"; "Close_BB_MID_Diff"; "Close_BB_LOW_Diff"]));
      [eapply writes_eq; [writes_log | reflexivity]|].
    intros r F'. wp_step. cbn [lists cache]. use_facts.
    split; [now exists [ns']|]. now repeat split.
  - do 5 wp_step. use_facts. wp_step.
    match goal with E : inr _ = inr _ |- _ => injection E as <- end.
    wp_step.
    eapply (wp_writes _ (flat_map
                           (fun b => flat_map
                                       (fun c_name => [(cv, c_name +:+ "_" +:+ b +:+ "_Diff")])
                                       ohcl) ns'));
      [eapply writes_eq; [writes_log | reflexivity]|].
    intros r F'. do 2 wp_step. cbn [lists cache]. use_facts.
    split; [now exists [ns']|]. now repeat split.
  - eapply (wp_writes _ []); [apply writes_frame_op; frame_ops|].
    intros r F'. wp_step. cbn [lists cache]. use_facts.
    split; [now exists [ns']|]. now repeat split.
Qed.

End Bband.

Section Composites.

Import Pipeline Indicators.

(** What a returning [proc_add_mov_avg] leaves: the tables it met
    untouched, its own tables after them, the returned one among these,
    and its names appended. *)
Lemma mov_avg_effect df cv st ma tp on a d o s f :
  frames s !! df = Some f ->
  wp (proc_add_mov_avg df cv st ma tp on a d o) s
    (fun r s' =>
       exists X g,
         frames s' = frames s ++ X
         /\ length (frames s) <= r
         /\ frames s' !! r = Some g
         /\ lists s' = replay (moving_average_log cv ma tp a d o) (lists s)
         /\ cache s' = cache s).
Proof.
  intros Hf. destruct s as [F L C]. cbn [frames lists cache] in *.
  unfold proc_add_mov_avg, moving_average_log, diff_names, moving_average_column.
  cbv zeta.
  destruct a; [|destruct o]; repeat wp_step;
    cbn [frames lists cache]; norm_store; do 2 eexists;
    (split; [reflexivity|]); (split; [lia|]);
    (split; [rewrite lookup_new; reflexivity|]); now split.
Qed.

(** The shape shared by the four composite transforms. *)
Lemma composite_effect df cv st x y res ma1 tp1 ma2 tp2 a o s f :
  x <> res -> y <> res ->
  frames s !! df = Some f ->
  wp (let* columns := columns_of df in
      let* df1 :=
        (if negb (contains columns x)
         then proc_add_mov_avg df cv st ma1 tp1 "Date" a "Close" o
         else ret df) in
      let* df2 :=
        (if negb (contains columns y)
         then proc_add_mov_avg df1 cv st ma2 tp2 "Date" a "Close" o
         else ret df1) in
      (let* d := difference df2 x y in assign df2 res d) ;;;
      append cv res ;;;
      ret df2) s
    (fun _ s' =>
       lists s'
       = replay (composite_log s df cv x y res
                   (moving_average_log cv ma1 tp1 a "Close" o)
                   (moving_average_log cv ma2 tp2 a "Close" o)) (lists s)
       /\ cache s' = cache s
       /\ contains (columns (frame_at s' df)) x = contains (columns f) x
       /\ contains (columns (frame_at s' df)) y = contains (columns f) y).
Proof.
  intros Hx Hy Hf.
  assert (Hfa : frame_at s df = f) by (unfold frame_at; now rewrite Hf).
  assert (Hlt : df < length (frames s)) by (now apply lookup_lt_Some in Hf).
  unfold composite_log. cbv zeta. rewrite Hfa.
  apply wp_bind. eapply wp_columns_of; [exact Hf|]. apply wp_bind.
  (* the table, its reference and the appends after the first average *)
  assert (H1 : wp (if negb (contains (columns f) x)
                   then proc_add_mov_avg df cv st ma1 tp1 "Date" a "Close" o
                   else ret df) s
                 (fun r s1 =>
                    exists g, frames s1 !! r = Some g
                    /\ (r = df /\ frames s1 = frames s
                        \/ exists X, frames s1 = frames s ++ X /\ length (frames s) <= r)
                    /\ lists s1
                       = replay (if contains (columns f) x then []
                                 else moving_average_log cv ma1 tp1 a "Close" o) (lists s)
                    /\ cache s1 = cache s)).
  { destruct (contains (columns f) x); cbn [negb].
    - apply wp_ret. exists f. repeat split; auto.
    - eapply wp_consequence; [apply (mov_avg_effect _ _ _ _ _ _ _ _ _ _ f Hf)|].
      intros r s1 (X & g & HF & Hr & Hg & HL & HC). exists g.
      repeat split; eauto. }
  eapply wp_consequence; [exact H1|]. clear H1.
  intros r1 s1 (g1 & Hg1 & Hfr1 & HL1 & HC1).
  assert (Hs1 : frames s1 !! df = Some f /\ length (frames s) <= length (frames s1)).
  { destruct Hfr1 as [[-> ->]|(X & -> & Hr)]; [now split|].
    split; [now apply lookup_app_l_Some | rewrite length_app; lia]. }
  destruct Hs1 as [Hdf1 Hlen1].
  apply wp_bind.
  assert (H2 : wp (if negb (contains (columns f) y)
                   then proc_add_mov_avg r1 cv st ma2 tp2 "Date" a "Close" o
                   else ret r1) s1
                 (fun r s2 =>
                    exists g, frames s2 !! r = Some g
                    /\ (r = r1 /\ frames s2 = frames s1
                        \/ exists X, frames s2 = frames s1 ++ X /\ length (frames s1) <= r)
                    /\ lists s2
                       = replay (if contains (columns f) y then []
                                 else moving_average_log cv ma2 tp2 a "Close" o) (lists s1)
                    /\ cache s2 = cache s1)).
  { destruct (contains (columns f) y); cbn [negb].
    - apply wp_ret. exists g1. repeat split; auto.
    - eapply wp_consequence; [apply (mov_avg_effect _ _ _ _ _ _ _ _ _ _ g1 Hg1)|].
      intros r s2 (X & g & HF & Hr & Hg & HL & HC). exists g.
      repeat split; eauto. }
  eapply wp_consequence; [exact H2|]. clear H2.
  intros r2 s2 (g2 & Hg2 & Hfr2 & HL2 & HC2).
  apply wp_bind, wp_bind, wp_reader; [readers|]. intros dd.
  eapply wp_assign; [exact Hg2|].
  apply wp_bind, wp_append, wp_ret. cbn [lists cache].
  split; [now rewrite HL2, HL1, <- !replay_app|].
  split; [congruence|].
  assert (Hfinal : <[r2 := setitem g2 res (Floats dd)]> (frames s2) !! df = Some f
                   \/ <[r2 := setitem g2 res (Floats dd)]> (frames s2) !! df
                      = Some (setitem f res (Floats dd))).
  { destruct (Nat.eq_dec r2 df) as [->|Hne].
    - right. rewrite list_lookup_insert_eq by (now apply lookup_lt_Some in Hg2).
      do 2 f_equal.
      destruct Hfr2 as [[E1 E2]|(X & E2 & Hr)]; [|lia].
      rewrite E2 in Hg2. congruence.
    - left. rewrite list_lookup_insert_ne by exact Hne.
      destruct Hfr2 as [[E1 E2]|(X & E2 & Hr)]; rewrite E2;
        [exact Hdf1 | now apply lookup_app_l_Some]. }
  unfold frame_at. cbn [frames].
  destruct Hfinal as [->| ->]; [now split|].
  change (default [] (Some ?z)) with z.
  now rewrite !contains_setitem_ne.
Qed.

End Composites.

Section RegisteredCalls.

Import Pipeline Indicators.

Lemma registered_composite c s df cv st x y res ma1 tp1 ma2 tp2 a o f
    (m : M df_ref) :
  run c = returning m ->
  m = (let* columns := columns_of df in
       let* df1 :=
         (if negb (contains columns x)
          then proc_add_mov_avg df cv st ma1 tp1 "Date" a "Close" o
          else ret df) in
       let* df2 :=
         (if negb (contains columns y)
          then proc_add_mov_avg df1 cv st ma2 tp2 "Date" a "Close" o
          else ret df1) in
       (let* d := difference df2 x y in assign df2 res d) ;;;
       append cv res ;;;
       ret df2) ->
  (forall s', settled c s' = true) ->
  (forall s', log_of c s'
              = composite_log s' df cv x y res
                  (moving_average_log cv ma1 tp1 a "Close" o)
                  (moving_average_log cv ma2 tp2 a "Close" o)) ->
  x <> res -> y <> res ->
  frames s !! df = Some f ->
  wp (run c) s (fun _ s' => registered c s s').
Proof.
  intros -> -> Hs Hlog Hx Hy Hf. unfold returning. apply wp_bind.
  eapply wp_consequence; [apply (composite_effect _ _ _ _ _ _ _ _ _ _ _ _ _ f Hx Hy Hf)|].
  intros r s' (HL & HC & Hcx & Hcy). apply wp_ret.
  split; [exists []; now rewrite app_nil_r, Hlog|].
  split; [exact HC|]. split; [apply Hs|]. intros _.
  rewrite !Hlog. unfold composite_log. cbv zeta. rewrite Hcx, Hcy.
  unfold frame_at. now rewrite Hf.
Qed.

(** What a returning call leaves, for every call of the pipeline on a
    live table. *)
Lemma registered_run c s f :
  frames s !! table_of c = Some f ->
  wp (run c) s (fun _ s' => registered c s s').
Proof.
  intros Hf.
  destruct c;
    try (repeat match goal with b : bool |- _ => destruct b end; static_call);
    cbn [table_of] in Hf.
  - now apply (registered_datepart _ _ _ _ _ f).
  - now apply (registered_direction _ _ _ _ _ _ f).
  - now apply (registered_bband _ _ _ _ _ _ _ _ f).
  - now apply (registered_macd _ _ _ _ f).
  - eapply (registered_composite _ _ df cont_vars stock "WMA_5" "WMA_20"
              "WMA_5_EMA_20_Diff" "wma" 5 "wma" 20 add_diff add_ohlc_diff f);
      try reflexivity; try discriminate; exact Hf.
  - eapply (registered_composite _ _ df cont_vars stock "WMA_20" "WMA_60"
              "WMA_20_EMA_60_Diff" "wma" 20 "wma" 60 add_diff add_ohlc_diff f);
      try reflexivity; try discriminate; exact Hf.
  - eapply (registered_composite _ _ df cont_vars stock "EMA_10" "EMA_30"
              "EMA_10_EMA_30_Diff" "ema" 10 "ema" 30 add_diff add_ohlc_diff f);
      try reflexivity; try discriminate; exact Hf.
  - eapply (registered_composite _ _ df cont_vars stock "SMA_20" "SMA_200"
              "SMA_200_SMA_20_Diff" "sma" 20 "sma" 200 false add_ohlc_diff f);
      try reflexivity; try discriminate; exact Hf.
Qed.

End RegisteredCalls.

Section TablesStay.

(** No step of a computation drops a table. *)
Lemma invariant_length {A} n (m : M A) :
  (forall s, length (frames s) <= length (frames (final (m s)))) ->
  invariant (fun s => n <= length (frames s)) m.
Proof. intros H s Hs. specialize (H s). cbv beta. lia. Qed.

Lemma invariant_new_frame n f :
  invariant (fun s => n <= length (frames s)) (new_frame f).
Proof. apply invariant_length. intros s. cbn. rewrite length_app. lia. Qed.

Lemma invariant_put_frame n r f :
  invariant (fun s => n <= length (frames s)) (put_frame r f).
Proof. apply invariant_length. intros s. cbn. now rewrite length_insert. Qed.

Lemma invariant_fetch n i st p :
  invariant (fun s => n <= length (frames s)) (get_cached_tech_indicator i st p).
Proof.
  apply invariant_length. intros s. unfold get_cached_tech_indicator.
  destruct (cache s i st p); cbn; [lia | rewrite length_app; lia].
Qed.

Lemma invariant_lists {A} (I : store -> Prop) (m : M A) :
  (forall s, frames (final (m s)) = frames s) ->
  (forall s s', frames s' = frames s -> I s -> I s') ->
  invariant I m.
Proof. intros Hm HI s Hs. exact (HI s _ (Hm s) Hs). Qed.

Lemma invariant_list_op {A} n (m : M A) :
  (forall s, frames (final (m s)) = frames s) ->
  invariant (fun s => n <= length (frames s)) m.
Proof. intros H. apply invariant_length. intros s. now rewrite H. Qed.

Lemma invariant_for_each {A} I (xs : list A) (body : A -> M unit) :
  (forall x, invariant I (body x)) -> invariant I (for_each xs body).
Proof.
  intros Hb. induction xs as [|x xs IH]; cbn [for_each].
  - apply invariant_reader, reader_ret.
  - apply invariant_bind; [apply Hb | intros _; exact IH].
Qed.

Lemma invariant_fold_each {A S} I (xs : list A) (body : A -> S -> M S) acc :
  (forall x a, invariant I (body x a)) -> invariant I (fold_each xs body acc).
Proof.
  intros Hb. revert acc. induction xs as [|x xs IH]; intros acc; cbn [fold_each].
  - apply invariant_reader, reader_ret.
  - apply invariant_bind; [apply Hb | intros a; apply IH].
Qed.

Lemma frames_append l x s : frames (final (append l x s)) = frames s.
Proof. reflexivity. Qed.

Lemma frames_new_list xs s : frames (final (new_list xs s)) = frames s.
Proof. reflexivity. Qed.

Lemma frames_put_list l xs s : frames (final (put_list l xs s)) = frames s.
Proof. reflexivity. Qed.

End TablesStay.

(** Computations that keep every table in place. *)
Ltac tables_stay :=
  cbv beta zeta delta
    [assign assign_where pd_merge fillna proc_fill_nan __rename_column convert_date
     __load_moving_avg tolist __update_meta_data remove DBG];
  repeat first
    [ apply invariant_new_frame
    | apply invariant_put_frame
    | apply invariant_fetch
    | apply invariant_list_op; solve [apply frames_append | apply frames_new_list
                                     | apply frames_put_list]
    | apply invariant_bind; [|intros ?]
    | apply invariant_if
    | apply invariant_for_each; intros ?
    | apply invariant_fold_each; intros ? ?
    | apply invariant_reader; solve [readers] ].

Section TablesStayCalls.

Import Pipeline Indicators.

Lemma tables_stay_mov_avg n df cv st ma tp on a d o :
  invariant (fun s => n <= length (frames s)) (proc_add_mov_avg df cv st ma tp on a d o).
Proof. unfold proc_add_mov_avg. cbv zeta. tables_stay. Qed.

Lemma tables_stay_run n c : invariant (fun s => n <= length (frames s)) (run c).
Proof.
  destruct c; cbn [run]; unfold returning;
    (apply invariant_bind; [|intros ?; apply invariant_reader, reader_ret]).
  all: cbv beta zeta delta
         [proc_close_only proc_add_datepart proc_add_next_y proc_add_previous_values
          proc_add_percent_change proc_add_abs_percent_change proc_add_direction
          proc_add_volatility proc_add_adx proc_add_obv proc_add_mom proc_add_rsi
          proc_add_ohlc_avg proc_add_bband proc_add_macd
          proc_add_wma5_wma_20_diff proc_add_wma20_wma_60_diff
          proc_add_ema10_ema_30_diff proc_add_sma20_sma_200_diff
          proc_add_wma60 proc_add_wma5 proc_add_wma20 proc_add_ema30 proc_add_ema10
          proc_add_sma20 proc_add_sma200].
  all: try apply tables_stay_mov_avg.
  all: tables_stay.
  all: try apply tables_stay_mov_avg.
Qed.

End TablesStayCalls.

Section Twice.

Import Pipeline Indicators.

Lemma lookup_registered c s s' l xs :
  registered c s s' ->
  lists s !! l = Some xs ->
  lists s' !! l = Some (xs ++ names_at l (log_of c s)).
Proof.
  intros [[T HL] _] Hx. rewrite HL, lookup_replay.
  now rewrite (lookup_app_l_Some _ _ _ _ Hx).
Qed.

(** C4. Whatever a call of the pipeline does, and however it ends, every
    metadata list keeps its entries in place and only gains entries at
    its end.  When the call returns and is made again on a live table,
    the second call appends to every list the names the first call
    appended there, so they stand twice; but [proc_add_direction] on a
    table without the percentage-change column adds that column in
    place, registers it on the first call only, and on the second call
    appends the direction name alone. *)
Theorem metadata_lists_only_grow c s :
  (forall l xs, lists s !! l = Some xs ->
     exists ys, lists (final (run c s)) !! l = Some (xs ++ ys))
  /\ (forall r1 s1 r2 s2 l xs ys,
        is_Some (frames s !! table_of c) ->
        run c s = Return r1 s1 ->
        run c s1 = Return r2 s2 ->
        lists s !! l = Some xs ->
        lists s1 !! l = Some (xs ++ ys) ->
        (settled c s = true -> lists s2 !! l = Some (xs ++ ys ++ ys))
        /\ (forall df col cat cv nt,
              c = add_direction df col cat cv nt ->
              settled c s = false ->
              ys = (if Nat.eqb cv l then [col +:+ "-pct"] else [])
                   ++ (if Nat.eqb cat l then [col +:+ "-direction"] else [])
              /\ lists s2 !! l
                 = Some (xs ++ ys
                         ++ (if Nat.eqb cat l then [col +:+ "-direction"] else [])))).
Proof.
  split.
  - intros l xs Hx.
    destruct (keeps_run (length (lists s)) c s (Nat.le_refl _)) as [_ H].
    apply (H l xs); [now apply lookup_lt_Some in Hx | exact Hx].
  - intros r1 s1 r2 s2 l xs ys [f Hf] H1 H2 Hx Hy.
    pose proof (wp_Return _ _ _ _ _ (registered_run c s f Hf) H1) as R1.
    assert (Hlive : is_Some (frames s1 !! table_of c)).
    { apply lookup_lt_is_Some.
      pose proof (tables_stay_run (S (table_of c)) c s) as Hn.
      cbv beta in Hn. rewrite H1 in Hn. cbn [final] in Hn.
      apply Hn. now apply lookup_lt_Some in Hf. }
    destruct Hlive as [f1 Hf1].
    pose proof (wp_Return _ _ _ _ _ (registered_run c s1 f1 Hf1) H2) as R2.
    pose proof (lookup_registered c s s1 l xs R1 Hx) as E1.
    pose proof (lookup_registered c s1 s2 l _ R2 Hy) as E2.
    rewrite Hy in E1. injection E1 as E1. apply app_inv_head in E1.
    destruct R1 as (_ & _ & Hset1 & Hsame). split.
    + intros Hs. rewrite E2, (Hsame Hs), <- E1. now rewrite <- app_assoc.
    + intros df col cat cv nt -> Hs. cbn [settled log_of] in *.
      rewrite Hs in E1. rewrite Hset1 in E2.
      unfold names_at in E1, E2. cbn [List.filter fst snd app map] in E1, E2.
      rewrite E2, <- app_assoc. subst ys.
      destruct (Nat.eqb cv l), (Nat.eqb cat l); now split.
Qed.

Lemma metadata_lists_only_grow_witness :
  exists r1 s1 r2 s2,
    run (add_percent_change 0 "Close" 0) three_days_store = Return r1 s1
    /\ run (add_percent_change 0 "Close" 0) s1 = Return r2 s2
    /\ lists s1 !! 0%nat = Some ([] ++ ["Close-pct"])
    /\ lists s2 !! 0%nat = Some ([] ++ ["Close-pct"] ++ ["Close-pct"]).
Proof.
  do 4 eexists. split; [vm_compute; reflexivity|].
  split; [vm_compute; reflexivity|]. split; [reflexivity|].
  refine (proj1 (proj2 (metadata_lists_only_grow
                          (add_percent_change 0 "Close" 0) three_days_store)
                   _ _ _ _ 0%nat [] ["Close-pct"] _ _ _ _ _) _);
    try reflexivity.
  eexists. reflexivity.
Defined.

(** [proc_add_direction] called twice on a table without the
    percentage-change column: the second call meets the column the first
    one added, and "Close-pct" stands once in [cont_vars]. *)
Lemma direction_twice_registers_pct_once :
  exists r1 s1 r2 s2,
    run (add_direction 0 "Close" 1 0 (7 # 100)) three_days_store = Return r1 s1
    /\ run (add_direction 0 "Close" 1 0 (7 # 100)) s1 = Return r2 s2
    /\ lists three_days_store !! 0%nat = Some []
    /\ lists s1 !! 0%nat = Some ["Close-pct"]
    /\ lists s2 !! 0%nat = Some ["Close-pct"]
    /\ lists s2 !! 0%nat <> Some ["Close-pct"; "Close-pct"].
Proof.
  do 4 eexists. split; [vm_compute; reflexivity|].
  split; [vm_compute; reflexivity|].
  repeat split; discriminate.
Qed.

End Twice.


(** * The utilities *)

Import Utilities.

Section SplitData.

Lemma values_slice_column a b c :
  values (slice_column a b c) = take (b - a) (skipn a (values c)).
Proof.
  destruct c as [xs|ds]; cbn [slice_column values]; [reflexivity|].
  now rewrite List.skipn_map, List.firstn_map.
Qed.

Lemma get_slice a b df name :
  get (slice a b df) name = option_map (slice_column a b) (get df name).
Proof.
  induction df as [|[n c] df IH]; cbn [slice map get fst snd option_map]; [reflexivity|].
  destruct (String.eqb n name); [reflexivity | exact IH].
Qed.

Lemma int_nonneg x : (0 <= x)%Q -> (0 <= int x)%Z.
Proof.
  intros H. unfold int. apply Z.quot_pos; [|lia].
  unfold Qle in H. cbn in H. lia.
Qed.

Lemma int_le_of_ratio n q :
  (0 <= q)%Q -> (q <= 1)%Q -> (int (inject_Z (Z.of_nat n) * q) <= Z.of_nat n)%Z.
Proof.
  intros H0 H1. unfold int. destruct q as [a d]. unfold Qle in *. cbn in *.
  apply Z.quot_le_upper_bound; [lia|]. nia.
Qed.

Lemma columns_slice a b df : columns (slice a b df) = columns df.
Proof. unfold columns, slice. rewrite map_map. reflexivity. Qed.

(** X1. [split_data] with a ratio in (0, 1] cuts the table in two
    without losing, repeating or reordering a row: both parts keep the
    columns of the table, and in every full-length column the rows of the
    training part followed by those of the test part are the rows of the
    table; the training part never has more rows than the table, and
    with ratio 1 it is the whole table and the test part is empty. *)
Theorem split_data_partitions df q :
  (0 < q)%Q -> (q <= 1)%Q ->
  exists train test,
    split_data df q = inr (train, test)
    /\ columns train = columns df
    /\ columns test = columns df
    /\ forall name c,
         get df name = Some c -> size c = nrows df ->
         exists a b,
           get train name = Some a
           /\ get test name = Some b
           /\ values c = values a ++ values b
           /\ size a <= nrows df
           /\ (q == 1 -> size b = 0%nat)%Q.
Proof.
  intros H0 H1. unfold split_data.
  assert (E1 : Qle_bool q 1 = true) by now apply Qle_bool_iff.
  assert (E0 : Qlt_bool 0 q = true) by now apply Qlt_bool_iff.
  rewrite E1, E0. cbn [negb]. cbv zeta.
  set (n := nrows df).
  set (ts := Z.to_nat (int (inject_Z (Z.of_nat n) * q))).
  assert (Hint : (0 <= int (inject_Z (Z.of_nat n) * q))%Z).
  { apply int_nonneg. apply Qmult_le_0_compat; [|now apply Qlt_le_weak].
    change 0%Q with (inject_Z 0). rewrite <- Zle_Qle. lia. }
  assert (Hts : ts <= n).
  { unfold ts. pose proof (int_le_of_ratio n q (Qlt_le_weak _ _ H0) H1). lia. }
  do 2 eexists. split; [reflexivity|].
  split; [apply columns_slice|]. split; [apply columns_slice|].
  intros name c Hc Hsize. rewrite !get_slice, Hc. cbn [option_map].
  do 2 eexists. split; [reflexivity|]. split; [reflexivity|].
  rewrite !values_slice_column, Nat.sub_0_r.
  assert (Hlen : length (values c) = n).
  { rewrite <- Hsize. destruct c; cbn [values size]; [reflexivity | apply length_map]. }
  assert (Hsz : forall a b, size (slice_column a b c) = length (take (b - a) (skipn a (values c)))).
  { intros a b. rewrite <- values_slice_column.
    destruct (slice_column a b c); cbn [values size]; [reflexivity|].
    now rewrite length_map. }
  rewrite !Hsz, Nat.sub_0_r, drop_0.
  rewrite (take_ge (skipn ts (values c))) by (rewrite length_skipn, Hlen; lia).
  split; [now rewrite firstn_skipn|].
  rewrite length_take, length_skipn, Hlen, Nat.min_l by lia.
  split; [lia|].
  intros Hq. assert (ts = n); [|lia].
  unfold ts, int. destruct q as [a d]. unfold Qeq in Hq. cbn in Hq |- *.
  assert (a = Z.pos d) by lia. subst a.
  rewrite Z.quot_mul by lia. lia.
Qed.

Lemma split_data_partitions_witness :
  exists train test,
    split_data three_days (2 # 3) = inr (train, test)
    /\ columns train = columns three_days
    /\ columns test = columns three_days
    /\ forall name c,
         get three_days name = Some c -> size c = nrows three_days ->
         exists a b,
           get train name = Some a
           /\ get test name = Some b
           /\ values c = values a ++ values b
           /\ size a <= nrows three_days
           /\ ((2 # 3) == 1 -> size b = 0%nat)%Q.
Proof. apply (split_data_partitions three_days (2 # 3)); reflexivity || discriminate. Defined.

(** X2. [split_data] fails its assertions exactly when the ratio is not
    in (0, 1]. *)
Theorem split_data_asserts df q :
  split_data df q = inl AssertionError <-> ~ (0 < q /\ q <= 1)%Q.
Proof.
  unfold split_data.
  destruct (Qle_bool q 1) eqn:E1; cbn [negb].
  - destruct (Qlt_bool 0 q) eqn:E0; cbn [negb].
    + apply Qle_bool_iff in E1. apply Qlt_bool_iff in E0.
      split; [discriminate | tauto].
    + split; [|reflexivity]. intros _ [H _]. apply Qlt_bool_iff in H. congruence.
  - split; [|reflexivity]. intros _ [_ H]. apply Qle_bool_iff in H. congruence.
Qed.

End SplitData.

Section RenameData.

(** The renames of [rename_data], one after the other, are one pass over
    the column names. *)
Lemma tidy_names (crypto : bool) (f : DataFrame) :
  (if crypto
   then Frame.rename (Frame.rename (Frame.rename (Frame.rename (Frame.rename (Frame.rename (Frame.rename f "date" "Date")
          "1. open" "Open") "2. high" "High") "3. low" "Low") "4. close" "Close")
          "5. volume" "Volume") "6. market cap (USD)" "Market Cap"
   else Frame.rename (Frame.rename (Frame.rename (Frame.rename (Frame.rename (Frame.rename f "date" "Date")
          "1. open" "Open") "2. high" "High") "3. low" "Low") "4. close" "Close")
          "5. volume" "Volume")
  = map (fun nc => (tidy_name crypto (fst nc), snd nc)) f.
Proof.
  destruct crypto; unfold Frame.rename; rewrite !map_map; apply map_ext;
    intros [n c]; cbn [fst snd andb]; f_equal; unfold tidy_name; cbn [andb];
    repeat match goal with
           | |- context [String.eqb n ?a] =>
               destruct (String.eqb_spec n a) as [->|?]; [reflexivity|]
           end;
    reflexivity.
Qed.

(** X3. [rename_data] never fails on a live table: a raw column name
    that is missing is passed over.  It returns a new table with the same
    columns in the same order, each under its tidy name, and leaves the
    table it was given, the metadata lists and the cache as they were. *)
Theorem rename_data_tidies s data f crypto :
  frames s !! data = Some f ->
  exists r s',
    rename_data data crypto s = Return r s'
    /\ frames s' !! r = Some (map (fun nc => (tidy_name crypto (fst nc), snd nc)) f)
    /\ r <> data
    /\ frames s' !! data = Some f
    /\ lists s' = lists s
    /\ cache s' = cache s.
Proof.
  intros Hf. destruct s as [F L C]. cbn [frames lists cache] in *.
  assert (Hlt : data < length F) by (now apply lookup_lt_Some in Hf).
  rewrite <- (tidy_names crypto f).
  destruct crypto.
  - exists (length F + 6). eexists. split; [unfold rename_data; run|].
    cbn [frames lists cache]. rewrite lookup_new.
    repeat split; [lia | now apply lookup_app_l_Some].
  - exists (length F + 5). eexists. split; [unfold rename_data; run|].
    cbn [frames lists cache]. rewrite lookup_new.
    repeat split; [lia | now apply lookup_app_l_Some].
Qed.

Lemma rename_data_tidies_witness :
  exists r s',
    rename_data 0 false (Store [three_days_adx] [] empty_cache) = Return r s'
    /\ frames s' !! r
       = Some (map (fun nc => (tidy_name false (fst nc), snd nc)) three_days_adx)
    /\ r <> 0%nat
    /\ frames s' !! 0%nat = Some three_days_adx
    /\ lists s' = []
    /\ cache s' = empty_cache.
Proof.
  apply (rename_data_tidies (Store [three_days_adx] [] empty_cache) 0 three_days_adx false).
  reflexivity.
Defined.

End RenameData.

(** * The transforms, one by one *)

Section CloseOnly.

Lemma get_dropped f names name :
  get (List.filter (fun nc => negb (existsb (String.eqb (fst nc)) names)) f) name
  = if existsb (String.eqb name) names then None else get f name.
Proof.
  induction f as [|[n c] r IH]; cbn [List.filter get fst].
  - now destruct (existsb _ names).
  - destruct (String.eqb n name) eqn:E.
    + apply String.eqb_eq in E. subst n.
      destruct (existsb (String.eqb name) names) eqn:En; cbn [negb get].
      * rewrite IH; try rewrite En; reflexivity.
      * now rewrite String.eqb_refl.
    + destruct (existsb (String.eqb n) names); cbn [negb get];
        [exact IH | rewrite E; exact IH].
Qed.

Lemma drop_cases f names :
  match Frame.drop f names with
  | inr g =>
      forallb (has_column f) names = true
      /\ g = List.filter (fun nc => negb (existsb (String.eqb (fst nc)) names)) f
  | inl e =>
      exists n, e = KeyError n /\ In n names /\ has_column f n = false
  end.
Proof.
  unfold Frame.drop.
  destruct (find (fun n => negb (has_column f n)) names) as [n|] eqn:E.
  - apply find_some in E as [Hin Hn]. exists n. repeat split; [exact Hin|].
    now apply negb_true_iff.
  - split; [|reflexivity]. apply forallb_forall. intros n Hin.
    pose proof (find_none _ _ E n Hin) as H. now apply negb_false_iff in H.
Qed.

Lemma columns_dropped f names :
  columns (List.filter (fun nc => negb (existsb (String.eqb (fst nc)) names)) f)
  = List.filter (fun n => negb (existsb (String.eqb n) names)) (columns f).
Proof.
  unfold columns.
  induction f as [|[n c] r IH]; cbn [List.filter map fst]; [reflexivity|].
  destruct (negb (existsb (String.eqb n) names)); cbn [map fst];
    [f_equal|]; exact IH.
Qed.

(** X4. On a table that has the columns Open, High, Low and Volume,
    [proc_close_only] returns a new table without these four and with
    every other column as it was; the table it was given stays whole.
    "Close" is appended to [cont_vars], whether or not the table has a
    Close column. *)
Theorem close_only_drops_the_four s df cv f :
  frames s !! df = Some f ->
  forallb (has_column f) ["Open"; "High"; "Low"; "Volume"] = true ->
  exists out,
    proc_close_only df cv s
    = Return (length (frames s))
        (Store (frames s ++ [out]) (push cv "Close" (lists s)) (cache s))
    /\ (forall name,
          get out name
          = if existsb (String.eqb name) ["Open"; "High"; "Low"; "Volume"]
            then None else get f name)
    /\ columns out
       = List.filter
           (fun n => negb (existsb (String.eqb n) ["Open"; "High"; "Low"; "Volume"]))
           (columns f)
    /\ (frames s ++ [out]) !! df = Some f.
Proof.
  intros Hf Hall. destruct s as [F L C]. cbn [frames lists cache] in *.
  pose proof (drop_cases f ["Open"; "High"; "Low"; "Volume"]) as Hd.
  destruct (Frame.drop f ["Open"; "High"; "Low"; "Volume"]) as [e|g] eqn:E.
  - destruct Hd as (n & _ & Hin & Hn). rewrite forallb_forall in Hall.
    rewrite (Hall n Hin) in Hn. discriminate.
  - destruct Hd as [_ ->]. eexists. split; [|split; [|split]].
    + unfold proc_close_only. cbv zeta.
      rewrite (bind_Return _ _ _ _ _ (append_run_any F L C cv "Close")).
      rewrite (bind_Return _ _ _ _ _ (frame_of_run F _ C df f Hf)), E.
      reflexivity.
    + intros name. apply get_dropped.
    + apply columns_dropped.
    + now apply lookup_app_l_Some.
Qed.

Lemma close_only_drops_the_four_witness :
  exists out,
    proc_close_only 0 0 (Store [("Volume", Floats []) :: three_days] [[]] empty_cache)
    = Return 1%nat
        (Store ([("Volume", Floats []) :: three_days] ++ [out])
           (push 0 "Close" [[]]) empty_cache)
    /\ (forall name,
          get out name
          = if existsb (String.eqb name) ["Open"; "High"; "Low"; "Volume"]
            then None else get (("Volume", Floats []) :: three_days) name)
    /\ columns out
       = List.filter
           (fun n => negb (existsb (String.eqb n) ["Open"; "High"; "Low"; "Volume"]))
           (columns (("Volume", Floats []) :: three_days))
    /\ ([("Volume", Floats []) :: three_days] ++ [out]) !! 0%nat
       = Some (("Volume", Floats []) :: three_days).
Proof.
  apply (close_only_drops_the_four
           (Store [("Volume", Floats []) :: three_days] [[]] empty_cache) 0 0
           (("Volume", Floats []) :: three_days)); reflexivity.
Defined.

(** X5. On a table that lacks one of Open, High, Low and Volume,
    [proc_close_only] raises the KeyError of a missing one and makes no
    table, but "Close" already stands in [cont_vars]: the name is
    registered before the columns are dropped. *)
Theorem close_only_registers_before_it_fails s df cv f :
  frames s !! df = Some f ->
  forallb (has_column f) ["Open"; "High"; "Low"; "Volume"] = false ->
  exists n,
    In n ["Open"; "High"; "Low"; "Volume"]
    /\ has_column f n = false
    /\ proc_close_only df cv s
       = Raise (KeyError n)
           (Store (frames s) (push cv "Close" (lists s)) (cache s)).
Proof.
  intros Hf Hall. destruct s as [F L C]. cbn [frames lists cache] in *.
  pose proof (drop_cases f ["Open"; "High"; "Low"; "Volume"]) as Hd.
  destruct (Frame.drop f ["Open"; "High"; "Low"; "Volume"]) as [e|g] eqn:E.
  - destruct Hd as (n & -> & Hin & Hn). exists n. split; [exact Hin|].
    split; [exact Hn|].
    unfold proc_close_only. cbv zeta.
    rewrite (bind_Return _ _ _ _ _ (append_run_any F L C cv "Close")).
    rewrite (bind_Return _ _ _ _ _ (frame_of_run F _ C df f Hf)), E.
    reflexivity.
  - destruct Hd as [Hd _]. congruence.
Qed.

Lemma close_only_registers_before_it_fails_witness :
  exists n,
    In n ["Open"; "High"; "Low"; "Volume"]
    /\ has_column three_days n = false
    /\ proc_close_only 0 0 three_days_store
       = Raise (KeyError n)
           (Store (frames three_days_store)
              (push 0 "Close" (lists three_days_store)) (cache three_days_store)).
Proof.
  apply (close_only_registers_before_it_fails three_days_store 0 0 three_days);
    reflexivity.
Defined.

End CloseOnly.

Section Shifts.

Lemma length_shift n xs : length (shift n xs) = length xs.
Proof.
  unfold shift. destruct (0 <=? n)%Z.
  - rewrite length_take, length_app, length_replicate. apply Nat.min_l. lia.
  - rewrite length_app, length_skipn, length_replicate.
    generalize (Z.to_nat (- n)). intros k.
    destruct (Nat.min_spec k (length xs)) as [[? ->]|[? ->]]; lia.
Qed.

(** [shift(-k)]: row [i] takes the value [k] rows further down, NaN when
    there is none. *)
Lemma shift_up (k : nat) xs (i : nat) :
  i < length xs ->
  shift (- Z.of_nat k) xs !! i = Some (default NaN (xs !! (i + k))).
Proof.
  intros Hi. unfold shift.
  destruct (0 <=? - Z.of_nat k)%Z eqn:E.
  - apply Z.leb_le in E. assert (k = 0) by lia. subst k.
    change (Z.to_nat (- Z.of_nat 0)) with 0. cbn [replicate app].
    rewrite take_ge by lia.
    rewrite Nat.add_0_r. destruct (xs !! i) eqn:Ex; [reflexivity|].
    apply lookup_ge_None in Ex. lia.
  - rewrite Z.opp_involutive, Nat2Z.id.
    destruct (decide (i + k < length xs)) as [Hlt|Hge].
    + rewrite lookup_app_l by (rewrite length_skipn; lia).
      rewrite lookup_drop, (Nat.add_comm k i).
      destruct (xs !! (i + k)) eqn:Ex; [reflexivity|].
      apply lookup_ge_None in Ex. lia.
    + rewrite lookup_app_r by (rewrite length_skipn; lia).
      rewrite (proj2 (lookup_ge_None xs (i + k))) by lia.
      apply lookup_replicate. split; [reflexivity|].
      rewrite length_skipn. lia.
Qed.

(** [shift(k)]: the first [k] rows are NaN, row [i] takes the value [k]
    rows further up. *)
Lemma shift_down (k : nat) xs (i : nat) :
  i < length xs ->
  shift (Z.of_nat k) xs !! i
  = Some (if (i <? k)%nat then NaN else default NaN (xs !! (i - k))).
Proof.
  intros Hi. unfold shift.
  rewrite (proj2 (Z.leb_le 0 (Z.of_nat k))) by lia. rewrite Nat2Z.id.
  rewrite lookup_take_lt by exact Hi.
  destruct (Nat.ltb_spec i k) as [Hlt|Hge].
  - rewrite lookup_app_l by (rewrite length_replicate; lia).
    now apply lookup_replicate.
  - rewrite lookup_app_r by (rewrite length_replicate; lia).
    rewrite length_replicate.
    destruct (xs !! (i - k)) eqn:Ex; [reflexivity|].
    apply lookup_ge_None in Ex. lia.
Qed.

End Shifts.

Section NextY.

(** X6. [proc_add_next_y] with a number of rows [number >= 0] writes
    into the table itself a column "y" of as many rows as [y_column]:
    row [i] holds the value of [y_column] at row [i + number], and NaN
    when the table ends before that row; "y" is appended to
    [cont_vars] and the table given is the table returned. *)
Theorem next_y_looks_ahead s df f y_column (number : nat) cv ys :
  frames s !! df = Some f ->
  get f y_column = Some (Floats ys) ->
  exists out,
    proc_add_next_y df y_column (Z.of_nat number) cv s
    = Return df
        (Store (<[df := setitem f "y" (Floats out)]> (frames s))
           (push cv "y" (lists s)) (cache s))
    /\ length out = length ys
    /\ forall i, i < length ys ->
         out !! i = Some (default NaN (ys !! (i + number))).
Proof.
  intros Hf Hy. destruct s as [F L C]. cbn [frames lists cache] in *.
  exists (shift (- Z.of_nat number) ys). split; [|split].
  - unfold proc_add_next_y. cbv zeta.
    rewrite (bind_Return _ _ _ _ _ (series_run F L C df f y_column ys Hf Hy)).
    rewrite (bind_Return _ _ _ _ _ (assign_run F L C df f "y" _ Hf)).
    rewrite (bind_Return _ _ _ _ _ (append_run_any _ L C cv "y")).
    reflexivity.
  - apply length_shift.
  - intros i Hi. now apply shift_up.
Qed.

Lemma next_y_looks_ahead_witness :
  exists out,
    proc_add_next_y 0 "Close" (Z.of_nat 1) 0 three_days_store
    = Return 0%nat
        (Store (<[0%nat := setitem three_days "y" (Floats out)]> (frames three_days_store))
           (push 0 "y" (lists three_days_store)) (cache three_days_store))
    /\ length out = length (finite [11; 12; 13]%Z)
    /\ forall i, i < length (finite [11; 12; 13]%Z) ->
         out !! i = Some (default NaN (finite [11; 12; 13]%Z !! (i + 1))).
Proof.
  apply (next_y_looks_ahead three_days_store 0 three_days "Close" 1 0
           (finite [11; 12; 13]%Z)); reflexivity.
Defined.

End NextY.

Section PreviousValues.

Lemma lag_name_differs col k : col +:+ "-" +:+ str k <> col.
Proof.
  intros H. apply (f_equal String.length) in H.
  rewrite !length_append in H. cbn [String.length] in H. lia.
Qed.

Lemma lag_name_inj col k k' : col +:+ "-" +:+ str k = col +:+ "-" +:+ str k' -> k = k'.
Proof.
  intros H. apply append_inj_l in H. injection H as H.
  now apply pretty_Z_inj in H.
Qed.

Lemma get_lagged_other col xs ks g name :
  (forall k, In k ks -> name <> col +:+ "-" +:+ str k) ->
  get (lagged col xs ks g) name = get g name.
Proof.
  revert g. induction ks as [|k ks IH]; intros g Hk; [reflexivity|].
  cbn [lagged fold_left]. change (fold_left _ ks ?h) with (lagged col xs ks h).
  rewrite IH by (intros k' Hin; apply Hk; now right).
  apply get_setitem_ne. intros E. apply (Hk k); [now left | now symmetry].
Qed.

Lemma get_lagged col xs ks g k :
  In k ks ->
  get (lagged col xs ks g) (col +:+ "-" +:+ str k) = Some (Floats (shift k xs)).
Proof.
  revert g. induction ks as [|k0 ks IH]; intros g Hin; [contradiction|].
  cbn [lagged fold_left]. change (fold_left _ ks ?h) with (lagged col xs ks h).
  destruct (in_dec Z.eq_dec k ks) as [Hk|Hk]; [now apply IH|].
  destruct Hin as [->|Hin]; [|contradiction].
  rewrite get_lagged_other.
  - apply get_setitem_eq.
  - intros k' Hk' E. apply lag_name_inj in E. now subst.
Qed.

Lemma previous_values_loop C df col cont xs ks :
  forall F L g,
    F !! df = Some g ->
    get g col = Some (Floats xs) ->
    for_each ks
      (fun n =>
         let* xs := series df col in
         assign df (col +:+ "-" +:+ str n) (shift n xs) ;;;
         append cont (col +:+ "-" +:+ str n)) (Store F L C)
    = Return tt
        (Store (<[df := lagged col xs ks g]> F)
           (replay (map (fun k => (cont, col +:+ "-" +:+ str k)) ks) L) C).
Proof.
  induction ks as [|k ks IH]; intros F L g HF Hg; cbn [for_each lagged fold_left map].
  - cbn [replay fold_left]. now rewrite list_insert_id.
  - rewrite (bind_Return _ _ _ tt
               (Store (<[df := setitem g (col +:+ "-" +:+ str k) (Floats (shift k xs))]> F)
                  (push cont (col +:+ "-" +:+ str k) L) C)).
    + rewrite (IH _ _ (setitem g (col +:+ "-" +:+ str k) (Floats (shift k xs)))).
      * now rewrite list_insert_insert_eq.
      * apply list_lookup_insert_eq. now apply lookup_lt_Some in HF.
      * rewrite get_setitem_ne by apply lag_name_differs. exact Hg.
    + rewrite (bind_Return _ _ _ _ _ (series_run F L C df g col xs HF Hg)).
      rewrite (bind_Return _ _ _ _ _ (assign_run F L C df g _ _ HF)).
      apply append_run_any.
Qed.

Lemma In_range a b k : In k (range a b) <-> (a <= k < b)%Z.
Proof.
  unfold range. rewrite in_map_iff. split.
  - intros (i & <- & Hi). apply in_seq in Hi. lia.
  - intros H. exists (Z.to_nat (k - a)). split; [lia|]. apply in_seq. lia.
Qed.

(** X7. [proc_add_previous_values] writes into the table itself one
    column [<column>-k] for each [k] from 1 to [number]: its first [k]
    rows are NaN and row [i] holds the value of the column at row
    [i - k].  The column itself and every column of another name stay as
    they were, the names are appended to [cont_vars] in the order of
    [k], and with [number <= 0] nothing is added at all. *)
Theorem previous_values_lag s df f col number cv xs :
  frames s !! df = Some f ->
  get f col = Some (Floats xs) ->
  exists out,
    proc_add_previous_values df col number cv s
    = Return df
        (Store (<[df := out]> (frames s))
           (replay (map (fun k => (cv, col +:+ "-" +:+ str k)) (range 1 (number + 1)))
              (lists s))
           (cache s))
    /\ get out col = Some (Floats xs)
    /\ (forall k : nat,
          1 <= k -> (Z.of_nat k <= number)%Z ->
          exists lag,
            get out (col +:+ "-" +:+ str (Z.of_nat k)) = Some (Floats lag)
            /\ length lag = length xs
            /\ forall i, i < length xs ->
                 lag !! i = Some (if (i <? k)%nat then NaN
                                  else default NaN (xs !! (i - k))))
    /\ (forall name,
          (forall k, (1 <= k <= number)%Z -> name <> col +:+ "-" +:+ str k) ->
          get out name = get f name)
    /\ ((number <= 0)%Z -> out = f).
Proof.
  intros Hf Hx. destruct s as [F L C]. cbn [frames lists cache] in *.
  exists (lagged col xs (range 1 (number + 1)) f). split; [|split; [|split; [|split]]].
  - unfold proc_add_previous_values.
    now rewrite (bind_Return _ _ _ _ _
                   (previous_values_loop C df col cv xs _ F L f Hf Hx)).
  - rewrite get_lagged_other; [exact Hx|]. intros k _ E.
    symmetry in E. now apply lag_name_differs in E.
  - intros k H1 Hk. exists (shift (Z.of_nat k) xs).
    split; [apply get_lagged, In_range; lia|].
    split; [apply length_shift|]. intros i Hi. now apply shift_down.
  - intros name Hname. apply get_lagged_other. intros k Hin.
    apply In_range in Hin. apply Hname. lia.
  - intros Hn. unfold range. now replace (Z.to_nat (number + 1 - 1)) with 0 by lia.
Qed.

Lemma previous_values_lag_witness :
  exists out,
    proc_add_previous_values 0 "Close" 2 0 three_days_store
    = Return 0%nat
        (Store (<[0%nat := out]> (frames three_days_store))
           (replay (map (fun k => (0%nat, "Close" +:+ "-" +:+ str k)) (range 1 (2 + 1)))
              (lists three_days_store))
           (cache three_days_store))
    /\ get out "Close" = Some (Floats (finite [11; 12; 13]%Z))
    /\ (forall k : nat,
          1 <= k -> (Z.of_nat k <= 2)%Z ->
          exists lag,
            get out ("Close" +:+ "-" +:+ str (Z.of_nat k)) = Some (Floats lag)
            /\ length lag = length (finite [11; 12; 13]%Z)
            /\ forall i, i < length (finite [11; 12; 13]%Z) ->
                 lag !! i = Some (if (i <? k)%nat then NaN
                                  else default NaN (finite [11; 12; 13]%Z !! (i - k))))
    /\ (forall name,
          (forall k, (1 <= k <= 2)%Z -> name <> "Close" +:+ "-" +:+ str k) ->
          get out name = get three_days name)
    /\ ((2 <= 0)%Z -> out = three_days).
Proof.
  apply (previous_values_lag three_days_store 0 three_days "Close" 2 0
           (finite [11; 12; 13]%Z)); reflexivity.
Defined.

End PreviousValues.

Section MissingColumn.

Lemma series_raises F L C df f name :
  F !! df = Some f -> get f name = None ->
  series df name (Store F L C) = Raise (KeyError name) (Store F L C).
Proof.
  intros Hf Hn. unfold series.
  rewrite (bind_Return _ _ _ _ _ (frame_of_run F L C df f Hf)).
  unfold floats. now rewrite Hn.
Qed.

(** X8. The transforms that derive a column from one column of the
    table read before they write: when that column is missing,
    [proc_add_next_y], [proc_add_percent_change],
    [proc_add_abs_percent_change], [proc_add_previous_values] (with
    [number >= 1]) and [proc_add_direction] (on a table without the
    percentage-change column) raise the KeyError of the column and leave
    the table, the metadata lists and the cache as they were. *)
Theorem missing_column_changes_nothing s df f col cv cat number nt :
  frames s !! df = Some f ->
  get f col = None ->
  proc_add_next_y df col number cv s = Raise (KeyError col) s
  /\ proc_add_percent_change df col cv s = Raise (KeyError col) s
  /\ proc_add_abs_percent_change df col cv s = Raise (KeyError col) s
  /\ ((1 <= number)%Z ->
      proc_add_previous_values df col number cv s = Raise (KeyError col) s)
  /\ (get f (col +:+ "-pct") = None ->
      proc_add_direction df col cat cv nt s = Raise (KeyError col) s).
Proof.
  intros Hf Hn. destruct s as [F L C]. cbn [frames] in Hf.
  pose proof (series_raises F L C df f col Hf Hn) as Hs.
  repeat split.
  - unfold proc_add_next_y. cbv zeta. now rewrite (bind_Raise _ _ _ _ _ Hs).
  - unfold proc_add_percent_change. cbv zeta. now rewrite (bind_Raise _ _ _ _ _ Hs).
  - unfold proc_add_abs_percent_change. cbv zeta. now rewrite (bind_Raise _ _ _ _ _ Hs).
  - intros Hnum. unfold proc_add_previous_values, range.
    replace (Z.to_nat (number + 1 - 1)) with (S (Z.to_nat (number - 1))) by lia.
    cbn [seq map for_each].
    erewrite bind_Raise; [reflexivity|].
    erewrite bind_Raise; [reflexivity|].
    now rewrite (bind_Raise _ _ _ _ _ Hs).
  - intros Hp. unfold proc_add_direction. cbv zeta.
    rewrite (bind_Return _ _ _ _ _ (columns_of_run F L C df f Hf)).
    assert (Hc : contains (columns f) (col +:+ "-pct") = false).
    { destruct (contains (columns f) (col +:+ "-pct")) eqn:E; [|reflexivity].
      unfold contains in E.
      change (existsb (String.eqb (col +:+ "-pct")) (columns f))
        with (has_column f (col +:+ "-pct")) in E.
      rewrite has_column_get, Hp in E. discriminate. }
    rewrite Hc. cbn [negb].
    erewrite bind_Raise; [reflexivity|].
    unfold proc_add_percent_change. cbv zeta. now rewrite (bind_Raise _ _ _ _ _ Hs).
Qed.

Lemma missing_column_changes_nothing_witness :
  proc_add_next_y 0 "Volume" 1 0 three_days_store
  = Raise (KeyError "Volume") three_days_store
  /\ proc_add_percent_change 0 "Volume" 0 three_days_store
     = Raise (KeyError "Volume") three_days_store
  /\ proc_add_abs_percent_change 0 "Volume" 0 three_days_store
     = Raise (KeyError "Volume") three_days_store
  /\ ((1 <= 1)%Z ->
      proc_add_previous_values 0 "Volume" 1 0 three_days_store
      = Raise (KeyError "Volume") three_days_store)
  /\ (get three_days ("Volume" +:+ "-pct") = None ->
      proc_add_direction 0 "Volume" 1 0 (7 # 100) three_days_store
      = Raise (KeyError "Volume") three_days_store).
Proof.
  apply (missing_column_changes_nothing three_days_store 0 three_days "Volume");
    reflexivity.
Defined.

End MissingColumn.

Section AbsPercentChange.

Lemma map_zip_with {A B C D} (g : C -> D) (f : A -> B -> C) xs ys :
  map g (zip_with f xs ys) = zip_with (fun x y => g (f x y)) xs ys.
Proof.
  revert ys. induction xs as [|x xs IH]; intros [|y ys]; cbn [zip_with map];
    try reflexivity. now rewrite IH.
Qed.

(** X9. [proc_add_abs_percent_change] writes into the table itself the
    column [<column>-abs-pct], of as many rows as the column.  Its first
    row is NaN; a row whose value [x] and whose previous value [p] are
    numbers, [p] not zero, holds [|x / p - 1| * 100]; no row is negative;
    and the name is appended to [cont_vars]. *)
Theorem abs_percent_change_rows s df f col cv xs :
  frames s !! df = Some f ->
  get f col = Some (Floats xs) ->
  exists out,
    proc_add_abs_percent_change df col cv s
    = Return df
        (Store (<[df := setitem f (col +:+ "-abs-pct") (Floats out)]> (frames s))
           (push cv (col +:+ "-abs-pct") (lists s)) (cache s))
    /\ length out = length xs
    /\ (xs <> [] -> out !! 0%nat = Some NaN)
    /\ (forall i x p,
          xs !! S i = Some (fin x) -> xs !! i = Some (fin p) -> ~ (p == 0)%Q ->
          exists v, out !! S i = Some (fin v) /\ (v == Qabs (x / p - 1) * 100)%Q)
    /\ (forall i v, out !! i = Some (fin v) -> (0 <= v)%Q).
Proof.
  intros Hf Hx. destruct s as [F L C]. cbn [frames lists cache] in *.
  eexists. split; [|split; [|split; [|split]]].
  - unfold proc_add_abs_percent_change. cbv zeta.
    rewrite (bind_Return _ _ _ _ _ (series_run F L C df f col xs Hf Hx)).
    rewrite (bind_Return _ _ _ _ _ (series_run F L C df f col xs Hf Hx)).
    rewrite (bind_Return _ _ _ _ _ (assign_run F L C df f _ _ Hf)).
    rewrite (bind_Return _ _ _ _ _ (append_run_any _ L C cv _)).
    reflexivity.
  - rewrite length_zip_with, length_shift. lia.
  - intros Hne. destruct xs as [|x r]; [congruence|].
    rewrite shift_one. cbn [length take zip_with app lookup list_lookup].
    now rewrite div_NaN.
  - intros i x p Hx' Hp' Hne.
    assert (Hi : S i < length xs) by (eapply lookup_lt_Some; eauto).
    pose proof (shift_down 1 xs (S i) Hi) as Hs.
    cbn [Nat.ltb Nat.leb Nat.sub] in Hs. rewrite Nat.sub_0_r, Hp' in Hs.
    cbn [default from_option id] in Hs. change (Z.of_nat 1) with 1%Z in Hs.
    rewrite lookup_zip_with, Hx', Hs. cbn [mbind option_bind].
    unfold fin, div. cbn [lift2 div_num].
    destruct (Qeq_bool p 0) eqn:E; [apply Qeq_bool_iff in E; contradiction|].
    unfold of_Z. cbn [sub sub_num mul mul_num abs lift2]. eexists. split; [reflexivity|].
    rewrite !Qred_correct. reflexivity.
  - intros i v Hi. apply lookup_zip_with_Some in Hi as (x & p & E & _ & _).
    destruct (sub (div x p) (of_Z 1)) as [[w|b]|]; unfold fin in E; cbn in E;
      try discriminate.
    injection E as E. subst v.
    rewrite Qred_correct.
    apply Qmult_le_0_compat; [|discriminate].
    rewrite Qred_correct. apply Qabs_nonneg.
Qed.

Lemma abs_percent_change_rows_witness :
  exists out,
    proc_add_abs_percent_change 0 "Close" 0 three_days_store
    = Return 0%nat
        (Store (<[0%nat := setitem three_days ("Close" +:+ "-abs-pct") (Floats out)]>
                  (frames three_days_store))
           (push 0 ("Close" +:+ "-abs-pct") (lists three_days_store))
           (cache three_days_store))
    /\ length out = length (finite [11; 12; 13]%Z)
    /\ (finite [11; 12; 13]%Z <> [] -> out !! 0%nat = Some NaN)
    /\ (forall i x p,
          finite [11; 12; 13]%Z !! S i = Some (fin x) ->
          finite [11; 12; 13]%Z !! i = Some (fin p) -> ~ (p == 0)%Q ->
          exists v, out !! S i = Some (fin v) /\ (v == Qabs (x / p - 1) * 100)%Q)
    /\ (forall i v, out !! i = Some (fin v) -> (0 <= v)%Q).
Proof.
  apply (abs_percent_change_rows three_days_store 0 three_days "Close" 0
           (finite [11; 12; 13]%Z)); reflexivity.
Defined.

End AbsPercentChange.

Section NormalizeAll.





End NormalizeAll.

Section UpdateMetaData.

Lemma item_at ns (a : nat) x :
  ns !! a = Some x -> item ns (0 + Z.of_nat a) = inr x.
Proof.
  intros H. unfold item.
  rewrite (proj2 (Z.leb_le 0 (0 + Z.of_nat a))) by lia.
  replace (Z.to_nat (0 + Z.of_nat a)) with a by lia. now rewrite H.
Qed.

Lemma list_of_run F L C l xs :
  L !! l = Some xs -> list_of l (Store F L C) = Return xs (Store F L C).
Proof. intros H. unfold list_of. cbn [lists]. now rewrite H. Qed.

Lemma update_meta_loop F C var names ns (m : nat) :
  var <> names ->
  forall (a : nat) L ys,
    L !! names = Some ns ->
    L !! var = Some ys ->
    a + m <= length ns ->
    for_each (map (fun k => (0 + Z.of_nat k)%Z) (seq a m))
      (fun i =>
         let* names := list_of names in
         let* x := lift (item names i) in
         append var x) (Store F L C)
    = Return tt (Store F (<[var := ys ++ take m (skipn a ns)]> L) C).
Proof.
  intros Hne. induction m as [|m IH]; intros a L ys Hn Hv Hlen; cbn [seq map for_each].
  - cbn [take]. now rewrite app_nil_r, list_insert_id.
  - destruct (ns !! a) as [x|] eqn:Ex; [|apply lookup_ge_None in Ex; lia].
    rewrite (bind_Return _ _ _ tt (Store F (<[var := ys ++ [x]]> L) C)).
    + rewrite (IH (S a) _ (ys ++ [x])).
      * rewrite list_insert_insert_eq, <- app_assoc. do 3 f_equal.
        rewrite (drop_S ns x a Ex). reflexivity.
      * now rewrite list_lookup_insert_ne.
      * apply list_lookup_insert_eq. now apply lookup_lt_Some in Hv.
      * lia.
    + rewrite (bind_Return _ _ _ _ _ (list_of_run F L C names ns Hn)).
      rewrite (bind_Return _ _ _ _ _ (lift_run _ x _ (item_at ns a x Ex))).
      now apply append_run.
Qed.

(** X11. [__update_meta_data] on names that do not hold "Date" appends
    every one of them to [var], in their order, and leaves the names
    themselves as they were. *)
Theorem update_meta_data_appends_all s var names ns xs :
  lists s !! names = Some ns ->
  lists s !! var = Some xs ->
  var <> names ->
  contains ns "Date" = false ->
  __update_meta_data var names s
  = Return var (Store (frames s) (<[var := xs ++ ns]> (lists s)) (cache s)).
Proof.
  intros Hn Hv Hne Hd. destruct s as [F L C]. cbn [frames lists cache] in *.
  unfold __update_meta_data.
  rewrite (bind_Return _ _ _ _ _ (list_of_run F L C names ns Hn)), Hd.
  rewrite (bind_Return _ _ _ tt (Store F (<[var := xs ++ ns]> L) C)); [reflexivity|].
  rewrite (bind_Return _ _ _ (Z.of_nat (length ns)) (Store F L C)).
  - unfold range. rewrite Z.sub_0_r, Nat2Z.id.
    rewrite (update_meta_loop F C var names ns (length ns) Hne 0 L xs Hn Hv (Nat.le_refl _)).
    cbn [skipn]. now rewrite firstn_all.
  - unfold len. now rewrite (bind_Return _ _ _ _ _ (list_of_run F L C names ns Hn)).
Qed.

Lemma update_meta_data_appends_all_witness :
  __update_meta_data 0 1 (Store [] [["Close"]; ["BB_UP"; "BB_LOW"]] empty_cache)
  = Return 0%nat
      (Store [] (<[0%nat := ["Close"] ++ ["BB_UP"; "BB_LOW"]]>
                   [["Close"]; ["BB_UP"; "BB_LOW"]]) empty_cache).
Proof.
  apply (update_meta_data_appends_all
           (Store [] [["Close"]; ["BB_UP"; "BB_LOW"]] empty_cache) 0 1
           ["BB_UP"; "BB_LOW"] ["Close"]); reflexivity || discriminate.
Defined.

End UpdateMetaData.

Section OhlcAvg.

Lemma ohlc_avg_row (os hs ls cs : list float) (i : nat) (o h l c : Q) :
  os !! i = Some (fin o) -> hs !! i = Some (fin h) ->
  ls !! i = Some (fin l) -> cs !! i = Some (fin c) ->
  exists y,
    map (fun x => div x (of_Z 4))
      (zip_with add (zip_with add (zip_with add os hs) ls) cs) !! i = Some (fin y)
    /\ (y == (o + h + l + c) / 4)%Q.
Proof.
  intros Ho Hh Hl Hc.
  rewrite list_lookup_fmap, !lookup_zip_with, Ho, Hh, Hl, Hc.
  unfold fin, of_Z.
  cbn [fmap option_fmap option_map mbind option_bind add add_num lift2 div div_num].
  replace (Qeq_bool (inject_Z 4) 0) with false by reflexivity.
  eexists. split; [reflexivity|]. now rewrite !Qred_correct.
Qed.

(** X12. [proc_add_ohlc_avg] writes into the table itself the column
    "ohlc_avg", the mean of Open, High, Low and Close row by row.  With
    [add_diff] set, it adds the one difference [diff_col - ohlc_avg] and
    returns: [add_ohlc_diff] is then not looked at, so the four
    differences of the prices are not added even when both options are
    set. *)
Theorem ohlc_avg_add_diff_comes_first s df f cv diff_col add_ohlc_diff os hs ls cs ds :
  frames s !! df = Some f ->
  get f "Open" = Some (Floats os) ->
  get f "High" = Some (Floats hs) ->
  get f "Low" = Some (Floats ls) ->
  get f "Close" = Some (Floats cs) ->
  get f diff_col = Some (Floats ds) ->
  diff_col <> "ohlc_avg" ->
  exists avg,
    proc_add_ohlc_avg df cv true diff_col add_ohlc_diff s
    = Return df
        (Store (<[df := setitem (setitem f "ohlc_avg" (Floats avg))
                          (diff_col +:+ "_ohlc_avg_Diff")
                          (Floats (zip_with sub ds avg))]> (frames s))
           (push cv (diff_col +:+ "_ohlc_avg_Diff") (push cv "ohlc_avg" (lists s)))
           (cache s))
    /\ forall i o h l c,
         os !! i = Some (fin o) -> hs !! i = Some (fin h) ->
         ls !! i = Some (fin l) -> cs !! i = Some (fin c) ->
         exists y, avg !! i = Some (fin y) /\ (y == (o + h + l + c) / 4)%Q.
Proof.
  intros Hf Ho Hh Hl Hc Hd Hne. destruct s as [F L C]. cbn [frames lists cache] in *.
  assert (Hlt : df < length F) by (now apply lookup_lt_Some in Hf).
  eexists. split.
  - unfold proc_add_ohlc_avg. cbv zeta.
    rewrite (bind_Return _ _ _ _ _ (series_run F L C df f _ _ Hf Ho)).
    rewrite (bind_Return _ _ _ _ _ (series_run F L C df f _ _ Hf Hh)).
    rewrite (bind_Return _ _ _ _ _ (series_run F L C df f _ _ Hf Hl)).
    rewrite (bind_Return _ _ _ _ _ (series_run F L C df f _ _ Hf Hc)).
    rewrite (bind_Return _ _ _ _ _ (assign_run F L C df f _ _ Hf)).
    rewrite (bind_Return _ _ _ _ _ (append_run_any _ L C cv _)).
    set (avg := map _ _).
    set (g := setitem f "ohlc_avg" (Floats avg)).
    assert (Hg : <[df := g]> F !! df = Some g) by (now apply list_lookup_insert_eq).
    erewrite bind_Return.
    2:{ erewrite bind_Return.
        2:{ eapply difference_run; [exact Hg | | apply get_setitem_eq].
            unfold g. rewrite get_setitem_ne by (intros E; now apply Hne). exact Hd. }
        apply assign_run. exact Hg. }
    rewrite (bind_Return _ _ _ _ _ (append_run_any _ _ C cv _)).
    rewrite list_insert_insert_eq. reflexivity.
  - intros i o h l c. apply ohlc_avg_row.
Qed.

Lemma ohlc_avg_add_diff_comes_first_witness :
  exists avg,
    proc_add_ohlc_avg 0 0 true "Close" true three_days_store
    = Return 0%nat
        (Store (<[0%nat := setitem (setitem three_days "ohlc_avg" (Floats avg))
                             ("Close" +:+ "_ohlc_avg_Diff")
                             (Floats (zip_with sub (finite [11; 12; 13]%Z) avg))]>
                  (frames three_days_store))
           (push 0 ("Close" +:+ "_ohlc_avg_Diff")
              (push 0 "ohlc_avg" (lists three_days_store)))
           (cache three_days_store))
    /\ forall i o h l c,
         finite [10; 11; 12]%Z !! i = Some (fin o) ->
         finite [12; 13; 14]%Z !! i = Some (fin h) ->
         finite [9; 10; 11]%Z !! i = Some (fin l) ->
         finite [11; 12; 13]%Z !! i = Some (fin c) ->
         exists y, avg !! i = Some (fin y) /\ (y == (o + h + l + c) / 4)%Q.
Proof.
  apply (ohlc_avg_add_diff_comes_first three_days_store 0 three_days 0 "Close" true
           (finite [10; 11; 12]%Z) (finite [12; 13; 14]%Z) (finite [9; 10; 11]%Z)
           (finite [11; 12; 13]%Z) (finite [11; 12; 13]%Z));
    reflexivity || discriminate.
Defined.

End OhlcAvg.

Section MergeFails.

Lemma pd_merge_raises F L C l r a b on e :
  F !! l = Some a -> F !! r = Some b -> merge a b on = inl e ->
  pd_merge l r on (Store F L C) = Raise e (Store F L C).
Proof.
  intros Hl Hr Hm. unfold pd_merge.
  rewrite (bind_Return _ _ _ _ _ (frame_of_run F L C l a Hl)).
  rewrite (bind_Return _ _ _ _ _ (frame_of_run F L C r b Hr)).
  now rewrite Hm.
Qed.

Lemma merge_without_key a b on : get a on = None -> merge a b on = inl (KeyError on).
Proof. intros H. unfold merge. now rewrite H. Qed.

(** X13. On a price table without a "Date" column the join fails with
    KeyError "Date".  [proc_add_adx], [proc_add_obv] and [proc_add_rsi]
    have by then appended their name to [cont_vars], which keeps it;
    [proc_add_mom] joins first and leaves [cont_vars] as it was.  The
    price table is untouched in either case. *)
Theorem join_failure_and_registration s df f cv stock change ta to tr tm da do dr dm :
  frames s !! df = Some f ->
  get f "Date" = None ->
  cache s ADX stock None = inr ta ->
  cache s OBV stock None = inr to ->
  cache s RSI stock None = inr tr ->
  cache s MOM stock None = inr tm ->
  get (rename ta "date" "Date") "Date" = Some (Dates da) ->
  get (rename to "date" "Date") "Date" = Some (Dates do) ->
  get (rename tr "date" "Date") "Date" = Some (Dates dr) ->
  get (rename tm "date" "Date") "Date" = Some (Dates dm) ->
  proc_add_adx df cv stock change s
  = Raise (KeyError "Date")
      (Store (frames s ++ [ta; rename ta "date" "Date"]) (push cv "ADX" (lists s)) (cache s))
  /\ proc_add_obv df cv stock change s
     = Raise (KeyError "Date")
         (Store (frames s ++ [to; rename to "date" "Date"]) (push cv "OBV" (lists s)) (cache s))
  /\ proc_add_rsi df cv stock change s
     = Raise (KeyError "Date")
         (Store (frames s ++ [tr; rename tr "date" "Date"]) (push cv "RSI" (lists s)) (cache s))
  /\ proc_add_mom df stock cv change s
     = Raise (KeyError "Date")
         (Store (frames s ++ [tm; rename tm "date" "Date"]) (lists s) (cache s)).
Proof.
  intros Hf Hno Ha Ho Hr Hm Hda Hdo Hdr Hdm.
  destruct s as [F L C]. cbn [frames lists cache] in *.
  pose proof (merge_without_key f) as Hk.
  repeat split.
  - unfold proc_add_adx.
    erewrite bind_Return by (apply fetch_run; eassumption).
    erewrite bind_Return by (apply rename_run; rewrite lookup_new0; reflexivity).
    rewrite <- app_assoc, length_app. cbn [app length].
    erewrite bind_Return
      by (eapply convert_date_run; [rewrite lookup_new; reflexivity | eassumption]).
    rewrite (bind_Return _ _ _ _ _ (append_run_any _ L C cv _)).
    erewrite bind_Raise; [reflexivity|].
    eapply pd_merge_raises;
      [apply lookup_app_l_Some; exact Hf | rewrite lookup_new; reflexivity
      | apply Hk; exact Hno].
  - unfold proc_add_obv.
    erewrite bind_Return by (apply fetch_run; eassumption).
    erewrite bind_Return by (apply rename_run; rewrite lookup_new0; reflexivity).
    rewrite <- app_assoc, length_app. cbn [app length].
    erewrite bind_Return
      by (eapply convert_date_run; [rewrite lookup_new; reflexivity | eassumption]).
    rewrite (bind_Return _ _ _ _ _ (append_run_any _ L C cv _)).
    erewrite bind_Raise; [reflexivity|].
    eapply pd_merge_raises;
      [apply lookup_app_l_Some; exact Hf | rewrite lookup_new; reflexivity
      | apply Hk; exact Hno].
  - unfold proc_add_rsi.
    erewrite bind_Return by (apply fetch_run; eassumption).
    erewrite bind_Return by (apply rename_run; rewrite lookup_new0; reflexivity).
    rewrite <- app_assoc, length_app. cbn [app length].
    erewrite bind_Return
      by (eapply convert_date_run; [rewrite lookup_new; reflexivity | eassumption]).
    rewrite (bind_Return _ _ _ _ _ (append_run_any _ L C cv _)).
    erewrite bind_Raise; [reflexivity|].
    eapply pd_merge_raises;
      [apply lookup_app_l_Some; exact Hf | rewrite lookup_new; reflexivity
      | apply Hk; exact Hno].
  - unfold proc_add_mom.
    erewrite bind_Return by (apply fetch_run; eassumption).
    erewrite bind_Return by (apply rename_run; rewrite lookup_new0; reflexivity).
    rewrite <- app_assoc, length_app. cbn [app length].
    erewrite bind_Return
      by (eapply convert_date_run; [rewrite lookup_new; reflexivity | eassumption]).
    erewrite bind_Raise; [reflexivity|].
    eapply pd_merge_raises;
      [apply lookup_app_l_Some; exact Hf | rewrite lookup_new; reflexivity
      | apply Hk; exact Hno].
Qed.

Lemma join_failure_and_registration_witness :
  let s := Store [[("Close", Floats (finite [11; 12]%Z))]] [[]]
             (fun _ _ _ => inr three_days_adx) in
  proc_add_adx 0 0 "MSFT" false s
  = Raise (KeyError "Date")
      (Store (frames s ++ [three_days_adx; rename three_days_adx "date" "Date"])
         (push 0 "ADX" (lists s)) (cache s))
  /\ proc_add_obv 0 0 "MSFT" false s
     = Raise (KeyError "Date")
         (Store (frames s ++ [three_days_adx; rename three_days_adx "date" "Date"])
            (push 0 "OBV" (lists s)) (cache s))
  /\ proc_add_rsi 0 0 "MSFT" false s
     = Raise (KeyError "Date")
         (Store (frames s ++ [three_days_adx; rename three_days_adx "date" "Date"])
            (push 0 "RSI" (lists s)) (cache s))
  /\ proc_add_mom 0 "MSFT" 0 false s
     = Raise (KeyError "Date")
         (Store (frames s ++ [three_days_adx; rename three_days_adx "date" "Date"])
            (lists s) (cache s)).
Proof.
  intros s.
  apply (join_failure_and_registration s 0 [("Close", Floats (finite [11; 12]%Z))]
           0 "MSFT" false three_days_adx three_days_adx three_days_adx three_days_adx
           [2; 3; 4]%Z [2; 3; 4]%Z [2; 3; 4]%Z [2; 3; 4]%Z); reflexivity.
Defined.

End MergeFails.

Section CompositesInPlace.

Lemma difference_in_place F L C df f cv a b res xs ys :
  F !! df = Some f ->
  get f a = Some (Floats xs) ->
  get f b = Some (Floats ys) ->
  ((let* d := difference df a b in assign df res d) ;;;
   append cv res ;;;
   ret df) (Store F L C)
  = Return df
      (Store (<[df := setitem f res (Floats (zip_with sub xs ys))]> F)
         (push cv res L) C).
Proof.
  intros Hf Ha Hb.
  erewrite bind_Return.
  2:{ rewrite (bind_Return _ _ _ _ _ (difference_run F L C df f a b xs ys Hf Ha Hb)).
      exact (assign_run F L C df f res _ Hf). }
  now rewrite (bind_Return _ _ _ _ _ (append_run_any _ L C cv res)).
Qed.

(** X14. A composite difference transform on a table that already has
    both of its averages asks for no indicator data, whatever the cache
    holds: it writes the first average minus the second into the table
    itself, appends the one result name and returns the table given.  The
    result columns of the two WMA transforms are named "..._EMA_..._Diff",
    and "SMA_200_SMA_20_Diff" holds SMA_20 minus SMA_200. *)
Theorem composite_on_present_averages s df f cv stock add_diff add_ohlc_diff
    x y res (m : M df_ref) a b :
  frames s !! df = Some f ->
  In (x, y, res, m)
     [ ("WMA_5", "WMA_20", "WMA_5_EMA_20_Diff",
        proc_add_wma5_wma_20_diff df cv stock add_diff add_ohlc_diff);
       ("WMA_20", "WMA_60", "WMA_20_EMA_60_Diff",
        proc_add_wma20_wma_60_diff df cv stock add_diff add_ohlc_diff);
       ("EMA_10", "EMA_30", "EMA_10_EMA_30_Diff",
        proc_add_ema10_ema_30_diff df cv stock add_diff add_ohlc_diff);
       ("SMA_20", "SMA_200", "SMA_200_SMA_20_Diff",
        proc_add_sma20_sma_200_diff df cv stock add_ohlc_diff) ] ->
  get f x = Some (Floats a) ->
  get f y = Some (Floats b) ->
  m s = Return df
          (Store (<[df := setitem f res (Floats (zip_with sub a b))]> (frames s))
             (push cv res (lists s)) (cache s)).
Proof.
  intros Hf Hin Ha Hb. destruct s as [F L C]. cbn [frames lists cache] in *.
  cbn [In] in Hin.
  destruct Hin as [E|[E|[E|[E|[]]]]]; injection E as <- <- <- <-.
  - unfold proc_add_wma5_wma_20_diff. cbv zeta.
    rewrite (bind_Return _ _ _ _ _ (columns_of_run F L C df f Hf)).
    rewrite !contains_columns, Ha, Hb. cbn [negb].
    rewrite !(bind_Return _ _ _ df (Store F L C)) by reflexivity.
    now apply difference_in_place.
  - unfold proc_add_wma20_wma_60_diff. cbv zeta.
    rewrite (bind_Return _ _ _ _ _ (columns_of_run F L C df f Hf)).
    rewrite !contains_columns, Ha, Hb. cbn [negb].
    rewrite !(bind_Return _ _ _ df (Store F L C)) by reflexivity.
    now apply difference_in_place.
  - unfold proc_add_ema10_ema_30_diff. cbv zeta.
    rewrite (bind_Return _ _ _ _ _ (columns_of_run F L C df f Hf)).
    rewrite !contains_columns, Ha, Hb. cbn [negb].
    rewrite !(bind_Return _ _ _ df (Store F L C)) by reflexivity.
    now apply difference_in_place.
  - unfold proc_add_sma20_sma_200_diff. cbv zeta.
    rewrite (bind_Return _ _ _ _ _ (columns_of_run F L C df f Hf)).
    rewrite !contains_columns, Ha, Hb. cbn [negb].
    rewrite !(bind_Return _ _ _ df (Store F L C)) by reflexivity.
    now apply difference_in_place.
Qed.

Lemma composite_on_present_averages_witness :
  let f := [("SMA_20", Floats (finite [5; 7]%Z)); ("SMA_200", Floats (finite [4; 9]%Z))] in
  proc_add_sma20_sma_200_diff 0 0 "MSFT" false (Store [f] [[]] empty_cache)
  = Return 0
      (Store [f ++ [("SMA_200_SMA_20_Diff", Floats (finite [1; -2]%Z))]]
         [["SMA_200_SMA_20_Diff"]] empty_cache).
Proof.
  intros f.
  exact (composite_on_present_averages (Store [f] [[]] empty_cache) 0 f 0 "MSFT" false
           false "SMA_20" "SMA_200" "SMA_200_SMA_20_Diff" _
           (finite [5; 7]%Z) (finite [4; 9]%Z)
           eq_refl (or_intror (or_intror (or_intror (or_introl eq_refl))))
           eq_refl eq_refl).
Defined.

End CompositesInPlace.

Section DirectionCells.

Lemma relabel_NaN t o : relabel t NaN o = o.
Proof.
  unfold relabel, rules. cbn [fold_left fst snd].
  unfold gt. rewrite !lt_NaN_r. cbn [lt andb]. reflexivity.
Qed.

Lemma fold_rules_cases (rs : list ((float -> bool) * Z)) v o :
  let y := fold_left (fun acc (r : (float -> bool) * Z) =>
                        if fst r v then of_Z (snd r) else acc) rs o in
  y = o \/ exists l, In l (map snd rs) /\ y = of_Z l.
Proof.
  revert o. induction rs as [|r rs IH]; intros o; cbn [fold_left map]; [now left|].
  destruct (IH (if fst r v then of_Z (snd r) else o)) as [E|(l & Hl & E)].
  - cbv zeta in E. rewrite E. destruct (fst r v).
    + right. exists (snd r). split; [now left | reflexivity].
    + now left.
  - right. exists l. split; [now right | exact E].
Qed.

Lemma relabel_cases t v o :
  relabel t v o = o
  \/ exists l, In l [-7; -3; -1; 0; 1; 3; 5; 7]%Z /\ relabel t v o = of_Z l.
Proof. exact (fold_rules_cases (rules t) v o). Qed.

(** X15. What [proc_add_direction] leaves in the direction column of a
    table of at least one row that has the percentage changes: a row
    whose percentage change is NaN is never labelled, it keeps what the
    column held before (NaN when the column is new); every other row
    holds what it held before or one of the eight labels -7, -3, -1, 0,
    1, 3, 5, 7. *)
Theorem direction_cells s df f col cat cont nt pct cats :
  frames s !! df = Some f ->
  rectangular f = true ->
  get f (col +:+ "-pct") = Some (Floats pct) ->
  pct <> [] ->
  (0 <= nt)%Q -> (nt <= 1)%Q ->
  lists s !! cat = Some cats ->
  exists s' f' dir,
    proc_add_direction df col cat cont nt s = Return df s'
    /\ frames s' !! df = Some f'
    /\ get f' (col +:+ "-direction") = Some (Floats dir)
    /\ length dir = length pct
    /\ (forall i, pct !! i = Some NaN ->
          dir !! i = labels_before f (col +:+ "-direction") (length pct) !! i)
    /\ (forall i y, dir !! i = Some y ->
          labels_before f (col +:+ "-direction") (length pct) !! i = Some y
          \/ exists l, In l [-7; -3; -1; 0; 1; 3; 5; 7]%Z /\ y = of_Z l)
    /\ (get f (col +:+ "-direction") = None ->
        forall i, pct !! i = Some NaN -> dir !! i = Some NaN).
Proof.
  intros HF Hrect Hpct Hne H0 H1 Hcat.
  destruct (direction_column s df f col cat cont nt pct cats HF Hrect Hpct Hne H0 H1 Hcat)
    as (t & s' & dir & Ht & Hrun & Hf' & _ & Hdir & Hlen & Hrow).
  exists s', (label_frame f pct t (col +:+ "-direction")), dir.
  split; [exact Hrun|]. split; [exact Hf'|]. split; [exact Hdir|].
  split; [exact Hlen|].
  assert (Hnan : forall i, pct !! i = Some NaN ->
            dir !! i = labels_before f (col +:+ "-direction") (length pct) !! i).
  { intros i Hi. destruct (Hrow i NaN Hi) as (o & Ho & Hd).
    now rewrite Hd, Ho, relabel_NaN. }
  split; [exact Hnan|]. split.
  - intros i y Hy.
    assert (Hi : i < length pct) by (rewrite <- Hlen; eapply lookup_lt_Some; eauto).
    destruct (lookup_lt_is_Some_2 pct i Hi) as [v Hv].
    destruct (Hrow i v Hv) as (o & Ho & Hd).
    rewrite Hd in Hy. injection Hy as <-.
    destruct (relabel_cases t v o) as [E|(l & Hl & E)].
    + left. now rewrite E.
    + right. exists l. now split.
  - intros Hnone i Hi. rewrite (Hnan i Hi).
    unfold labels_before. rewrite Hnone.
    apply lookup_replicate_2. eapply lookup_lt_Some; eauto.
Qed.

Lemma direction_cells_witness :
  exists s' f' dir,
    proc_add_direction 0 "Close" 1 0 (7 # 100) (pct_store mixed_pct) = Return 0 s'
    /\ frames s' !! 0 = Some f'
    /\ get f' ("Close" +:+ "-direction") = Some (Floats dir)
    /\ length dir = length mixed_pct
    /\ (forall i, mixed_pct !! i = Some NaN ->
          dir !! i = labels_before [("Close-pct", Floats mixed_pct)]
                       ("Close" +:+ "-direction") (length mixed_pct) !! i)
    /\ (forall i y, dir !! i = Some y ->
          labels_before [("Close-pct", Floats mixed_pct)]
            ("Close" +:+ "-direction") (length mixed_pct) !! i = Some y
          \/ exists l, In l [-7; -3; -1; 0; 1; 3; 5; 7]%Z /\ y = of_Z l)
    /\ (get [("Close-pct", Floats mixed_pct)] ("Close" +:+ "-direction") = None ->
        forall i, mixed_pct !! i = Some NaN -> dir !! i = Some NaN).
Proof.
  apply (direction_cells (pct_store mixed_pct) 0 [("Close-pct", Floats mixed_pct)]
           "Close" 1 0 (7 # 100) mixed_pct []);
    try reflexivity; try discriminate; unfold Qle; cbn; lia.
Defined.

Lemma bad_noise_threshold_present F L C df f col cat cont nt pct :
  F !! df = Some f ->
  get f (col +:+ "-pct") = Some (Floats pct) ->
  (nt < 0)%Q \/ (1 < nt)%Q ->
  proc_add_direction df col cat cont nt (Store F L C)
  = Raise (ValueError "percentiles should all be in the interval [0, 1]") (Store F L C).
Proof.
  intros HF Hpct Hnt.
  assert (Hq : forall q, (0 <= q)%Q -> (q <= 1)%Q ->
             exists v, quantile_of df (col +:+ "-pct") q (Store F L C)
                       = Return v (Store F L C)).
  { intros q Hq0 Hq1. destruct (quantile_ok pct q Hq0 Hq1) as [v Hv].
    exists v. now apply (quantile_of_run F L C df f _ pct). }
  assert (Hbad : forall xs, quantile xs nt
            = inl (ValueError "percentiles should all be in the interval [0, 1]")).
  { intros xs. unfold quantile.
    destruct (Qle_bool 0 nt) eqn:E0; [|reflexivity].
    destruct (Qle_bool nt 1) eqn:E1; [|reflexivity].
    apply Qle_bool_iff in E0, E1. destruct Hnt; lra. }
  unfold proc_add_direction.
  rewrite (bind_Return _ _ _ _ _ (columns_of_run F L C df f HF)).
  rewrite contains_columns, Hpct. cbn [negb].
  rewrite (bind_Return _ _ _ df (Store F L C)) by reflexivity.
  destruct (Hq (10 # 100)) as [v1 E1]; try (unfold Qle; cbn; lia).
  rewrite (bind_Return _ _ _ _ _ E1).
  destruct (Hq (25 # 100)) as [v2 E2]; try (unfold Qle; cbn; lia).
  rewrite (bind_Return _ _ _ _ _ E2).
  destruct (Hq (75 # 100)) as [v3 E3]; try (unfold Qle; cbn; lia).
  rewrite (bind_Return _ _ _ _ _ E3).
  destruct (Hq (85 # 100)) as [v4 E4]; try (unfold Qle; cbn; lia).
  rewrite (bind_Return _ _ _ _ _ E4).
  destruct (Hq (95 # 100)) as [v5 E5]; try (unfold Qle; cbn; lia).
  rewrite (bind_Return _ _ _ _ _ E5).
  apply bind_Raise.
  rewrite (bind_Return _ _ _ _ _ (series_run F L C df f _ pct HF Hpct)).
  rewrite (bind_Return _ _ _ _ _ (above_run F L C df f _ pct _ HF Hpct)).
  now rewrite Hbad.
Qed.

(** X16. A noise threshold outside [0, 1] is refused with the ValueError
    of the quantile before any label is written and before the direction
    name is registered.  On a table that has the percentage changes the
    store is left as it was; on a table without them the
    percentage-change column has by then been written and its name
    appended to [cont_vars], and they stay. *)
Theorem direction_rejects_noise_threshold s df f col cat cont nt :
  frames s !! df = Some f ->
  (nt < 0)%Q \/ (1 < nt)%Q ->
  (forall pct,
      get f (col +:+ "-pct") = Some (Floats pct) ->
      proc_add_direction df col cat cont nt s
      = Raise (ValueError "percentiles should all be in the interval [0, 1]") s)
  /\ (forall xs,
        get f (col +:+ "-pct") = None ->
        get f col = Some (Floats xs) ->
        proc_add_direction df col cat cont nt s
        = Raise (ValueError "percentiles should all be in the interval [0, 1]")
            (Store (<[df := setitem f (col +:+ "-pct") (Floats (pct_change xs))]> (frames s))
               (push cont (col +:+ "-pct") (lists s)) (cache s))).
Proof.
  intros HF Hnt. destruct s as [F L C]. cbn [frames lists cache] in *. split.
  - intros pct Hpct. now apply (bad_noise_threshold_present F L C df f col cat cont nt pct).
  - intros xs Hnone Hcol.
    assert (Hdf : df < length F) by (eapply lookup_lt_Some; eauto).
    rewrite (direction_invokes_percent_change F L C df f col cat cont nt HF Hnone).
    rewrite (bind_Return _ _ _ _ _ (percent_change_run F L C df f col cont xs HF Hcol)).
    unfold push.
    eapply bad_noise_threshold_present;
      [now apply list_lookup_insert_eq | apply get_setitem_eq | exact Hnt].
Qed.

Lemma direction_rejects_noise_threshold_witness :
  proc_add_direction 0 "Close" 1 0 (3 # 2) (pct_store mixed_pct)
  = Raise (ValueError "percentiles should all be in the interval [0, 1]")
      (pct_store mixed_pct)
  /\ proc_add_direction 0 "Close" 1 0 (3 # 2) three_days_store
     = Raise (ValueError "percentiles should all be in the interval [0, 1]")
         (Store [three_days ++ [("Close-pct", Floats [NaN; fin (1 # 11); fin (1 # 12)])]]
            [["Close-pct"]; []] empty_cache).
Proof.
  split.
  - apply (proj1 (direction_rejects_noise_threshold (pct_store mixed_pct) 0
                    [("Close-pct", Floats mixed_pct)] "Close" 1 0 (3 # 2)
                    eq_refl (or_intror eq_refl)) mixed_pct).
    reflexivity.
  - apply (proj2 (direction_rejects_noise_threshold three_days_store 0
                    three_days "Close" 1 0 (3 # 2)
                    eq_refl (or_intror eq_refl)) (finite [11; 12; 13]%Z));
      reflexivity.
Defined.

End DirectionCells.

Section DatepartSlice.

Lemma index_from_bounds x xs i j :
  index_from x xs i = Some j -> (i <= j < i + Z.of_nat (length xs))%Z.
Proof.
  revert i. induction xs as [|y r IH]; intros i; cbn [index_from length]; [discriminate|].
  destruct (String.eqb y x).
  - intros E. injection E as <-. lia.
  - intros E. apply IH in E. lia.
Qed.

Lemma index_from_contains x xs i :
  index_from x xs i = None <-> contains xs x = false.
Proof.
  unfold contains. revert i.
  induction xs as [|y r IH]; intros i; cbn [index_from existsb]; [tauto|].
  rewrite (String.eqb_sym x y). destruct (String.eqb y x); cbn [orb].
  - split; discriminate.
  - apply IH.
Qed.

Lemma index_missing xs x :
  contains xs x = false -> index xs x = inl (ValueError "is not in list").
Proof.
  intros H. unfold index. now rewrite (proj2 (index_from_contains x xs 0) H).
Qed.

Lemma index_present xs x :
  contains xs x = true ->
  exists a, index xs x = inr a /\ (0 <= a < Z.of_nat (length xs))%Z.
Proof.
  intros H. unfold index.
  destruct (index_from x xs 0) as [a|] eqn:E.
  - exists a. split; [reflexivity|]. apply index_from_bounds in E. lia.
  - apply index_from_contains in E. congruence.
Qed.

Lemma index_bounds xs x a :
  index xs x = inr a -> (0 <= a < Z.of_nat (length xs))%Z.
Proof.
  unfold index. destruct (index_from x xs 0) as [j|] eqn:E; [|discriminate].
  intros H. injection H as <-. apply index_from_bounds in E. lia.
Qed.

Lemma datepart_loop_run F C cat cols n : forall (a : Z) L,
  (0 <= a)%Z -> Z.to_nat a + n <= length cols ->
  for_each (map (fun k => (a + Z.of_nat k)%Z) (seq 0 n))
    (fun i => let* name := lift (item cols i) in append cat name) (Store F L C)
  = Return tt
      (Store F (replay (map (pair cat) (take n (skipn (Z.to_nat a) cols))) L) C).
Proof.
  induction n as [|n IH]; intros a L Ha Hn.
  - reflexivity.
  - destruct (lookup_lt_is_Some_2 cols (Z.to_nat a) ltac:(lia)) as [x Hx].
    rewrite (drop_S _ _ _ Hx).
    cbn [seq map for_each take replay fold_left fst snd].
    rewrite Z.add_0_r.
    assert (Hitem : item cols a = inr x).
    { unfold item. destruct (Z.leb_spec 0 a); [|lia]. now rewrite Hx. }
    rewrite (bind_Return _ _ _ tt (Store F (push cat x L) C)).
    2:{ rewrite (bind_Return _ _ _ _ _ (lift_run _ _ _ Hitem)).
        apply append_run_any. }
    rewrite <- seq_shift, map_map.
    rewrite (map_ext _ (fun k => (a + 1 + Z.of_nat k)%Z)) by (intros; lia).
    rewrite (IH (a + 1)%Z (push cat x L)) by lia.
    replace (Z.to_nat (a + 1)) with (S (Z.to_nat a)) by lia.
    reflexivity.
Qed.

(** X17. [proc_add_datepart] registers "Elapsed" as continuous and, as
    categorical, the column names of the table from "Year" up to, but
    not including, "Is_year_end", in table order: the names from
    "Is_year_end" on are never registered, and none at all when
    "Is_year_end" does not come after "Year".  It adds no column (the
    call that would is commented out) and ignores [date_col_name]. *)
Theorem datepart_registers_slice s df f cv cat date_col_name a b :
  frames s !! df = Some f ->
  index (columns f) "Year" = inr a ->
  index (columns f) "Is_year_end" = inr b ->
  proc_add_datepart df cv cat date_col_name s
  = Return tt
      (Store (frames s)
         (replay (map (pair cat)
                    (take (Z.to_nat (b - a)) (skipn (Z.to_nat a) (columns f))))
            (push cv "Elapsed" (lists s)))
         (cache s)).
Proof.
  intros Hf Ha Hb. destruct s as [F L C]. cbn [frames lists cache] in *.
  pose proof (index_bounds _ _ _ Ha) as Ba.
  pose proof (index_bounds _ _ _ Hb) as Bb.
  unfold proc_add_datepart.
  rewrite (bind_Return _ _ _ _ _ (append_run_any F L C cv "Elapsed")).
  fold (push cv "Elapsed" L).
  rewrite (bind_Return _ _ _ _ _ (columns_of_run F _ C df f Hf)).
  rewrite (bind_Return _ _ _ _ _ (lift_run _ _ _ Ha)).
  rewrite (bind_Return _ _ _ _ _ (lift_run _ _ _ Hb)).
  unfold range.
  destruct (Z.le_gt_cases b a) as [Hle|Hlt].
  - replace (Z.to_nat (b - a)) with 0 by lia. reflexivity.
  - apply datepart_loop_run; lia.
Qed.

Lemma datepart_registers_slice_witness :
  let dated := [("Date", Dates [1]%Z); ("Year", Floats (finite [2020]%Z));
                ("Month", Floats (finite [1]%Z)); ("Day", Floats (finite [2]%Z));
                ("Is_year_end", Floats (finite [0]%Z));
                ("Is_year_start", Floats (finite [0]%Z)); ("Elapsed", Floats (finite [7]%Z))] in
  proc_add_datepart 0 0 1 "Date" (Store [dated] [[]; []] empty_cache)
  = Return tt (Store [dated] [["Elapsed"]; ["Year"; "Month"; "Day"]] empty_cache).
Proof.
  intros dated.
  exact (datepart_registers_slice (Store [dated] [[]; []] empty_cache) 0 dated 0 1 "Date"
           1 4 eq_refl eq_refl eq_refl).
Defined.

(** X18. On a table without a "Year" column, or without an "Is_year_end"
    column, [proc_add_datepart] raises the ValueError of [list.index]
    after "Elapsed" has been appended to the continuous names: the name
    stays registered, the categorical list and the tables are as they
    were. *)
Theorem datepart_fails_after_elapsed s df f cv cat date_col_name :
  frames s !! df = Some f ->
  contains (columns f) "Year" = false \/ contains (columns f) "Is_year_end" = false ->
  proc_add_datepart df cv cat date_col_name s
  = Raise (ValueError "is not in list")
      (Store (frames s) (push cv "Elapsed" (lists s)) (cache s)).
Proof.
  intros Hf Hmiss. destruct s as [F L C]. cbn [frames lists cache] in *.
  unfold proc_add_datepart.
  rewrite (bind_Return _ _ _ _ _ (append_run_any F L C cv "Elapsed")).
  fold (push cv "Elapsed" L).
  rewrite (bind_Return _ _ _ _ _ (columns_of_run F _ C df f Hf)).
  destruct (contains (columns f) "Year") eqn:Ey.
  - destruct Hmiss as [|He]; [discriminate|].
    destruct (index_present _ _ Ey) as (a & Ha & _).
    rewrite (bind_Return _ _ _ _ _ (lift_run _ _ _ Ha)).
    apply bind_Raise. now rewrite (index_missing _ _ He).
  - apply bind_Raise. now rewrite (index_missing _ _ Ey).
Qed.

Lemma datepart_fails_after_elapsed_witness :
  proc_add_datepart 0 0 1 "Date" three_days_store
  = Raise (ValueError "is not in list")
      (Store [three_days] [["Elapsed"]; []] empty_cache).
Proof.
  exact (datepart_fails_after_elapsed three_days_store 0 three_days 0 1 "Date"
           eq_refl (or_introl eq_refl)).
Defined.

End DatepartSlice.

Section MovAvgWithoutColumn.

Lemma contains_renamed cols old new x :
  contains cols x = false ->
  x <> new \/ contains cols old = false ->
  contains (map (fun n => if String.eqb n old then new else n) cols) x = false.
Proof.
  unfold contains. intros Hx Hor.
  induction cols as [|n r IH]; cbn [map existsb] in *; [reflexivity|].
  apply orb_false_iff in Hx as [Hn Hr].
  assert (Hor' : x <> new \/ existsb (String.eqb old) r = false).
  { destruct Hor as [H|H]; [now left|]. right. now apply orb_false_iff in H as [_ H]. }
  rewrite (IH Hr Hor'), orb_false_r.
  destruct (String.eqb_spec n old) as [->|Hne]; [|exact Hn].
  destruct Hor as [H|H].
  - now apply String.eqb_neq.
  - apply orb_false_iff in H as [H _]. now rewrite String.eqb_refl in H.
Qed.

Lemma upper_ascii_not_a c : upper_ascii c <> Ascii.Ascii true false false false false true true false.
Proof.
  destruct c as [[] [] [] [] [] [] [] []]; vm_compute; discriminate.
Qed.

Lemma upper_not_Date s : upper s <> "Date".
Proof.
  destruct s as [|c1 [|c2 s]]; cbn [upper]; try discriminate.
  intros E. injection E as _ E _. now apply upper_ascii_not_a in E.
Qed.

Lemma moving_average_column_not_Date mov_avg tp :
  moving_average_column mov_avg tp <> "Date".
Proof.
  unfold moving_average_column. generalize (upper mov_avg) as a. intros a E.
  do 4 (destruct a as [|? a]; cbn in E; [discriminate|]; injection E as _ E).
  destruct a; discriminate.
Qed.

(** X19. [proc_add_mov_avg] renames the column named [mov_avg.upper()];
    when the table it fetched has no such column (and none with the new
    name), the rename does nothing and the transform raises KeyError on
    the new name, after that name has been appended to [cont_vars].  An
    instance: "EMA" in upper case selects the simple moving average,
    whose table has a column "SMA" and none "EMA". *)
Theorem mov_avg_without_its_column s df cv stock mov_avg tp merge_on add_diff
    diff_col add_ohlc_diff t dr :
  let col_name := upper mov_avg +:+ "_" +:+ str tp in
  is_ascii mov_avg = true ->
  cache s (moving_average_kind mov_avg) stock (Some tp) = inr t ->
  get t "date" = Some (Dates dr) ->
  contains (columns t) (upper mov_avg) = false ->
  contains (columns t) col_name = false ->
  proc_add_mov_avg df cv stock mov_avg tp merge_on add_diff diff_col add_ohlc_diff s
  = Raise (KeyError col_name)
      (Store (frames s ++ [t; rename t "date" "Date"; rename t "date" "Date"])
         (push cv col_name (lists s)) (cache s)).
Proof.
  intros col_name _ HC Hd Hup Hcol. destruct s as [F L C]. cbn [frames lists cache] in *.
  set (p1 := rename t "date" "Date").
  assert (H1 : contains (columns p1) col_name = false).
  { unfold p1. rewrite columns_rename. apply contains_renamed; [exact Hcol|].
    left. apply moving_average_column_not_Date. }
  assert (H2 : contains (columns p1) (upper mov_avg) = false).
  { unfold p1. rewrite columns_rename. apply contains_renamed; [exact Hup|].
    left. apply upper_not_Date. }
  assert (Hsame : rename p1 (upper mov_avg) col_name = p1).
  { unfold contains, columns in H2. unfold rename.
    induction p1 as [|[n c] r IH]; cbn [map existsb fst snd] in *; [reflexivity|].
    apply orb_false_iff in H2 as [Hn Hr].
    apply orb_false_iff in H1 as [_ H1].
    rewrite String.eqb_sym in Hn. rewrite Hn. f_equal. now apply IH. }
  unfold proc_add_mov_avg. fold col_name.
  rewrite (bind_Return _ _ _ _ _ (load_moving_avg_run F L C stock mov_avg tp t dr HC Hd)).
  rewrite (bind_Return _ _ _ _ _ (rename_run (F ++ [t]) L C (length F) t _ _
                                    (lookup_new0 F [t]))).
  fold p1.
  assert (Hp1 : ((F ++ [t]) ++ [p1]) !! length (F ++ [t]) = Some p1)
    by apply (lookup_new0 _ [p1]).
  rewrite (bind_Return _ _ _ _ _ (rename_run _ L C _ p1 _ _ Hp1)).
  rewrite Hsame.
  rewrite (bind_Return _ _ _ _ _ (append_run_any _ L C cv col_name)).
  fold (push cv col_name L).
  apply bind_Raise. apply bind_Raise.
  assert (Hp2 : (((F ++ [t]) ++ [p1]) ++ [p1]) !! length ((F ++ [t]) ++ [p1]) = Some p1)
    by apply (lookup_new0 _ [p1]).
  unfold series.
  rewrite (bind_Return _ _ _ _ _ (frame_of_run _ _ C _ p1 Hp2)).
  unfold floats. rewrite contains_columns in H1.
  destruct (get p1 col_name); [discriminate|].
  cbn [lift]. now rewrite <- !app_assoc.
Qed.

Lemma mov_avg_without_its_column_witness :
  proc_add_mov_avg 0 0 "MSFT" "EMA" 20 "Date" false "Close" false
    (Store [three_days] [[]] sma_cache)
  = Raise (KeyError "EMA_20")
      (Store ([three_days] ++ [three_days_sma; rename three_days_sma "date" "Date";
                               rename three_days_sma "date" "Date"])
         [["EMA_20"]] sma_cache).
Proof.
  exact (mov_avg_without_its_column (Store [three_days] [[]] sma_cache) 0 0 "MSFT"
           "EMA" 20 "Date" false "Close" false three_days_sma [2; 3; 4]%Z
           eq_refl eq_refl eq_refl eq_refl eq_refl).
Defined.

End MovAvgWithoutColumn.

Section MacdColumns.

(** X20. [proc_add_macd] on a price table and a MACD table that share
    only the date column returns a new table: the inner join, plus
    "MACD_SIGN_DIFF" holding MACD minus MACD_Signal row by row, plus a
    "_Change" column for each of the three MACD columns holding the
    percentage change of the column as joined, not of the column as
    fetched.  The price table itself is left as it was. *)
Theorem macd_adds_columns_after_join s df f cont stock t dl dr cv :
  let p := rename t "date" "Date" in
  frames s !! df = Some f ->
  lists s !! cont = Some cv ->
  cache s MACD stock None = inr t ->
  get f "Date" = Some (Dates dl) ->
  get p "Date" = Some (Dates dr) ->
  shares_only_key f p "Date" = true ->
  columns p = ["Date"; "MACD"; "MACD_Signal"; "MACD_Hist"] ->
  numeric p ["MACD"; "MACD_Signal"; "MACD_Hist"] = true ->
  exists r m s' out m1 m2 m3,
    merge f p "Date" = inr m
    /\ get m "MACD" = Some (Floats m1)
    /\ get m "MACD_Signal" = Some (Floats m2)
    /\ get m "MACD_Hist" = Some (Floats m3)
    /\ proc_add_macd df cont stock s = Return r s'
    /\ r <> df
    /\ frames s' !! r = Some out
    /\ frames s' !! df = Some f
    /\ get out "MACD_SIGN_DIFF" = Some (Floats (zip_with sub m1 m2))
    /\ get out "MACD_Change" = Some (Floats (pct_change m1))
    /\ get out "MACD_Signal_Change" = Some (Floats (pct_change m2))
    /\ get out "MACD_Hist_Change" = Some (Floats (pct_change m3))
    /\ forall name,
         ~ In name ["MACD_SIGN_DIFF"; "MACD_Change"; "MACD_Signal_Change";
                    "MACD_Hist_Change"] ->
         get out name = get m name.
Proof.
  intros p HF HL HC Hdl Hdr Hshare Hcols Hnum.
  destruct (merge_total f p dl dr Hdl Hdr Hshare) as [m Hm].
  destruct (numeric_In p _ "MACD" Hnum) as [x1 Hx1]; [now left|].
  destruct (numeric_In p _ "MACD_Signal" Hnum) as [x2 Hx2]; [right; now left|].
  destruct (numeric_In p _ "MACD_Hist" Hnum) as [x3 Hx3]; [do 2 right; now left|].
  destruct (merged_indicator f p dl dr m _ _ Hdl Hdr Hshare Hm Hx1) as [m1 Hm1].
  destruct (merged_indicator f p dl dr m _ _ Hdl Hdr Hshare Hm Hx2) as [m2 Hm2].
  destruct (merged_indicator f p dl dr m _ _ Hdl Hdr Hshare Hm Hx3) as [m3 Hm3].
  assert (Hrem : removed (columns p) "Date" = inr ["MACD"; "MACD_Signal"; "MACD_Hist"]).
  { rewrite Hcols. reflexivity. }
  assert (Hdf : df < length (frames s)) by (eapply lookup_lt_Some; eauto).
  destruct s as [F L C]; cbn [frames lists cache] in *.
  exists (length F + 2), m. do 2 eexists. exists m1, m2, m3.
  split; [exact Hm|]. split; [exact Hm1|]. split; [exact Hm2|]. split; [exact Hm3|].
  split.
  { unfold proc_add_macd. fold p. run. }
  cbn [frames lists cache]. rewrite !lookup_new, <- ?app_assoc. cbn [lookup list_lookup].
  split; [lia|]. split; [reflexivity|].
  split; [now apply lookup_app_l_Some|].
  split; [solve_get|]. split; [solve_get|]. split; [solve_get|]. split; [solve_get|].
  intros name Hname. cbn [In] in Hname.
  rewrite !get_setitem_ne by (intros E; apply Hname; subst name; tauto).
  reflexivity.
Qed.

Lemma macd_adds_columns_after_join_witness :
  exists r m s' out m1 m2 m3,
    merge three_days (rename three_days_macd "date" "Date") "Date" = inr m
    /\ get m "MACD" = Some (Floats m1)
    /\ get m "MACD_Signal" = Some (Floats m2)
    /\ get m "MACD_Hist" = Some (Floats m3)
    /\ proc_add_macd 0 0 "MSFT" (indicator_store three_days_macd) = Return r s'
    /\ r <> 0
    /\ frames s' !! r = Some out
    /\ frames s' !! 0 = Some three_days
    /\ get out "MACD_SIGN_DIFF" = Some (Floats (zip_with sub m1 m2))
    /\ get out "MACD_Change" = Some (Floats (pct_change m1))
    /\ get out "MACD_Signal_Change" = Some (Floats (pct_change m2))
    /\ get out "MACD_Hist_Change" = Some (Floats (pct_change m3))
    /\ forall name,
         ~ In name ["MACD_SIGN_DIFF"; "MACD_Change"; "MACD_Signal_Change";
                    "MACD_Hist_Change"] ->
         get out name = get m name.
Proof.
  exact (macd_adds_columns_after_join (indicator_store three_days_macd) 0 three_days
           0 "MSFT" three_days_macd [1; 2; 3]%Z [2; 3; 4]%Z []
           eq_refl eq_refl eq_refl eq_refl eq_refl eq_refl eq_refl eq_refl).
Defined.

End MacdColumns.

Section BbandDifferences.

(** X21. With [add_diff_to_bb] set, [proc_add_bband] returns a new table:
    the inner join plus the three columns "Close_BB_UP_Diff",
    "Close_BB_MID_Diff" and "Close_BB_LOW_Diff", so named whatever
    [diff_col] is; every other column is the join's.  Each of the three
    holds the column [diff_col], as it stands when the difference is
    taken, minus the upper, middle and lower band: that is [diff_col] as
    joined, unless [diff_col] is itself the name of a difference already
    written.  The three names are all the call adds to [cont_vars]: the
    band names themselves are not registered. *)
Theorem bband_differences_are_named_Close s df f cont stock diff_col add_ohlc_diff
    t dl dr cv xd :
  let p := rename (rename (rename (rename t "Real Upper Band" "BB_UP")
                             "Real Middle Band" "BB_MID")
                     "Real Lower Band" "BB_LOW") "date" "Date" in
  frames s !! df = Some f ->
  lists s !! cont = Some cv ->
  cache s BBANDS stock None = inr t ->
  get f "Date" = Some (Dates dl) ->
  get p "Date" = Some (Dates dr) ->
  shares_only_key f p "Date" = true ->
  columns p = ["Date"; "BB_UP"; "BB_MID"; "BB_LOW"] ->
  numeric p ["BB_UP"; "BB_MID"; "BB_LOW"] = true ->
  get f diff_col = Some (Floats xd) ->
  exists r m s' out md m1 m2 m3,
    merge f p "Date" = inr m
    /\ get m diff_col = Some (Floats md)
    /\ get m "BB_UP" = Some (Floats m1)
    /\ get m "BB_MID" = Some (Floats m2)
    /\ get m "BB_LOW" = Some (Floats m3)
    /\ proc_add_bband df cont stock "Date" true diff_col add_ohlc_diff s = Return r s'
    /\ r <> df
    /\ frames s' !! r = Some out
    /\ frames s' !! df = Some f
    /\ (forall name,
          ~ In name ["Close_BB_UP_Diff"; "Close_BB_MID_Diff"; "Close_BB_LOW_Diff"] ->
          get out name = get m name)
    /\ get out "Close_BB_UP_Diff" = Some (Floats (zip_with sub md m1))
    /\ get out "Close_BB_MID_Diff"
       = Some (Floats (zip_with sub
                         (if String.eqb diff_col "Close_BB_UP_Diff"
                          then zip_with sub md m1 else md) m2))
    /\ get out "Close_BB_LOW_Diff"
       = Some (Floats (zip_with sub
                         (if String.eqb diff_col "Close_BB_UP_Diff"
                          then zip_with sub md m1
                          else if String.eqb diff_col "Close_BB_MID_Diff"
                               then zip_with sub md m2 else md) m3))
    /\ lists s' !! cont
       = Some (cv ++ ["Close_BB_UP_Diff"; "Close_BB_MID_Diff"; "Close_BB_LOW_Diff"]).
Proof.
  intros p HF HL HC Hdl Hdr Hshare Hcols Hnum Hxd.
  destruct (merge_total f p dl dr Hdl Hdr Hshare) as [m Hm].
  destruct (numeric_In p _ "BB_UP" Hnum) as [x1 Hx1]; [now left|].
  destruct (numeric_In p _ "BB_MID" Hnum) as [x2 Hx2]; [right; now left|].
  destruct (numeric_In p _ "BB_LOW" Hnum) as [x3 Hx3]; [do 2 right; now left|].
  destruct (merged_indicator f p dl dr m _ _ Hdl Hdr Hshare Hm Hx1) as [m1 Hm1].
  destruct (merged_indicator f p dl dr m _ _ Hdl Hdr Hshare Hm Hx2) as [m2 Hm2].
  destruct (merged_indicator f p dl dr m _ _ Hdl Hdr Hshare Hm Hx3) as [m3 Hm3].
  destruct (merged_left_numeric f p dl dr m _ _ Hdl Hdr Hshare Hm Hxd) as [md Hmd].
  assert (Hrem : removed (columns p) "Date" = inr ["BB_UP"; "BB_MID"; "BB_LOW"]).
  { rewrite Hcols. reflexivity. }
  assert (Hdf : df < length (frames s)) by (eapply lookup_lt_Some; eauto).
  assert (Hcont : cont < length (lists s)) by (eapply lookup_lt_Some; eauto).
  destruct s as [F L C]; cbn [frames lists cache] in *.
  exists (length F + 5), m.
  destruct (String.eqb_spec diff_col "Close_BB_UP_Diff") as [->|N1];
    [|destruct (String.eqb_spec diff_col "Close_BB_MID_Diff") as [->|N2]];
    (do 2 eexists; exists md, m1, m2, m3;
     split; [exact Hm|]; split; [exact Hmd|];
     split; [exact Hm1|]; split; [exact Hm2|]; split; [exact Hm3|];
     split;
     [ unfold proc_add_bband, DBG; fold p; run
     | cbn [frames lists cache]; rewrite !lookup_new, <- ?app_assoc;
       cbn [lookup list_lookup];
       split; [lia|]; split; [reflexivity|];
       split; [now apply lookup_app_l_Some|];
       split;
       [ intros name Hname; cbn [In] in Hname;
         rewrite !get_setitem_ne by (intros E; apply Hname; subst name; tauto);
         reflexivity |];
       split; [solve_get|]; split; [solve_get|]; split; [solve_get|];
       apply list_lookup_insert_eq; rewrite length_app; lia ]).
Qed.

Lemma bband_differences_are_named_Close_witness :
  exists r m s' out md m1 m2 m3,
    merge three_days
      (rename (rename (rename (rename three_days_bbands "Real Upper Band" "BB_UP")
                         "Real Middle Band" "BB_MID")
                 "Real Lower Band" "BB_LOW") "date" "Date") "Date" = inr m
    /\ get m "Open" = Some (Floats md)
    /\ get m "BB_UP" = Some (Floats m1)
    /\ get m "BB_MID" = Some (Floats m2)
    /\ get m "BB_LOW" = Some (Floats m3)
    /\ proc_add_bband 0 0 "MSFT" "Date" true "Open" false
         (indicator_store three_days_bbands) = Return r s'
    /\ r <> 0
    /\ frames s' !! r = Some out
    /\ frames s' !! 0 = Some three_days
    /\ (forall name,
          ~ In name ["Close_BB_UP_Diff"; "Close_BB_MID_Diff"; "Close_BB_LOW_Diff"] ->
          get out name = get m name)
    /\ get out "Close_BB_UP_Diff" = Some (Floats (zip_with sub md m1))
    /\ get out "Close_BB_MID_Diff"
       = Some (Floats (zip_with sub
                         (if String.eqb "Open" "Close_BB_UP_Diff"
                          then zip_with sub md m1 else md) m2))
    /\ get out "Close_BB_LOW_Diff"
       = Some (Floats (zip_with sub
                         (if String.eqb "Open" "Close_BB_UP_Diff"
                          then zip_with sub md m1
                          else if String.eqb "Open" "Close_BB_MID_Diff"
                               then zip_with sub md m2 else md) m3))
    /\ lists s' !! 0
       = Some ([] ++ ["Close_BB_UP_Diff"; "Close_BB_MID_Diff"; "Close_BB_LOW_Diff"]).
Proof.
  exact (bband_differences_are_named_Close (indicator_store three_days_bbands) 0
           three_days 0 "MSFT" "Open" false three_days_bbands [1; 2; 3]%Z [2; 3; 4]%Z []
           (finite [10; 11; 12]%Z)
           eq_refl eq_refl eq_refl eq_refl eq_refl eq_refl eq_refl eq_refl eq_refl).
Defined.

End BbandDifferences.

Section RegisteredNames.

(** X22. The names a returning call registers, for every transform of
    the pipeline on a live table: each metadata list that existed before
    the call holds afterwards its old entries followed by exactly the
    names the source appends to it, in the order of the appends
    ([log_of] lists them call by call), and the cache is as it was. *)
Theorem returning_call_registers c s f r s' l xs :
  frames s !! table_of c = Some f ->
  run c s = Return r s' ->
  lists s !! l = Some xs ->
  lists s' !! l = Some (xs ++ names_at l (log_of c s))
  /\ cache s' = cache s.
Proof.
  intros Hf Hrun Hx.
  pose proof (wp_Return _ _ _ _ _ (registered_run c s f Hf) Hrun) as R.
  split; [now apply (lookup_registered c s s' l xs R)|].
  now destruct R as (_ & HC & _).
Qed.

Lemma returning_call_registers_witness :
  exists r s',
    run (add_macd 0 0 "MSFT") (indicator_store three_days_macd) = Return r s'
    /\ lists s' !! 0
       = Some ([] ++ names_at 0 (log_of (add_macd 0 0 "MSFT")
                                   (indicator_store three_days_macd)))
    /\ cache s' = cache (indicator_store three_days_macd).
Proof.
  assert (H : exists r s',
             run (add_macd 0 0 "MSFT") (indicator_store three_days_macd) = Return r s')
    by (do 2 eexists; vm_compute; reflexivity).
  destruct H as (r & s' & H). exists r, s'. split; [exact H|].
  exact (returning_call_registers (add_macd 0 0 "MSFT") (indicator_store three_days_macd)
           three_days r s' 0 [] eq_refl H eq_refl).
Defined.

End RegisteredNames.
